(** * The chat widget (static/js/chatbot.js) and the scoring contracts
      of the 3-character-chat repository

    The repository ships two variants of [static/js/chatbot.js].  The first
    one redirects to the programme recommendation page when the reply carries
    a [program_recommendation]; the second one asks for the report a second
    time when the reply carries [needs_report_generation].  Both are embedded
    below, in the modules [Recommend] and [Report], over a common model of
    JavaScript values, of the page and of the browser's event loop.

    Conventions.
    - A JavaScript string is the [string] of its UTF-8 bytes.
    - A JavaScript number is identified by its [Number::toString] rendering
      (the only observations this client makes of a number are [ToBoolean]
      and [ToString]); the message counter, which the script increments, is
      an [N] with the behaviour of [x++] on an IEEE double written out.
    - An [async] function is cut at its [await]s: the part before the first
      [await] is one handler, the part after the awaited promise settles is
      a continuation that the event loop runs on the world of that moment.
    - Left out of the world: [style.display], the scroll position of the
      log, what goes to the console and the load events of pictures.  The
      modal dialogs, which only set [style.display], are embedded on their
      own in the module [Modal].
    - The world keeps the elements of the page in lists, in tree order, and
      does not record which element is inside which.  That is exact for
      what the script does to the messages it makes, which have no element
      with an id inside them; the module [Dom] has the document as a tree.

    The scoring engine ([services/chatbot_service.py]) is not among the
    sources; what the implementation guide and the specification say of its
    composite index and tier lookup is modelled at the end of the
    definitions.  The [_search_similar] that the guide quotes is embedded
    as it is quoted, in the module [Py]. *)

From Stdlib Require Import QArith Lqa.
From stdpp Require Import gmap strings list pretty relations.
Set Warnings "-register-all".
Close Scope Q_scope.
Open Scope string_scope.

(** ** JavaScript values *)

Inductive Value : Type :=
| VUndefined
| VNull
| VBool (b : bool)
| VNum (repr : string)
| VStr (s : string)
| VArr (items : list Value)
| VObj (props : gmap string Value).

(** What a function throws, or a promise rejects with. *)
Inductive Exn : Type :=
| TypeError (what : string)
| HttpError (status : N)
| Rejection (reason : string).

Inductive Outcome (A : Type) : Type :=
| Returned (a : A)
| Threw (e : Exn).
Arguments Returned {A} a.
Arguments Threw {A} e.

(** [ToBoolean]: [undefined], [null], [false], [±0], [NaN] and the empty
    string are falsy. *)
Definition ToBoolean (v : Value) : bool :=
  match v with
  | VUndefined | VNull => false
  | VBool b => b
  | VNum r => negb (bool_decide (r = "0") || bool_decide (r = "NaN"))
  | VStr s => negb (bool_decide (s = ""))
  | VArr _ | VObj _ => true
  end.

(** [a || b] (both operands are side-effect free wherever the client uses it). *)
Definition js_or (a b : Value) : Value := if ToBoolean a then a else b.

(** [ToString]; an array joins its items with commas, [null] and
    [undefined] items rendering as the empty string. *)
Fixpoint ToString (v : Value) : string :=
  match v with
  | VUndefined => "undefined"
  | VNull => "null"
  | VBool true => "true"
  | VBool false => "false"
  | VNum r => r
  | VStr s => s
  | VArr items =>
      String.concat ","
        (List.map (fun x => match x with
                            | VUndefined | VNull => ""
                            | _ => ToString x
                            end) items)
  | VObj _ => "[object Object]"
  end.

(** Property read [v.k], for the property names this client reads
    ([reply], [image], [message], [sentiment], [program_recommendation],
    [needs_report_generation]): none of them is a built-in member of a
    string, number, boolean or array, so only a plain object can hold one. *)
Definition get (v : Value) (k : string) : Outcome Value :=
  match v with
  | VUndefined | VNull =>
      Threw (TypeError ("Cannot read properties of " ++ ToString v))
  | VObj props => Returned (default VUndefined (props !! k))
  | _ => Returned VUndefined
  end.

(** [v === true]. *)
Definition is_true (v : Value) : bool :=
  match v with VBool true => true | _ => false end.

(** [v.substring(0, 50)], evaluated for the debug log: only a string has
    the method; on any other value the call throws. *)
Definition substring_check (v : Value) : Outcome unit :=
  match v with
  | VStr _ => Returned tt
  | _ => Threw (TypeError "replyText.substring is not a function")
  end.

(** *** [String.prototype.trim] on UTF-8 bytes *)

Definition bytes_of (s : string) : list N :=
  List.map Ascii.N_of_ascii (String.list_ascii_of_string s).
Definition string_of_bytes (bs : list N) : string :=
  String.string_of_list_ascii (List.map Ascii.ascii_of_N bs).

Definition ascii_space (b : N) : bool :=
  bool_decide (b ∈ [9; 10; 11; 12; 13; 32]%N).

(** The remainder after one leading WhiteSpace or LineTerminator code point:
    TAB LF VT FF CR SP, U+00A0, U+1680, U+2000..U+200A, U+2028, U+2029,
    U+202F, U+205F, U+3000, U+FEFF. *)
Definition skip_space (bs : list N) : option (list N) :=
  match bs with
  | 194 :: 160 :: r => Some r
  | 225 :: 154 :: 128 :: r => Some r
  | 226 :: 128 :: c :: r =>
      if ((128 <=? c) && (c <=? 138) || (c =? 168) || (c =? 169) || (c =? 175))%N
      then Some r else None
  | 226 :: 129 :: 159 :: r => Some r
  | 227 :: 128 :: 128 :: r => Some r
  | 239 :: 187 :: 191 :: r => Some r
  | b :: r => if ascii_space b then Some r else None
  | [] => None
  end%N.

(** The same, read from the end of the reversed byte list. *)
Definition skip_space_rev (bs : list N) : option (list N) :=
  match bs with
  | 160 :: 194 :: r => Some r
  | 128 :: 154 :: 225 :: r => Some r
  | 159 :: 129 :: 226 :: r => Some r
  | 128 :: 128 :: 227 :: r => Some r
  | 191 :: 187 :: 239 :: r => Some r
  | c :: 128 :: 226 :: r =>
      if ((128 <=? c) && (c <=? 138) || (c =? 168) || (c =? 169) || (c =? 175))%N
      then Some r
      else if ascii_space c then Some (128 :: 226 :: r) else None
  | b :: r => if ascii_space b then Some r else None
  | [] => None
  end%N.

Fixpoint strip (skip : list N -> option (list N)) (fuel : nat) (bs : list N)
  : list N :=
  match fuel with
  | O => bs
  | S fuel' =>
      match skip bs with
      | Some r => strip skip fuel' r
      | None => bs
      end
  end.

Definition trim (s : string) : string :=
  let bs := bytes_of s in
  let l := strip skip_space (length bs) bs in
  string_of_bytes (rev (strip skip_space_rev (length l) (rev l))).

(** *** [URLSearchParams.prototype.toString] *)

Definition hex_digit (n : N) : string :=
  string_of_bytes [if (n <? 10)%N then (48 + n)%N else (55 + n)%N].

(** The application/x-www-form-urlencoded byte serialiser: ASCII letters,
    digits and [*-._] stay, a space becomes [+], every other byte becomes
    [%XX] in upper-case hexadecimal. *)
Definition urlencode_byte (b : N) : string :=
  if ((48 <=? b) && (b <=? 57) || (65 <=? b) && (b <=? 90)
      || (97 <=? b) && (b <=? 122)
      || (b =? 42) || (b =? 45) || (b =? 46) || (b =? 95))%N
  then string_of_bytes [b]
  else if (b =? 32)%N then "+"
  else "%" ++ hex_digit (b / 16) ++ hex_digit (b mod 16).

Definition urlencode (s : string) : string :=
  String.concat "" (List.map urlencode_byte (bytes_of s)).

(** [new URLSearchParams(record).toString()]: the record's values are
    converted with [ToString], the pairs are joined with [&]. *)
Definition URLSearchParams_toString (record : list (string * Value)) : string :=
  String.concat "&"
    (List.map (fun kv => urlencode kv.1 ++ "=" ++ urlencode (ToString kv.2))
       record).

(** ** The page *)

Inductive Sender : Type := user | bot.

Definition sender_class (s : Sender) : string :=
  match s with user => "user" | bot => "bot" end.

(** What hangs below a message element.  [appendMessage] gives none of these
    nodes an [id]. *)
Inductive Inner : Type :=
| IText (data : string)
| IImg (classes : list string) (src alt : string)
| IDiv (classes : list string) (children : list Inner).

(** An element that may carry an [id]: a child of the chat log, or an
    element of the rest of the document.  [el_id = ""] means no [id]. *)
Record Elem : Type := mkElem {
  el_id : string;
  el_classes : list string;
  el_src : option string;
  el_children : list Inner
}.

(** [node.textContent = v]: every child is dropped and, unless the string
    is empty, one text node holding the string is put in; nothing is parsed.
    The attribute is a nullable DOMString: [null] and [undefined] clear it. *)
Definition set_textContent (v : Value) : list Inner :=
  let s := match v with VUndefined | VNull => "" | _ => ToString v end in
  if bool_decide (s = "") then [] else [IText s].

(** The [textContent] getter: the text of the descendants, in order. *)
Fixpoint textContent (n : Inner) : string :=
  match n with
  | IText d => d
  | IImg _ _ _ => ""
  | IDiv _ children => String.concat "" (List.map textContent children)
  end.

Definition el_textContent (e : Elem) : string :=
  String.concat "" (List.map textContent (el_children e)).

(** The element nodes below a node (what an HTML parser would have added
    had the text been parsed). *)
Fixpoint elements_below (n : Inner) : nat :=
  match n with
  | IText _ => 0
  | IImg _ _ _ => 1
  | IDiv _ children => 1 + list_sum (List.map elements_below children)
  end.

(** [classList.add(c)]. *)
Definition classList_add (c : string) (cs : list string) : list string :=
  if bool_decide (c ∈ cs) then cs else (cs ++ [c])%list.

(** ** Requests, continuations and the world *)

Record Request : Type := mkRequest {
  req_url : string;
  req_method : string;
  req_headers : list (string * string);
  req_body : Value    (* the object handed to JSON.stringify *)
}.

(** What is suspended at an [await] or behind a promise chain: the rest of
    [sendMessage], or the [then]/[catch] chain of the automatic report
    request; each remembers the id of its loading message. *)
Inductive Cont : Type :=
| KSend (loadingId : string)
| KReport (loadingId2 : string).

(** A callback handed to [setTimeout]. *)
Inductive Task : Type :=
| TLoadCheck
| TAutoReport.

(** How a [fetch] settles: the promise rejects, or a response arrives with
    its status and with what [response.json()] settles to. *)
Inductive FetchResult : Type :=
| FetchFailed (reason : string)
| FetchResponse (status : N) (json : Outcome Value).

(** [response.ok]. *)
Definition ok (status : N) : bool := ((200 <=? status) && (status <=? 299))%N.

Record World : Type := mkWorld {
  username : Value;                     (* const username *)
  userMessageInput : option string;     (* value of #user-message, if present *)
  sendBtn : bool;                       (* is there a #send-btn *)
  chatLog : option (list Elem);         (* children of #chat-log, if present *)
  before : list Elem;                   (* the document before the log's children *)
  after : list Elem;                    (* the document after them *)
  messageIdCounter : N;
  location_href : option string;        (* Some url once window.location.href is assigned *)
  inflight : list (Request * Cont);     (* fetches not yet settled *)
  timers : list (N * Task)              (* timeouts not yet fired *)
}.

(** [const username = chatArea ? chatArea.dataset.username : "사용자"]: the
    argument tells whether [.chat-area] exists and, if so, its
    [data-username] attribute. *)
Definition username_of (chatArea : option (option string)) : Value :=
  match chatArea with
  | None => VStr "사용자"
  | Some None => VUndefined
  | Some (Some u) => VStr u
  end.

(** The world when the script has just run on a freshly parsed page. *)
Definition script_start (chatArea : option (option string))
    (input : option string) (button : bool) (log : option (list Elem))
    (pre post : list Elem) : World :=
  mkWorld (username_of chatArea) input button log pre post 0 None [] [].

Definition set_input (v : option string) (w : World) : World :=
  mkWorld (username w) v (sendBtn w) (chatLog w) (before w) (after w)
    (messageIdCounter w) (location_href w) (inflight w) (timers w).
Definition set_chatLog (l : option (list Elem)) (w : World) : World :=
  mkWorld (username w) (userMessageInput w) (sendBtn w) l (before w) (after w)
    (messageIdCounter w) (location_href w) (inflight w) (timers w).
Definition set_before (l : list Elem) (w : World) : World :=
  mkWorld (username w) (userMessageInput w) (sendBtn w) (chatLog w) l (after w)
    (messageIdCounter w) (location_href w) (inflight w) (timers w).
Definition set_after (l : list Elem) (w : World) : World :=
  mkWorld (username w) (userMessageInput w) (sendBtn w) (chatLog w) (before w) l
    (messageIdCounter w) (location_href w) (inflight w) (timers w).
Definition set_counter (c : N) (w : World) : World :=
  mkWorld (username w) (userMessageInput w) (sendBtn w) (chatLog w) (before w)
    (after w) c (location_href w) (inflight w) (timers w).
Definition set_location (h : option string) (w : World) : World :=
  mkWorld (username w) (userMessageInput w) (sendBtn w) (chatLog w) (before w)
    (after w) (messageIdCounter w) h (inflight w) (timers w).
Definition set_inflight (l : list (Request * Cont)) (w : World) : World :=
  mkWorld (username w) (userMessageInput w) (sendBtn w) (chatLog w) (before w)
    (after w) (messageIdCounter w) (location_href w) l (timers w).
Definition set_timers (l : list (N * Task)) (w : World) : World :=
  mkWorld (username w) (userMessageInput w) (sendBtn w) (chatLog w) (before w)
    (after w) (messageIdCounter w) (location_href w) (inflight w) l.

(** *** Looking elements up by id *)

Inductive Loc : Type :=
| InBefore (i : nat)
| InLog (i : nat)
| InAfter (i : nat).

Definition find_id (id : string) (l : list Elem) : option nat :=
  fst <$> list_find (fun e => el_id e = id) l.

(** [document.getElementById(id)]: the first element in tree order. *)
Definition getElementById (id : string) (w : World) : option Loc :=
  if bool_decide (id = "") then None else
  match find_id id (before w) with
  | Some i => Some (InBefore i)
  | None =>
      match find_id id (default [] (chatLog w)) with
      | Some i => Some (InLog i)
      | None => InAfter <$> find_id id (after w)
      end
  end.

(** [elem.remove()] for an element that has no element inside it: the
    element leaves the list it is in.  Every message that [appendMessage]
    makes is such an element (what hangs below it are [Inner] nodes, which
    carry no id).  An element of the rest of the page takes what is inside
    it along when it is removed; [Dom.removeMessage] has that. *)
Definition remove_at (l : Loc) (w : World) : World :=
  match l with
  | InBefore i => set_before (delete i (before w)) w
  | InLog i => set_chatLog (delete i <$> chatLog w) w
  | InAfter i => set_after (delete i (after w)) w
  end.

(** An update of the element at a place. *)
Definition alter_at (f : Elem -> Elem) (l : Loc) (w : World) : World :=
  match l with
  | InBefore i => set_before (alter f i (before w)) w
  | InLog i => set_chatLog (alter f i <$> chatLog w) w
  | InAfter i => set_after (alter f i (after w)) w
  end.

(** [x++] on a double that holds a natural number: exact below 2^53, and
    2^53 + 1 rounds back to 2^53. *)
Definition js_incr (c : N) : N := if (c <? 2 ^ 53)%N then (c + 1)%N else c.

(** ** A monad for handlers: world passing, with exceptions that keep the
    world as it was when they were thrown *)

Definition M (A : Type) : Type := World -> World * Outcome A.

Definition ret {A} (a : A) : M A := fun w => (w, Returned a).
Definition throw {A} (e : Exn) : M A := fun w => (w, Threw e).
Definition bind {A B} (m : M A) (k : A -> M B) : M B :=
  fun w => match m w with
           | (w', Returned a) => k a w'
           | (w', Threw e) => (w', Threw e)
           end.
Definition try_catch {A} (m : M A) (handler : Exn -> M A) : M A :=
  fun w => match m w with
           | (w', Returned a) => (w', Returned a)
           | (w', Threw e) => handler e w'
           end.
Definition lift {A} (o : Outcome A) : M A := fun w => (w, o).
Definition modify (f : World -> World) : M unit := fun w => (f w, Returned tt).
Definition reads {A} (f : World -> A) : M A := fun w => (w, Returned (f w)).

#[global] Instance M_ret : MRet M := @ret.
#[global] Instance M_bind : MBind M := fun A B k m => bind m k.

(** [removeMessage(messageId)]; the same in both variants. *)
Definition removeMessage (messageId : string) : M unit :=
  elem ← reads (getElementById messageId);
  match elem with
  | Some l => modify (remove_at l)
  | None => ret tt
  end.

(** [fetch(...)]: the request is under way, its continuation waits. *)
Definition fetch (r : Request) (k : Cont) : M unit :=
  modify (fun w => set_inflight (inflight w ++ [(r, k)])%list w).

(** [setTimeout(task, ms)]. *)
Definition setTimeout (t : Task) (ms : N) : M unit :=
  modify (fun w => set_timers (timers w ++ [(ms, t)])%list w).

(** The POST both variants send to [/api/chat]. *)
Definition chat_request (message : string) (name : Value) : Request :=
  mkRequest "/api/chat" "POST" [("Content-Type", "application/json")]
    (VObj (<["message" := VStr message]> (<["username" := name]> ∅))).

(** What [await fetch(...)], the [response.ok] test and
    [await response.json()] leave in [data], or throw. *)
Definition awaited_json (r : FetchResult) : Outcome Value :=
  match r with
  | FetchFailed reason => Threw (Rejection reason)
  | FetchResponse status json =>
      if ok status then json else Threw (HttpError status)
  end.

(** The new message element is put at the end of the log, when there is a
    log ([if (chatLog)]). *)
Definition chatLog_appendChild (e : Elem) (w : World) : World :=
  set_chatLog ((fun l => (l ++ [e])%list) <$> chatLog w) w.

(** The template literal [`msg-${n}`] for a counter value [n]. *)
Definition msg_id (n : N) : string := "msg-" ++ pretty n.

Definition thinking : string := "생각 중...".
Definition retry_apology : string :=
  "죄송합니다. 오류가 발생했습니다. 다시 시도해주세요.".
Definition report_apology : string :=
  "죄송합니다. 리포트 생성 중 오류가 발생했습니다.".

(** What the user and the browser do to the page.  (Opening and closing a
    modal only sets a [style.display], which the world does not record.) *)
Inductive Event : Type :=
| EvLoad                              (* the window's load event *)
| EvTimer (i : nat)                   (* the i-th pending timeout fires *)
| EvSettle (i : nat) (r : FetchResult) (* the i-th pending fetch settles *)
| EvType (s : string)                 (* the user edits #user-message *)
| EvEnter                             (* Enter is pressed in #user-message *)
| EvClick.                            (* #send-btn is clicked *)

(** ** First variant: redirect on [program_recommendation] *)

Module Recommend.

(** [updateCharacterImage(imageSrc)].  The [onerror] and [onload] handlers it
    installs only toggle [style.display] and the [show] class of the panel
    when the picture has loaded or failed; the panel's load events are left
    out of the model. *)
Definition updateCharacterImage (imageSrc : Value) : M unit :=
  characterImage ← reads (getElementById "character-image");
  characterName ← reads (getElementById "character-name");
  match characterImage with
  | Some img =>
      if ToBoolean imageSrc then
        modify (alter_at (fun e =>
          mkElem (el_id e) (classList_add "show" (el_classes e))
            (Some (ToString imageSrc)) (el_children e)) img);;
        match characterName with
        | Some name =>
            modify (alter_at (fun e =>
              mkElem (el_id e) (classList_add "show" (el_classes e))
                (el_src e) (el_children e)) name)
        | None => ret tt
        end
      else ret tt
  | None => ret tt
  end.

(** [appendMessage(sender, text, imageSrc = null)]. *)
Definition appendMessage (sender : Sender) (text imageSrc : Value) : M string :=
  count ← reads messageIdCounter;
  let messageId := msg_id count in
  modify (set_counter (js_incr count));;
  children ← match sender with
              | user => ret (set_textContent text)
              | bot =>
                  (if ToBoolean imageSrc then updateCharacterImage imageSrc
                   else ret tt);;
                  ret [IDiv ["bot-text-container"] (set_textContent text)]
              end;
  modify (chatLog_appendChild
            (mkElem messageId ["message"; sender_class sender] None children));;
  ret messageId.

(** [sendMessage(isInitial = false)] up to its first [await]. *)
Definition sendMessage (isInitial : bool) : M unit :=
  message ← (if isInitial then ret (Some "init")
             else
               input ← reads userMessageInput;
               match input with
               | None => throw (TypeError "Cannot read properties of null")
               | Some value =>
                   let message := trim value in
                   if bool_decide (message = "") then ret None
                   else
                     appendMessage user (VStr message) VNull;;
                     modify (set_input (Some ""));;
                     ret (Some message)
               end);
  match message with
  | None => ret tt
  | Some message =>
      loadingId ← appendMessage bot (VStr thinking) VNull;
      name ← reads username;
      fetch (chat_request message name) (KSend loadingId)
  end.

(** The [try] block of [sendMessage] from the point where the fetch has
    settled. *)
Definition sendMessage_try (loadingId : string) (r : FetchResult) : M unit :=
  data ← lift (awaited_json r);
  removeMessage loadingId;;
  recommendation ← lift (get data "program_recommendation");
  if ToBoolean recommendation then
    rec_image ← lift (get recommendation "image");
    data_image ← lift (get data "image");
    rec_message ← lift (get recommendation "message");
    data_reply ← lift (get data "reply");
    rec_sentiment ← lift (get recommendation "sentiment");
    let params :=
      URLSearchParams_toString
        [("image", js_or (js_or rec_image data_image) (VStr ""));
         ("message", js_or (js_or rec_message data_reply) (VStr ""));
         ("sentiment", js_or rec_sentiment (VStr "positive"))] in
    modify (set_location (Some ("/program_recommendation?" ++ params)))
  else
    reply ← lift (get data "reply");
    image ← lift (get data "image");
    let replyText := js_or reply (VStr "") in
    let imagePath := js_or image VNull in
    lift (substring_check replyText);;
    appendMessage bot replyText imagePath;;
    ret tt.

(** The rest of [sendMessage]: the [try] block and its [catch], which
    writes the error to the console only. *)
Definition sendMessage_resume (loadingId : string) (r : FetchResult) : M unit :=
  try_catch (sendMessage_try loadingId r)
    (fun err =>
       removeMessage loadingId;;
       appendMessage bot (VStr retry_apology) VNull;;
       ret tt).

Definition resume (k : Cont) (r : FetchResult) : M unit :=
  match k with
  | KSend loadingId => sendMessage_resume loadingId r
  | KReport _ => ret tt     (* this variant never suspends a report chain *)
  end.

(** The callback of the load handler's timeout. *)
Definition load_check : M unit :=
  log ← reads chatLog;
  match log with
  | Some [] => sendMessage true
  | _ => ret tt
  end.

Definition run_task (t : Task) : M unit :=
  match t with
  | TLoadCheck => load_check
  | TAutoReport => ret tt   (* this variant never schedules it *)
  end.

(** One turn of the event loop.  A listener exists only for an element that
    was on the page when the script ran; an exception that leaves a handler
    is dropped, the world staying as the handler left it. *)
Definition handle (e : Event) (w : World) : World :=
  match e with
  | EvLoad => (setTimeout TLoadCheck 500 w).1
  | EvTimer i =>
      match timers w !! i with
      | Some (_, t) => (run_task t (set_timers (delete i (timers w)) w)).1
      | None => w
      end
  | EvSettle i r =>
      match inflight w !! i with
      | Some (_, k) => (resume k r (set_inflight (delete i (inflight w)) w)).1
      | None => w
      end
  | EvType s =>
      match userMessageInput w with
      | Some _ => set_input (Some s) w
      | None => w
      end
  | EvEnter =>
      match userMessageInput w with
      | Some _ => (sendMessage false w).1
      | None => w
      end
  | EvClick => if sendBtn w then (sendMessage false w).1 else w
  end.

End Recommend.

(** ** Second variant: automatic report request on [needs_report_generation] *)

Module Report.

(** [appendMessage(sender, text, imageSrc = null)].  The [onerror] handler
    of the picture only hides it when it fails to load; load events are left
    out of the model. *)
Definition appendMessage (sender : Sender) (text imageSrc : Value) : M string :=
  count ← reads messageIdCounter;
  let messageId := msg_id count in
  modify (set_counter (js_incr count));;
  let children :=
    match sender with
    | user => set_textContent text
    | bot =>
        (if ToBoolean imageSrc
         then [IImg ["bot-big-img"] (ToString imageSrc) "챗봇 이미지"]
         else []) ++
        [IDiv ["bot-text-container"] (set_textContent text)]
    end%list in
  modify (chatLog_appendChild
            (mkElem messageId ["message"; sender_class sender] None children));;
  ret messageId.

(** [sendMessage(isInitial = false)] up to its first [await]. *)
Definition sendMessage (isInitial : bool) : M unit :=
  message ← (if isInitial then ret (Some "init")
             else
               input ← reads userMessageInput;
               match input with
               | None => throw (TypeError "Cannot read properties of null")
               | Some value =>
                   let message := trim value in
                   if bool_decide (message = "") then ret None
                   else
                     appendMessage user (VStr message) VNull;;
                     modify (set_input (Some ""));;
                     ret (Some message)
               end);
  match message with
  | None => ret tt
  | Some message =>
      loadingId ← appendMessage bot (VStr thinking) VNull;
      name ← reads username;
      fetch (chat_request message name) (KSend loadingId)
  end.

(** The [try] block of [sendMessage] from the point where the fetch has
    settled. *)
Definition sendMessage_try (loadingId : string) (r : FetchResult) : M unit :=
  data ← lift (awaited_json r);
  removeMessage loadingId;;
  reply ← lift (get data "reply");
  image ← lift (get data "image");
  let replyText := js_or reply (VStr "") in
  let imagePath := js_or image VNull in
  lift (substring_check replyText);;
  appendMessage bot replyText imagePath;;
  flag ← lift (get data "needs_report_generation");
  if is_true flag then setTimeout TAutoReport 500 else ret tt.

(** The rest of [sendMessage]: the [try] block and its [catch], which
    writes the error to the console only. *)
Definition sendMessage_resume (loadingId : string) (r : FetchResult) : M unit :=
  try_catch (sendMessage_try loadingId r)
    (fun err =>
       removeMessage loadingId;;
       appendMessage bot (VStr retry_apology) VNull;;
       ret tt).

(** The timeout callback that asks for the report: it shows a loading
    message and posts an empty message. *)
Definition auto_report : M unit :=
  loadingId2 ← appendMessage bot (VStr thinking) VNull;
  name ← reads username;
  fetch (chat_request "" name) (KReport loadingId2).

(** The promise chain of the report request:
    [.then(response => response.json()).then(data => ...).catch(err => ...)];
    the status of the response is not looked at. *)
Definition auto_report_resume (loadingId2 : string) (r : FetchResult) : M unit :=
  try_catch
    (data ← lift (match r with
                  | FetchFailed reason => Threw (Rejection reason)
                  | FetchResponse _ json => json
                  end);
     removeMessage loadingId2;;
     reply ← lift (get data "reply");
     image ← lift (get data "image");
     let replyText := js_or reply (VStr "") in
     let imagePath := js_or image VNull in
     appendMessage bot replyText imagePath;;
     ret tt)
    (fun err =>
       removeMessage loadingId2;;
       appendMessage bot (VStr report_apology) VNull;;
       ret tt).

Definition resume (k : Cont) (r : FetchResult) : M unit :=
  match k with
  | KSend loadingId => sendMessage_resume loadingId r
  | KReport loadingId2 => auto_report_resume loadingId2 r
  end.

(** The callback of the load handler's timeout. *)
Definition load_check : M unit :=
  log ← reads chatLog;
  match log with
  | Some [] => sendMessage true
  | _ => ret tt
  end.

Definition run_task (t : Task) : M unit :=
  match t with
  | TLoadCheck => load_check
  | TAutoReport => auto_report
  end.

(** One turn of the event loop, as in the first variant. *)
Definition handle (e : Event) (w : World) : World :=
  match e with
  | EvLoad => (setTimeout TLoadCheck 500 w).1
  | EvTimer i =>
      match timers w !! i with
      | Some (_, t) => (run_task t (set_timers (delete i (timers w)) w)).1
      | None => w
      end
  | EvSettle i r =>
      match inflight w !! i with
      | Some (_, k) => (resume k r (set_inflight (delete i (inflight w)) w)).1
      | None => w
      end
  | EvType s =>
      match userMessageInput w with
      | Some _ => set_input (Some s) w
      | None => w
      end
  | EvEnter =>
      match userMessageInput w with
      | Some _ => (sendMessage false w).1
      | None => w
      end
  | EvClick => if sendBtn w then (sendMessage false w).1 else w
  end.

End Report.

(** ** Both variants under one name *)

Inductive Client : Type := RecommendClient | ReportClient.

Definition appendMessage_of (c : Client) : Sender -> Value -> Value -> M string :=
  match c with
  | RecommendClient => Recommend.appendMessage
  | ReportClient => Report.appendMessage
  end.

Definition sendMessage_of (c : Client) : bool -> M unit :=
  match c with
  | RecommendClient => Recommend.sendMessage
  | ReportClient => Report.sendMessage
  end.

Definition resume_of (c : Client) : Cont -> FetchResult -> M unit :=
  match c with
  | RecommendClient => Recommend.resume
  | ReportClient => Report.resume
  end.

Definition run_task_of (c : Client) : Task -> M unit :=
  match c with
  | RecommendClient => Recommend.run_task
  | ReportClient => Report.run_task
  end.

Definition handle_of (c : Client) : Event -> World -> World :=
  match c with
  | RecommendClient => Recommend.handle
  | ReportClient => Report.handle
  end.

(** [v.k] where the read cannot throw. *)
Definition prop (v : Value) (k : string) : Value :=
  match get v k with
  | Returned x => x
  | Threw _ => VUndefined
  end.

(** The address the first variant assigns to [window.location.href] for a
    reply [data] that carries a recommendation. *)
Definition recommendation_href (data : Value) : string :=
  let recommendation := prop data "program_recommendation" in
  "/program_recommendation?" ++
  URLSearchParams_toString
    [("image", js_or (js_or (prop recommendation "image") (prop data "image"))
                 (VStr ""));
     ("message", js_or (js_or (prop recommendation "message") (prop data "reply"))
                   (VStr ""));
     ("sentiment", js_or (prop recommendation "sentiment") (VStr "positive"))].

(** A send attempt fails when the fetch rejects or the status is not OK. *)
Definition send_failed (r : FetchResult) : Prop :=
  match r with
  | FetchFailed _ => True
  | FetchResponse status _ => ok status = false
  end.

(** The bot message that carries a plain text and no picture. *)
Definition bot_message (id text : string) : Elem :=
  mkElem id ["message"; "bot"] None
    [IDiv ["bot-text-container"] (set_textContent (VStr text))].

(** The world a call of [removeMessage] or [appendMessage] leaves. *)
Definition removed (id : string) (w : World) : World := (removeMessage id w).1.

Definition appended (c : Client) (sender : Sender) (text imageSrc : Value)
    (w : World) : World :=
  (appendMessage_of c sender text imageSrc w).1.

(** Nothing was scheduled or sent between the two worlds. *)
Definition same_pending (w w' : World) : Prop :=
  timers w' = timers w /\ inflight w' = inflight w.

(** ** Runs of the event loop and the invariant of message ids *)

Definition run_events (handle : Event -> World -> World) (es : list Event)
    (w : World) : World :=
  foldl (fun w e => handle e w) w es.

Definition is_msg_id (s : string) : Prop := exists n, s = msg_id n.

Definition log_of (w : World) : list Elem := default [] (chatLog w).

(** The ids of a list of elements, in order. *)
Definition ids_of (l : list Elem) : list string := el_id <$> l.

(** The page as the server sent it uses no id of the form [msg-N]. *)
Definition page_ok (log : option (list Elem)) (pre post : list Elem) : Prop :=
  forall s, s ∈ ids_of (pre ++ default [] log ++ post) -> ~ is_msg_id s.

(** No message id occurs at two places of a list of ids. *)
Definition unique_msgs (ids : list string) : Prop :=
  forall i j s, ids !! i = Some s -> ids !! j = Some s -> is_msg_id s -> i = j.

(** Outside the log no element has a message id; in the log every message
    id is below the counter and sits on one element only. *)
Record ids_invariant (w : World) : Prop := mkInv {
  inv_outside : forall s, s ∈ ids_of (before w ++ after w) -> ~ is_msg_id s;
  inv_below : forall n, msg_id n ∈ ids_of (log_of w) ->
                (n < messageIdCounter w)%N;
  inv_unique : unique_msgs (ids_of (log_of w))
}.

(** Two worlds whose elements carry the same ids at the same places. *)
Definition same_ids (w w1 : World) : Prop :=
  ids_of (before w1) = ids_of (before w) /\
  ids_of (after w1) = ids_of (after w) /\
  ids_of <$> chatLog w1 = ids_of <$> chatLog w.

(** The worlds a page can be in: the script has run on a page that is
    [page_ok], then events have been handled. *)
Inductive reachable (handle : Event -> World -> World) : World -> Prop :=
| reachable_start chatArea input button log pre post :
    page_ok log pre post ->
    reachable handle (script_start chatArea input button log pre post)
| reachable_step w e :
    reachable handle w -> reachable handle (handle e w).

(** A computation keeps a relation between the world it starts in and the
    world it leaves, whether it returns or throws. *)
Definition keeps {A} (R : World -> World -> Prop) (m : M A) : Prop :=
  forall w, R w (m w).1.

(** From one world to a later one the counter is never lowered and, as long
    as it has not run into 2^53, the invariant of ids is kept. *)
Definition ids_step (w w' : World) : Prop :=
  (messageIdCounter w <= messageIdCounter w')%N /\
  ((messageIdCounter w' < 2 ^ 53)%N -> ids_invariant w -> ids_invariant w').

(** The [username] constant is the same in both worlds. *)
Definition same_name (w w' : World) : Prop := username w' = username w.

(** Both worlds have the same elements, counter and [username]: what
    editing the input, navigating, fetching and setting a timeout leave
    alone. *)
Definition same_page (w w' : World) : Prop :=
  before w' = before w /\ after w' = after w /\ chatLog w' = chatLog w /\
  messageIdCounter w' = messageIdCounter w /\ username w' = username w.

(** The id of the loading message a continuation will take off. *)
Definition cont_id (k : Cont) : string :=
  match k with KSend id | KReport id => id end.

Definition pending_ids (w : World) : list string :=
  (fun rk => cont_id rk.2) <$> inflight w.

(** Every request under way has its own loading message: the ids the
    continuations hold are message ids below the counter, pairwise distinct,
    and, on a page with a chat log, each is the id of a child of the log. *)
Record pending_invariant (w : World) : Prop := mkPending {
  pend_below : forall s, s ∈ pending_ids w ->
                 exists n, s = msg_id n /\ (n < messageIdCounter w)%N;
  pend_nodup : NoDup (pending_ids w);
  pend_in_log : chatLog w <> None ->
                forall s, s ∈ pending_ids w -> s ∈ ids_of (log_of w)
}.

(** What the continuation that holds [id] does to the world: it sends
    nothing, never lowers the counter, and takes no element with another id
    off the log. *)
Definition resume_step (id : string) (w w' : World) : Prop :=
  inflight w' = inflight w /\
  (messageIdCounter w <= messageIdCounter w')%N /\
  (chatLog w' = None <-> chatLog w = None) /\
  forall s, s <> id -> s ∈ ids_of (log_of w) -> s ∈ ids_of (log_of w').

(** One change of the world by the script: a call of [appendMessage] (of
    either variant) or of [removeMessage], or a change that leaves the
    elements, the counter and [username] alone (the input, the address, the
    requests, the timeouts). *)
Inductive script_step : World -> World -> Prop :=
| step_append c w sender text imageSrc :
    script_step w (appended c sender text imageSrc w)
| step_remove w id :
    script_step w (removed id w)
| step_page w w' :
    same_page w w' -> script_step w w'.

(** The worlds a page passes through, between events and inside handlers. *)
Definition visited (w : World) : Prop :=
  exists chatArea input button log pre post,
    page_ok log pre post /\
    rtc script_step (script_start chatArea input button log pre post) w.

(** The text nodes below a node, in document order. *)
Fixpoint text_nodes (n : Inner) : list string :=
  match n with
  | IText d => [d]
  | IImg _ _ _ => []
  | IDiv _ children => List.concat (List.map text_nodes children)
  end.

(** ** The scoring contracts *)

(** The five dimensions that are scored, each from 0 to 100. *)
Inductive Dimension : Type :=
| Attachment | Regret | Unresolved | Comparison | Avoidance.

Definition dimensions : list Dimension :=
  [Attachment; Regret; Unresolved; Comparison; Avoidance].

(** Modelled from the spec: the fixed weights of the composite index, which
    [services/chatbot_service.py] (not among the sources) applies; the
    implementation guide gives them as 30%, 25%, 20%, 15% and 10%. *)
Definition weight (d : Dimension) : Q :=
  match d with
  | Attachment => 0.30
  | Regret => 0.25
  | Unresolved => 0.20
  | Comparison => 0.15
  | Avoidance => 0.10
  end%Q.

Definition DimensionScores : Type := Dimension -> Q.

(** Modelled from the spec: the composite index, the weighted sum of the
    five scores that [services/chatbot_service.py] (not among the sources)
    returns as the [total] of [_calculate_regret_index].  Scores are
    rationals here. *)
Definition composite_index (s : DimensionScores) : Q :=
  fold_right (fun d acc => (weight d * s d + acc)%Q) 0%Q dimensions.

(** The five tiers of the guide's table. *)
Inductive Tier : Type :=
| FullyResolved        (* 0-20:   완전 정리 단계 *)
| GentleAfterglow      (* 21-40:  잔잔한 여운 단계 *)
| ModerateAttachment   (* 41-60:  적당한 미련 단계 *)
| StrongAttachment     (* 61-80:  강한 미련 단계 *)
| VeryStrongAttachment. (* 81-100: 매우 강한 미련 단계 *)

(** Modelled from the spec: the tier lookup of
    [services/chatbot_service.py] (not among the sources).  The guide quotes
    its first two branches, [if total <= 20] and [elif total <= 40], and
    tabulates the five bands; the remaining branches follow the table and
    the spec's ascending lookup with inclusive upper bounds. *)
Definition tier (total : Q) : Tier :=
  if Qle_bool total 20 then FullyResolved
  else if Qle_bool total 40 then GentleAfterglow
  else if Qle_bool total 60 then ModerateAttachment
  else if Qle_bool total 80 then StrongAttachment
  else VeryStrongAttachment.

(** The label and the marker of a tier, from the guide's table. *)
Definition level (t : Tier) : string :=
  match t with
  | FullyResolved => "완전 정리 단계"
  | GentleAfterglow => "잔잔한 여운 단계"
  | ModerateAttachment => "적당한 미련 단계"
  | StrongAttachment => "강한 미련 단계"
  | VeryStrongAttachment => "매우 강한 미련 단계"
  end.

Definition emoji (t : Tier) : string :=
  match t with
  | FullyResolved => "💚"
  | GentleAfterglow => "💛"
  | ModerateAttachment => "🧡"
  | StrongAttachment => "❤️"
  | VeryStrongAttachment => "💔"
  end.

(** The bands as the guide's table prints them, in whole percents. *)
Definition band (t : Tier) : Z * Z :=
  match t with
  | FullyResolved => (0, 20)
  | GentleAfterglow => (21, 40)
  | ModerateAttachment => (41, 60)
  | StrongAttachment => (61, 80)
  | VeryStrongAttachment => (81, 100)
  end%Z.

Definition in_band (n : Z) (t : Tier) : Prop :=
  ((band t).1 <= n <= (band t).2)%Z.

(** The bands as the lookup cuts the rationals: above the previous upper
    bound, up to and including the band's own. *)
Definition in_cut (total : Q) (t : Tier) : Prop :=
  match t with
  | FullyResolved => 0 <= total <= 20
  | GentleAfterglow => 20 < total <= 40
  | ModerateAttachment => 40 < total <= 60
  | StrongAttachment => 60 < total <= 80
  | VeryStrongAttachment => 80 < total <= 100
  end%Q.

(** ** Retrieval: the [_search_similar] that the guide quotes *)

Module Py.

(** The Python values the fragment handles: numbers (rationals here),
    strings, lists and dicts (in insertion order, keys being strings). *)
Inductive Value : Type :=
| PyNone
| PyFloat (q : Q)
| PyStr (s : string)
| PyList (items : list Value)
| PyDict (items : list (string * Value)).

Inductive Exn : Type :=
| NameError (name : string)
| TypeError (message : string)
| KeyError (key : string).

Inductive Result (A : Type) : Type :=
| Ok (a : A)
| Raised (e : Exn).
Arguments Ok {A} a.
Arguments Raised {A} e.

(** The characters of a string, for its iteration: a character starts at
    every byte that is not a continuation byte of UTF-8. *)
Definition starts_char (a : Ascii.ascii) : bool :=
  negb ((128 <=? Ascii.N_of_ascii a)%N && (Ascii.N_of_ascii a <? 192)%N).

Fixpoint chars (s : string) : list string :=
  match s with
  | EmptyString => []
  | String a rest =>
      match chars rest with
      | c :: cs =>
          match rest with
          | String b _ => if starts_char b then String a "" :: c :: cs else String a c :: cs
          | EmptyString => String a "" :: c :: cs
          end
      | [] => [String a ""]
      end
  end.

(** [for r in v]: a list gives its items, a dict its keys, a string its
    characters; nothing else is iterable. *)
Definition iter (v : Value) : Result (list Value) :=
  match v with
  | PyList items => Ok items
  | PyDict items => Ok (List.map (fun kv => PyStr kv.1) items)
  | PyStr s => Ok (List.map PyStr (chars s))
  | PyNone => Raised (TypeError "'NoneType' object is not iterable")
  | PyFloat _ => Raised (TypeError "'float' object is not iterable")
  end.

(** [r[key]] for a string [key]. *)
Definition getitem (r : Value) (key : string) : Result Value :=
  match r with
  | PyDict items =>
      match List.find (fun kv => bool_decide (kv.1 = key)) items with
      | Some kv => Ok kv.2
      | None => Raised (KeyError key)
      end
  | PyStr _ => Raised (TypeError "string indices must be integers")
  | PyList _ => Raised (TypeError "list indices must be integers or slices, not str")
  | PyNone => Raised (TypeError "'NoneType' object is not subscriptable")
  | PyFloat _ => Raised (TypeError "'float' object is not subscriptable")
  end.

(** [d < threshold], the threshold being a number. *)
Definition lt (d : Value) (threshold : Q) : Result bool :=
  match d with
  | PyFloat q => Ok (negb (Qle_bool threshold q))
  | _ => Raised (TypeError "'<' not supported between these instances")
  end.

(** [[r for r in results if r['distance'] < threshold]], the items being
    visited in order. *)
Fixpoint comprehension (threshold : Q) (items : list Value) : Result (list Value) :=
  match items with
  | [] => Ok []
  | r :: rest =>
      match getitem r "distance" with
      | Raised e => Raised e
      | Ok d =>
          match lt d threshold with
          | Raised e => Raised e
          | Ok keep =>
              match comprehension threshold rest with
              | Raised e => Raised e
              | Ok kept => Ok (if keep then r :: kept else kept)
              end
          end
      end
  end.

Definition default_threshold : Q := 7 # 10.

(** The fragment (lines 270-278 of the guide), read with the indentation
    that the markdown has lost and without the backslash it puts before the
    underscore.  [collection_query query_embeddings n_results] stands for
    [self.collection.query], the index not being among the sources.
    [embedding] is a name the fragment never binds: it is the global of
    that name, if there is one.  [query] is not used, there is no [top_k],
    and the number of results asked for is always 5. *)
Definition _search_similar (collection_query : Value -> nat -> Result Value)
    (embedding : option Value) (query : string) (threshold : Q)
    : Result (list Value) :=
  match embedding with
  | None => Raised (NameError "name 'embedding' is not defined")
  | Some query_embeddings =>
      match collection_query query_embeddings 5 with
      | Raised e => Raised e
      | Ok results =>
          match iter results with
          | Raised e => Raised e
          | Ok items => comprehension threshold items
          end
      end
  end.

(** A passage with its distance from the query, as a record. *)
Definition passage (document : string) (distance : Q) : Value :=
  PyDict [("document", PyStr document); ("distance", PyFloat distance)].

End Py.

(** ** The document as a whole, the panel and the message elements *)

(** The elements of the document that may carry an id, in tree order. *)
Definition all_elems (w : World) : list Elem :=
  (before w ++ log_of w ++ after w)%list.

(** The element at a place. *)
Definition elem_at (l : Loc) (w : World) : option Elem :=
  match l with
  | InBefore i => before w !! i
  | InLog i => log_of w !! i
  | InAfter i => after w !! i
  end.


(** The two updates [updateCharacterImage] makes: the picture of the panel
    gets the address and the class [show], the name gets the class. *)
Definition show_picture (imageSrc : Value) (e : Elem) : Elem :=
  mkElem (el_id e) (classList_add "show" (el_classes e))
    (Some (ToString imageSrc)) (el_children e).
Definition show_name (e : Elem) : Elem :=
  mkElem (el_id e) (classList_add "show" (el_classes e)) (el_src e) (el_children e).

(** The message element of the user: its text and nothing else. *)
Definition user_message (id text : string) : Elem :=
  mkElem id ["message"; "user"] None (set_textContent (VStr text)).

(** The message element that [appendMessage] builds, in either variant:
    the second variant puts the picture into the message, the first one
    shows it in the panel. *)
Definition message_elem (c : Client) (id : string) (sender : Sender)
    (text imageSrc : Value) : Elem :=
  mkElem id ["message"; sender_class sender] None
    match sender with
    | user => set_textContent text
    | bot =>
        (match c with
         | RecommendClient => []
         | ReportClient =>
             if ToBoolean imageSrc
             then [IImg ["bot-big-img"] (ToString imageSrc) "챗봇 이미지"]
             else []
         end ++ [IDiv ["bot-text-container"] (set_textContent text)])%list
    end.

(** Does this call of [appendMessage] reach [updateCharacterImage]? *)
Definition shows_in_panel (c : Client) (sender : Sender) (imageSrc : Value) : bool :=
  match c, sender with
  | RecommendClient, bot => ToBoolean imageSrc
  | _, _ => false
  end.

(** Does the reply make this variant ask for the report? *)
Definition follow_up (c : Client) (data : Value) : bool :=
  match c with
  | RecommendClient => false
  | ReportClient => is_true (prop data "needs_report_generation")
  end.

(** ** The document as a tree *)

Module Dom.

(** An element with the elements inside it, in document order. *)
Inductive Tree : Type :=
| Node (e : Elem) (inside : list Tree).

Definition inside (t : Tree) : list Tree := match t with Node _ ts => ts end.

(** The elements of a tree in tree order: an element comes before what is
    inside it. *)
Fixpoint flatten (t : Tree) : list Elem :=
  match t with
  | Node e ts => e :: List.concat (List.map flatten ts)
  end.

Definition flatten_all (ts : list Tree) : list Elem :=
  List.concat (List.map flatten ts).

(** [document.getElementById(id)] followed by [elem.remove()], in one
    traversal of a tree: [None] when no element of the tree carries the id;
    otherwise what is left of the tree once the first carrier in tree order
    is detached, with all that is inside it. *)
Fixpoint detach (id : string) (t : Tree) : option (list Tree) :=
  match t with
  | Node e ts =>
      if bool_decide (el_id e = id) then Some []
      else
        (fun kept => [Node e kept]) <$>
        (fix first (ts : list Tree) : option (list Tree) :=
           match ts with
           | [] => None
           | t1 :: rest =>
               match detach id t1 with
               | Some kept => Some (kept ++ rest)%list
               | None => cons t1 <$> first rest
               end
           end) ts
  end.

(** The same for the trees of a document. *)
Fixpoint detach_first (id : string) (ts : list Tree) : option (list Tree) :=
  match ts with
  | [] => None
  | t1 :: rest =>
      match detach id t1 with
      | Some kept => Some (kept ++ rest)%list
      | None => cons t1 <$> detach_first id rest
      end
  end.

(** [removeMessage(messageId)] on the document: no element is found under
    the empty id. *)
Definition removeMessage (messageId : string) (document : list Tree) : list Tree :=
  if bool_decide (messageId = "") then document
  else default document (detach_first messageId document).

End Dom.


(** ** Replies that cannot be rendered *)

(** An OK response that the [try] block of [sendMessage] cannot render:
    [response.json()] rejects, the body is [null], or its [reply] is truthy
    and not a string (and, in the first variant, there is no recommendation
    to redirect to). *)
Definition unreadable (c : Client) (json : Outcome Value) : Prop :=
  match json with
  | Threw _ => True
  | Returned VNull | Returned VUndefined => True
  | Returned data =>
      (c = RecommendClient -> ToBoolean (prop data "program_recommendation") = false) /\
      substring_check (js_or (prop data "reply") (VStr "")) <> Returned tt
  end.

(** The report request brought no data: the fetch was rejected,
    [response.json()] was, or the body is [null]. *)
Definition report_failed (r : FetchResult) : Prop :=
  match r with
  | FetchFailed _ => True
  | FetchResponse _ (Threw _) => True
  | FetchResponse _ (Returned VNull) | FetchResponse _ (Returned VUndefined) => True
  | FetchResponse _ (Returned _) => False
  end.

(** The apology a continuation shows when its request has failed: the rest
    of [sendMessage] asks to try again, the chain of the report request
    does not. *)
Definition apology_of (k : Cont) : string :=
  match k with
  | KSend _ => retry_apology
  | KReport _ => report_apology
  end.

(** The failures that lead to the apology: for a send, a rejected fetch or
    a status that is not OK; for the report request, whose chain does not
    look at the status, a rejected fetch or a body that is no JSON or is
    [null]. *)
Definition attempt_failed (k : Cont) (r : FetchResult) : Prop :=
  match k with
  | KSend _ => send_failed r
  | KReport _ => report_failed r
  end.

(** ** What the script sends, schedules and navigates to *)

(** Both worlds have a chat log, or neither has. *)
Definition same_log_presence (w w' : World) : Prop :=
  chatLog w' = None <-> chatLog w = None.

(** An address of the recommendation page with its three parameters. *)
Definition recommendation_address (h : string) : Prop :=
  exists image message sentiment : Value,
    h = "/program_recommendation?" ++
        URLSearchParams_toString
          [("image", image); ("message", message); ("sentiment", sentiment)].

(** What the rest of a send, or of a report request, may do to the traffic
    of variant [c]: it sends nothing, it sets at most timeouts for the
    report request (second variant), it navigates at most to the
    recommendation page (first variant). *)
Definition resume_traffic (c : Client) (w w' : World) : Prop :=
  inflight w' = inflight w /\ username w' = username w /\
  (forall t, t ∈ timers w' ->
     t ∈ timers w \/ (c = ReportClient /\ t = (500%N, TAutoReport))) /\
  (location_href w' = location_href w \/
   c = RecommendClient /\
   exists h, location_href w' = Some h /\ recommendation_address h).

(** The requests variant [c] sends for the user called [name]: a send
    posts ["init"] or a trimmed, non-empty input; the report request, which
    only the second variant makes, posts the empty message. *)
Definition request_ok (c : Client) (name : Value) (rk : Request * Cont) : Prop :=
  match rk.2 with
  | KSend _ =>
      exists message, rk.1 = chat_request message name /\ message <> "" /\
        (message = "init" \/ exists value, message = trim value)
  | KReport _ => c = ReportClient /\ rk.1 = chat_request "" name
  end.

(** The timeouts variant [c] sets: all of 500 ms; the first variant sets
    them for the load check only. *)
Definition timer_ok (c : Client) (t : N * Task) : Prop :=
  t.1 = 500%N /\ (c = RecommendClient -> t.2 = TLoadCheck).

(** The addresses variant [c] assigns to [window.location.href]: none in
    the second variant, that of the recommendation page in the first. *)
Definition location_ok (c : Client) (h : option string) : Prop :=
  match h with
  | None => True
  | Some a => c = RecommendClient /\ recommendation_address a
  end.

(** What holds of the requests under way, of the pending timeouts and of
    the address on every page the script can reach. *)
Record traffic_invariant (c : Client) (w : World) : Prop := mkTraffic {
  traffic_requests : Forall (request_ok c (username w)) (inflight w);
  traffic_timers : Forall (timer_ok c) (timers w);
  traffic_location : location_ok c (location_href w)
}.

(** The bytes the form-urlencoded serialiser puts out: ASCII letters and
    digits, [*-._], [+] and [%]. *)
Definition url_safe (b : N) : bool :=
  ((48 <=? b) && (b <=? 57) || (65 <=? b) && (b <=? 90)
   || (97 <=? b) && (b <=? 122)
   || (b =? 42) || (b =? 45) || (b =? 46) || (b =? 95)
   || (b =? 43) || (b =? 37))%N.

(** ** Loading messages *)

(** Every request under way shows its loading message: on a page with a
    chat log, the log holds the bot message with the text of [thinking]
    under the id that the continuation holds. *)
Definition loading_shown (w : World) : Prop :=
  chatLog w <> None ->
  forall s, s ∈ pending_ids w -> bot_message s thinking ∈ log_of w.

(** From [w] to [w'] no message element leaves the log or is changed,
    except the one that carries [id]. *)
Definition msgs_stay (id : string) (w w' : World) : Prop :=
  (chatLog w' = None <-> chatLog w = None) /\
  forall e, is_msg_id (el_id e) -> el_id e <> id -> e ∈ log_of w -> e ∈ log_of w'.

(** ** The order of the messages *)

(** The message ids of a list of ids come in the order in which the counter
    handed them out. *)
Definition ordered_msgs (ids : list string) : Prop :=
  forall i j n m, i < j ->
    ids !! i = Some (msg_id n) -> ids !! j = Some (msg_id m) -> (n < m)%N.

(** The message ids of the log are below the counter and in order. *)
Definition ordered_invariant (w : World) : Prop :=
  (forall n, msg_id n ∈ ids_of (log_of w) -> (n < messageIdCounter w)%N) /\
  ordered_msgs (ids_of (log_of w)).

(** From one world to a later one the counter is never lowered and, as long
    as it has not run into 2^53, the order of the log is kept. *)
Definition order_step (w w' : World) : Prop :=
  (messageIdCounter w <= messageIdCounter w')%N /\
  ((messageIdCounter w' < 2 ^ 53)%N -> ordered_invariant w -> ordered_invariant w').

(** ** The modal dialogs *)

(** The dialogs only set [style.display], which the world above does not
    record; they are modelled on their own, over what they read of the
    document. *)

Module Modal.

(** What the modal code looks at: for each element of the document, in tree
    order, its id, its classes, its [data-close-modal] attribute and its
    inline [style.display]. *)
Record Node : Type := mkNode {
  node_id : string;
  node_classes : list string;
  node_closeModal : option string;
  node_display : string
}.

Definition set_display (d : string) (n : Node) : Node :=
  mkNode (node_id n) (node_classes n) (node_closeModal n) d.

(** [document.getElementById(id)]: the place of the first element in tree
    order. *)
Definition getElementById (id : string) (p : list Node) : option nat :=
  if bool_decide (id = "") then None
  else fst <$> list_find (fun n => node_id n = id) p.

(** [openModal(modalId)] and [closeModal(modalId)]; the argument is
    converted to a string by [getElementById]. *)
Definition openModal (modalId : Value) (p : list Node) : list Node :=
  match getElementById (ToString modalId) p with
  | Some modal => alter (set_display "block") modal p
  | None => p
  end.

Definition closeModal (modalId : Value) (p : list Node) : list Node :=
  match getElementById (ToString modalId) p with
  | Some modal => alter (set_display "none") modal p
  | None => p
  end.

(** [btn.dataset.closeModal]. *)
Definition dataset_closeModal (n : Node) : Value :=
  match node_closeModal n with
  | Some s => VStr s
  | None => VUndefined
  end.

(** The click listeners the script has put on the element at place [i] of
    the page [p0] it ran on, in the order of registration; [target] is the
    place of the element that was clicked. *)
Definition listeners (p0 : list Node) (i target : nat)
  : list (list Node -> list Node) :=
  match p0 !! i with
  | None => []
  | Some n0 =>
      (if bool_decide (getElementById "videoBtn" p0 = Some i)
       then [openModal (VStr "videoModal")] else []) ++
      (if bool_decide (getElementById "imageBtn" p0 = Some i)
       then [openModal (VStr "imageModal")] else []) ++
      (if bool_decide ("modal-close" ∈ node_classes n0)
       then [fun p => match p !! i with
                      | Some btn => closeModal (dataset_closeModal btn) p
                      | None => p
                      end]
       else []) ++
      (if bool_decide ("modal" ∈ node_classes n0)
       then [fun p => if bool_decide (target = i)
                      then alter (set_display "none") i p else p]
       else [])
  end%list.

(** A click on the element at place [target], whose ancestors are at the
    places [ancestors], innermost first: the event reaches the target, then
    bubbles. *)
Definition click (p0 : list Node) (target : nat) (ancestors : list nat)
    (p : list Node) : list Node :=
  foldl (fun p f => f p) p
    (List.concat (List.map (fun i => listeners p0 i target) (target :: ancestors))).

(** What no modal code changes of an element. *)
Definition frame (n : Node) : string * list string * option string :=
  (node_id n, node_classes n, node_closeModal n).

(** The element at place [i] of the page the script ran on is one of the
    two media buttons, or has the class [c]. *)
Definition media_button (p0 : list Node) (i : nat) : Prop :=
  getElementById "videoBtn" p0 = Some i \/ getElementById "imageBtn" p0 = Some i.

Definition has_class (c : string) (p0 : list Node) (i : nat) : Prop :=
  exists n0, p0 !! i = Some n0 /\ c ∈ node_classes n0.

End Modal.

(** A page for examples: the video button, its dialog with a content box
    and a close button inside. *)
Definition dialog_page : list Modal.Node :=
  [Modal.mkNode "videoBtn" [] None "";
   Modal.mkNode "videoModal" ["modal"] None "block";
   Modal.mkNode "" ["modal-content"] None "";
   Modal.mkNode "" ["modal-close"] (Some "videoModal") ""].

(** ** The order of the tiers *)

(** The place of a tier in the guide's table. *)
Definition tier_rank (t : Tier) : nat :=
  match t with
  | FullyResolved => 0
  | GentleAfterglow => 1
  | ModerateAttachment => 2
  | StrongAttachment => 3
  | VeryStrongAttachment => 4
  end.

(** * Properties *)

(** ** The definitions at work *)

Example trim_example : trim "  　안녕 하세요 " = "안녕 하세요".
Proof. reflexivity. Qed.

Example trim_blank : trim "  　 " = "".
Proof. reflexivity. Qed.

Example ToString_array :
  ToString (VArr [VNum "1"; VNull; VArr [VStr "a"; VBool true]]) = "1,,a,true".
Proof. reflexivity. Qed.

Example URLSearchParams_example :
  URLSearchParams_toString [("message", VStr "a b&c"); ("sentiment", VStr "긍정")]
  = "message=a+b%26c&sentiment=%EA%B8%8D%EC%A0%95".
Proof. reflexivity. Qed.

Example falsy_values :
  List.map ToBoolean [VUndefined; VNull; VBool false; VNum "0"; VStr ""; VStr "0";
                      VArr []; VObj ∅]
  = [false; false; false; false; false; true; true; true].
Proof. reflexivity. Qed.

Example msg_id_example : msg_id 12 = "msg-12".
Proof. reflexivity. Qed.

Example tier_example :
  List.map tier [0; 20; 20.5; 21; 40; 65.5; 80; 80.1; 100]%Q
  = [FullyResolved; FullyResolved; GentleAfterglow; GentleAfterglow;
     GentleAfterglow; StrongAttachment; StrongAttachment;
     VeryStrongAttachment; VeryStrongAttachment].
Proof. reflexivity. Qed.

Example chars_example : Py.chars "a가b" = ["a"; "가"; "b"].
Proof. vm_compute. reflexivity. Qed.

Example search_similar_example :
  Py._search_similar
    (fun _ _ => Py.Ok (Py.PyList [Py.passage "p1" 0.2%Q; Py.passage "p2" 0.9%Q]))
    (Some (Py.PyList [Py.PyFloat 0%Q])) "이별" Py.default_threshold
  = Py.Ok [Py.passage "p1" 0.2%Q].
Proof. reflexivity. Qed.

Example search_similar_empty_example :
  Py._search_similar (fun _ _ => Py.Ok (Py.PyList []))
    (Some (Py.PyList [Py.PyFloat 0%Q])) "이별" Py.default_threshold
  = Py.Ok [].
Proof. reflexivity. Qed.

Example removeMessage_subtree_example :
  let panel := mkElem "panel" [] None [] in
  let picture := mkElem "character-image" [] (Some "a.png") [] in
  let m := bot_message "msg-0" "hi" in
  Dom.flatten_all
    (Dom.removeMessage "panel" [Dom.Node panel [Dom.Node picture []]; Dom.Node m []])
  = [m] /\
  Dom.flatten_all
    (Dom.removeMessage "msg-0" [Dom.Node panel [Dom.Node picture []]; Dom.Node m []])
  = [panel; picture].
Proof. split; reflexivity. Qed.

(** ** Ids, lists of ids and the counter *)

Lemma msg_id_inj n m : msg_id n = msg_id m -> n = m.
Proof.
  unfold msg_id. intros H. simpl in H. simplify_eq. by apply (inj pretty).
Qed.

Lemma js_incr_le c : (c <= js_incr c)%N.
Proof. unfold js_incr. case_match; lia. Qed.

Lemma js_incr_below c : (js_incr c < 2 ^ 53)%N -> js_incr c = (c + 1)%N.
Proof.
  unfold js_incr. destruct (c <? 2 ^ 53)%N eqn:E; [done|].
  apply N.ltb_ge in E. lia.
Qed.

Lemma unique_msgs_delete k ids : unique_msgs ids -> unique_msgs (delete k ids).
Proof.
  intros U i j s Hi Hj Hs.
  destruct (decide (i < k)) as [Hik|Hik], (decide (j < k)) as [Hjk|Hjk].
  - rewrite list_lookup_delete_lt in Hi by done. rewrite list_lookup_delete_lt in Hj by done. eauto.
  - rewrite list_lookup_delete_lt in Hi by done. rewrite list_lookup_delete_ge in Hj by lia.
    specialize (U _ _ _ Hi Hj Hs). lia.
  - rewrite list_lookup_delete_ge in Hi by lia. rewrite list_lookup_delete_lt in Hj by done.
    specialize (U _ _ _ Hi Hj Hs). lia.
  - rewrite list_lookup_delete_ge in Hi by lia. rewrite list_lookup_delete_ge in Hj by lia.
    specialize (U _ _ _ Hi Hj Hs). lia.
Qed.

Lemma unique_msgs_snoc ids s : unique_msgs ids -> s ∉ ids -> unique_msgs (ids ++ [s]).
Proof.
  intros U Hs i j t Hi Hj Ht.
  apply lookup_snoc_Some in Hi as [[Hi1 Hi2]|[Hi1 Hi2]], Hj as [[Hj1 Hj2]|[Hj1 Hj2]].
  - eauto.
  - subst. exfalso. apply Hs. eapply list_elem_of_lookup_2; eauto.
  - subst. exfalso. apply Hs. eapply list_elem_of_lookup_2; eauto.
  - lia.
Qed.

Lemma ids_invariant_ext w w' :
  before w' = before w -> after w' = after w -> chatLog w' = chatLog w ->
  messageIdCounter w' = messageIdCounter w ->
  ids_invariant w -> ids_invariant w'.
Proof.
  intros Hb Ha Hl Hc [I1 I2 I3].
  split; unfold log_of in *; rewrite ?Hb, ?Ha, ?Hl, ?Hc; done.
Qed.

Lemma ids_of_delete i l : ids_of (delete i l) = delete i (ids_of l).
Proof. apply list_fmap_delete. Qed.

Lemma ids_of_alter f i l :
  (forall e, el_id (f e) = el_id e) -> ids_of (alter f i l) = ids_of l.
Proof.
  intros Hf. unfold ids_of.
  rewrite (list_fmap_alter el_id f id); [by apply list_alter_id|].
  apply Forall_forall. intros. apply Hf.
Qed.

Lemma remove_at_invariant l w : ids_invariant w -> ids_invariant (remove_at l w).
Proof.
  intros [I1 I2 I3]. destruct l as [i|i|i]; split; simpl; unfold log_of in *; simpl.
  - intros s Hs. apply I1. unfold ids_of in *. rewrite fmap_app in *.
    apply elem_of_app in Hs as [Hs|Hs]; apply elem_of_app; [left|by right].
    rewrite list_fmap_delete in Hs. by eapply list_elem_of_delete_inv.
  - done.
  - done.
  - done.
  - intros n Hn. apply I2. destruct (chatLog w); simpl in *; [|done].
    rewrite ids_of_delete in Hn. by eapply list_elem_of_delete_inv.
  - destruct (chatLog w); simpl in *; [|done].
    rewrite ids_of_delete. by apply unique_msgs_delete.
  - intros s Hs. apply I1. unfold ids_of in *. rewrite fmap_app in *.
    apply elem_of_app in Hs as [Hs|Hs]; apply elem_of_app; [by left|right].
    rewrite list_fmap_delete in Hs. by eapply list_elem_of_delete_inv.
  - done.
  - done.
Qed.

Lemma remove_at_counter l w : messageIdCounter (remove_at l w) = messageIdCounter w.
Proof. by destruct l. Qed.

Lemma alter_at_invariant f l w :
  (forall e, el_id (f e) = el_id e) ->
  ids_invariant w -> ids_invariant (alter_at f l w).
Proof.
  intros Hf [I1 I2 I3]. destruct l as [i|i|i]; split; simpl; unfold log_of in *; simpl;
    try done.
  - unfold ids_of in *. rewrite fmap_app in *. fold (ids_of (alter f i (before w))).
    by rewrite ids_of_alter.
  - destruct (chatLog w); simpl in *; [|done]. by rewrite ids_of_alter.
  - destruct (chatLog w); simpl in *; [|done]. by rewrite ids_of_alter.
  - unfold ids_of in *. rewrite fmap_app in *. fold (ids_of (alter f i (after w))).
    by rewrite ids_of_alter.
Qed.

Lemma alter_at_counter f l w : messageIdCounter (alter_at f l w) = messageIdCounter w.
Proof. by destruct l. Qed.

Lemma same_ids_refl w : same_ids w w.
Proof. done. Qed.

Lemma same_ids_trans w1 w2 w3 : same_ids w1 w2 -> same_ids w2 w3 -> same_ids w1 w3.
Proof. intros (?&?&?) (?&?&?). repeat split; congruence. Qed.

Lemma same_ids_alter_at f l w :
  (forall e, el_id (f e) = el_id e) -> same_ids w (alter_at f l w).
Proof.
  intros Hf. destruct l as [i|i|i]; repeat split; simpl; try done.
  - by apply ids_of_alter.
  - destruct (chatLog w); simpl; [|done]. f_equal. by apply ids_of_alter.
  - by apply ids_of_alter.
Qed.

Lemma same_ids_log w w1 : same_ids w w1 -> ids_of (log_of w1) = ids_of (log_of w).
Proof.
  intros (_&_&H). unfold log_of. destruct (chatLog w1), (chatLog w); simpl in *; congruence.
Qed.

Lemma msg_id_fresh w : ids_invariant w -> msg_id (messageIdCounter w) ∉ ids_of (log_of w).
Proof. intros [_ I2 _] Hin. apply I2 in Hin. lia. Qed.

Lemma append_invariant w w1 cls src ch :
  ids_invariant w -> same_ids w w1 ->
  (messageIdCounter w < 2 ^ 53)%N ->
  messageIdCounter w1 = (messageIdCounter w + 1)%N ->
  ids_invariant
    (chatLog_appendChild (mkElem (msg_id (messageIdCounter w)) cls src ch) w1).
Proof.
  intros Hw Hs Hlt Hc. pose proof (msg_id_fresh _ Hw) as Hfresh.
  pose proof (same_ids_log _ _ Hs) as Hlog.
  destruct Hw as [I1 I2 I3]. destruct Hs as (Hb & Ha & Hl).
  split; simpl.
  - unfold ids_of in *. rewrite fmap_app in *. rewrite Hb, Ha. done.
  - rewrite Hc. intros n Hn. unfold log_of in *. simpl in *.
    destruct (chatLog w1) as [l1|]; simpl in *.
    + unfold ids_of in Hn. rewrite fmap_app in Hn. apply elem_of_app in Hn as [Hn|Hn].
      * fold (ids_of l1) in Hn. rewrite Hlog in Hn. apply I2 in Hn. lia.
      * simpl in Hn. apply list_elem_of_singleton in Hn. apply msg_id_inj in Hn. lia.
    + by apply elem_of_nil in Hn.
  - unfold log_of in *. simpl in *.
    destruct (chatLog w1) as [l1|]; simpl in *.
    + unfold ids_of. rewrite fmap_app. simpl. fold (ids_of l1). rewrite Hlog.
      apply unique_msgs_snoc; done.
    + intros i j s Hi. by rewrite lookup_nil in Hi.
Qed.

Lemma script_start_invariant chatArea input button log pre post :
  page_ok log pre post ->
  ids_invariant (script_start chatArea input button log pre post).
Proof.
  intros Hp. split; simpl.
  - intros s Hs. apply Hp. unfold ids_of in *. rewrite !fmap_app in *.
    apply elem_of_app in Hs as [Hs|Hs]; apply elem_of_app; [by left|].
    right. apply elem_of_app. by right.
  - intros n Hn. exfalso. apply (Hp (msg_id n)); [|by exists n].
    unfold ids_of, log_of in *. simpl in *. rewrite !fmap_app.
    apply elem_of_app. right. apply elem_of_app. by left.
  - intros i j s Hi Hj Hs. exfalso. apply (Hp s); [|done].
    unfold ids_of, log_of in *. simpl in *. rewrite !fmap_app.
    apply elem_of_app. right. apply elem_of_app. left.
    eapply list_elem_of_lookup_2; eauto.
Qed.

Lemma find_id_Some id l i :
  find_id id l = Some i ->
  exists e, l !! i = Some e /\ el_id e = id /\
            forall j e', l !! j = Some e' -> j < i -> el_id e' <> id.
Proof.
  unfold find_id. intros H. apply fmap_Some in H as ([i' e] & Hf & ->).
  apply list_find_Some in Hf as (Hl & He & Hb). simpl. eauto.
Qed.

Lemma find_id_None id l : find_id id l = None -> id ∉ ids_of l.
Proof.
  unfold find_id. intros H. apply fmap_None in H.
  rewrite list_find_None in H. intros Hin.
  apply list_elem_of_fmap in Hin as (e & -> & He).
  rewrite Forall_forall in H. by apply (H e).
Qed.

Lemma msg_id_nonempty n : msg_id n <> "".
Proof. done. Qed.

(** ** Running handlers *)

(** Running the monad's operations on a world. *)
Lemma run_bind {A B} (m : M A) (k : A -> M B) w :
  (m ≫= k) w = match m w with
               | (w', Returned a) => k a w'
               | (w', Threw e) => (w', Threw e)
               end.
Proof. reflexivity. Qed.

Lemma run_try_catch {A} (m : M A) (h : Exn -> M A) w :
  try_catch m h w = match m w with
                    | (w', Returned a) => (w', Returned a)
                    | (w', Threw e) => h e w'
                    end.
Proof. reflexivity. Qed.

Lemma run_lift {A} (o : Outcome A) w : lift o w = (w, o).
Proof. reflexivity. Qed.

Lemma run_ret {A} (a : A) w : ret a w = (w, Returned a).
Proof. reflexivity. Qed.

Lemma run_modify f w : modify f w = (f w, Returned tt).
Proof. reflexivity. Qed.

Lemma run_reads {A} (f : World -> A) w : reads f w = (w, Returned (f w)).
Proof. reflexivity. Qed.

Lemma removeMessage_world id w :
  (removeMessage id w).1 =
  match getElementById id w with Some l => remove_at l w | None => w end.
Proof.
  unfold removeMessage, mbind, M_bind, bind, reads. simpl.
  by destruct (getElementById id w).
Qed.

Lemma removeMessage_returns id w : (removeMessage id w).2 = Returned tt.
Proof.
  unfold removeMessage, mbind, M_bind, bind, reads. simpl.
  by destruct (getElementById id w).
Qed.

Lemma run_removeMessage id w :
  removeMessage id w = (removed id w, Returned tt).
Proof.
  unfold removed. rewrite <- (removeMessage_returns id w).
  by destruct (removeMessage id w).
Qed.

Lemma removeMessage_fields id w :
  let w1 := ((removeMessage id w).1) in
  messageIdCounter w1 = messageIdCounter w /\ inflight w1 = inflight w /\
  timers w1 = timers w /\ location_href w1 = location_href w /\
  userMessageInput w1 = userMessageInput w /\ username w1 = username w.
Proof.
  simpl. rewrite removeMessage_world.
  destruct (getElementById id w) as [[i|i|i]|]; done.
Qed.

Lemma removeMessage_chatLog id w log :
  chatLog w = Some log ->
  exists log1, chatLog ((removeMessage id w).1) = Some log1 /\
    (forall i, getElementById id w = Some (InLog i) -> log1 = delete i log).
Proof.
  intros Hlog. rewrite removeMessage_world.
  destruct (getElementById id w) as [[i|i|i]|]; simpl; rewrite ?Hlog; simpl;
    eexists; (split; [reflexivity|]); intros j Hj; by simplify_eq.
Qed.

Lemma alter_at_fields f l w :
  inflight (alter_at f l w) = inflight w /\ timers (alter_at f l w) = timers w /\
  location_href (alter_at f l w) = location_href w /\
  userMessageInput (alter_at f l w) = userMessageInput w /\
  username (alter_at f l w) = username w.
Proof. by destruct l. Qed.

Lemma updateCharacterImage_fields imageSrc w :
  let w1 := ((Recommend.updateCharacterImage imageSrc w).1) in
  inflight w1 = inflight w /\ timers w1 = timers w /\
  location_href w1 = location_href w /\
  userMessageInput w1 = userMessageInput w /\ username w1 = username w.
Proof.
  unfold Recommend.updateCharacterImage, mbind, M_bind, bind, reads, modify, mret, M_ret, ret.
  simpl. destruct (getElementById "character-image" w) as [l1|]; [|done].
  destruct (ToBoolean imageSrc); [|done]. simpl.
  destruct (getElementById "character-name" w) as [l2|]; simpl.
  - destruct l1, l2; done.
  - destruct l1; done.
Qed.

Lemma updateCharacterImage_same imageSrc w :
  same_ids w (Recommend.updateCharacterImage imageSrc w).1 /\
  messageIdCounter (Recommend.updateCharacterImage imageSrc w).1 = messageIdCounter w /\
  (Recommend.updateCharacterImage imageSrc w).2 = Returned tt.
Proof.
  unfold Recommend.updateCharacterImage, mbind, M_bind, bind, reads, modify, mret, M_ret, ret.
  simpl. destruct (getElementById "character-image" w) as [l1|]; [|done].
  destruct (ToBoolean imageSrc); [|done]. simpl.
  destruct (getElementById "character-name" w) as [l2|]; simpl.
  - rewrite !alter_at_counter. split; [|done].
    eapply same_ids_trans; apply same_ids_alter_at; done.
  - rewrite !alter_at_counter. split; [|done]. by apply same_ids_alter_at.
Qed.

(** The world and the id that the first variant's [appendMessage] leaves:
    the panel may have been touched, the message is the log's last child. *)
Lemma Recommend_appendMessage_eq sender text imageSrc w :
  exists w1,
    same_ids w w1 /\ messageIdCounter w1 = js_incr (messageIdCounter w) /\
    (sender = user \/ ToBoolean imageSrc = false ->
     w1 = set_counter (js_incr (messageIdCounter w)) w) /\
    Recommend.appendMessage sender text imageSrc w =
    (chatLog_appendChild
       (mkElem (msg_id (messageIdCounter w)) ["message"; sender_class sender] None
          match sender with
          | user => set_textContent text
          | bot => [IDiv ["bot-text-container"] (set_textContent text)]
          end) w1,
     Returned (msg_id (messageIdCounter w))).
Proof.
  unfold Recommend.appendMessage, mbind, M_bind, bind, reads, modify, mret, M_ret, ret.
  simpl. destruct sender; simpl.
  - exists (set_counter (js_incr (messageIdCounter w)) w). repeat split; done.
  - destruct (ToBoolean imageSrc) eqn:E; simpl.
    + pose proof (updateCharacterImage_same imageSrc
                    (set_counter (js_incr (messageIdCounter w)) w)) as (Hs & Hc & Hr).
      destruct (Recommend.updateCharacterImage imageSrc _) as [w1 o]; simpl in *.
      subst o. exists w1. split; [done|]. split; [done|].
      split; [intros [?|?]; congruence | done].
    + exists (set_counter (js_incr (messageIdCounter w)) w). repeat split; done.
Qed.

Lemma Recommend_appendMessage_result sender text imageSrc w :
  (Recommend.appendMessage sender text imageSrc w).2 = Returned (msg_id (messageIdCounter w)) /\
  messageIdCounter (Recommend.appendMessage sender text imageSrc w).1
  = js_incr (messageIdCounter w).
Proof.
  destruct (Recommend_appendMessage_eq sender text imageSrc w) as (w1 & Hs & Hc & _ & ->).
  done.
Qed.

Lemma Report_appendMessage_result sender text imageSrc w :
  (Report.appendMessage sender text imageSrc w).2 = Returned (msg_id (messageIdCounter w)) /\
  messageIdCounter (Report.appendMessage sender text imageSrc w).1
  = js_incr (messageIdCounter w).
Proof. done. Qed.

Lemma appendMessage_of_result c sender text imageSrc w :
  (appendMessage_of c sender text imageSrc w).2 = Returned (msg_id (messageIdCounter w)) /\
  messageIdCounter (appendMessage_of c sender text imageSrc w).1
  = js_incr (messageIdCounter w).
Proof.
  destruct c; [apply Recommend_appendMessage_result | apply Report_appendMessage_result].
Qed.

Lemma appendMessage_of_fields c sender text imageSrc w :
  let w1 := ((appendMessage_of c sender text imageSrc w).1) in
  inflight w1 = inflight w /\ timers w1 = timers w /\
  location_href w1 = location_href w /\
  userMessageInput w1 = userMessageInput w /\ username w1 = username w.
Proof.
  destruct c; simpl; [|done].
  unfold Recommend.appendMessage, mbind, M_bind, bind, reads, modify, mret, M_ret, ret.
  simpl. destruct sender; simpl; [done|].
  destruct (ToBoolean imageSrc); simpl; [|done].
  pose proof (updateCharacterImage_fields imageSrc
                (set_counter (js_incr (messageIdCounter w)) w)) as H.
  pose proof (updateCharacterImage_same imageSrc
                (set_counter (js_incr (messageIdCounter w)) w)) as (_ & _ & Hr).
  destruct (Recommend.updateCharacterImage imageSrc _) as [w1 o]; simpl in *.
  subst o. simpl. done.
Qed.

Lemma run_appendMessage c sender text imageSrc w :
  appendMessage_of c sender text imageSrc w
  = (appended c sender text imageSrc w, Returned (msg_id (messageIdCounter w))).
Proof.
  unfold appended. destruct (appendMessage_of_result c sender text imageSrc w) as [H _].
  rewrite <- H. by destruct (appendMessage_of c sender text imageSrc w).
Qed.

Ltac mrun :=
  repeat (first [ rewrite run_bind | rewrite run_try_catch | rewrite run_lift
                | rewrite run_ret | rewrite run_modify | rewrite run_reads
                | rewrite run_removeMessage
                | rewrite run_appendMessage
                | rewrite (run_appendMessage RecommendClient)
                | rewrite (run_appendMessage ReportClient) ];
          cbv beta iota).

Lemma get_prop data k :
  data <> VNull -> data <> VUndefined -> get data k = Returned (prop data k).
Proof. intros Hn Hu. unfold prop. by destruct data. Qed.

Lemma truthy_defined v : ToBoolean v = true -> v <> VNull /\ v <> VUndefined.
Proof. by destruct v. Qed.


(** ** What every handler keeps *)

Section Keeping.

Variable R : World -> World -> Prop.
Hypothesis R_refl : forall w, R w w.
Hypothesis R_trans : forall w1 w2 w3, R w1 w2 -> R w2 w3 -> R w1 w3.

Lemma keeps_ret {A} (a : A) : keeps R (ret a).
Proof. intros w. apply R_refl. Qed.

Lemma keeps_throw {A} (e : Exn) : keeps R (@throw A e).
Proof. intros w. apply R_refl. Qed.

Lemma keeps_lift {A} (o : Outcome A) : keeps R (lift o).
Proof. intros w. apply R_refl. Qed.

Lemma keeps_reads {A} (f : World -> A) : keeps R (reads f).
Proof. intros w. apply R_refl. Qed.

Lemma keeps_bind {A B} (m : M A) (k : A -> M B) :
  keeps R m -> (forall a, keeps R (k a)) -> keeps R (m ≫= k).
Proof.
  intros Hm Hk w. rewrite run_bind. specialize (Hm w).
  destruct (m w) as [w1 [a|e]]; simpl in *; [|done].
  eapply R_trans; [exact Hm | apply Hk].
Qed.

Lemma keeps_try_catch {A} (m : M A) (h : Exn -> M A) :
  keeps R m -> (forall e, keeps R (h e)) -> keeps R (try_catch m h).
Proof.
  intros Hm Hh w. rewrite run_try_catch. specialize (Hm w).
  destruct (m w) as [w1 [a|e]]; simpl in *; [done|].
  eapply R_trans; [exact Hm | apply Hh].
Qed.

Hypothesis R_page : forall w w', same_page w w' -> R w w'.
Hypothesis R_append : forall c s t i, keeps R (appendMessage_of c s t i).
Hypothesis R_remove : forall id, keeps R (removeMessage id).

Lemma keeps_fetch r k : keeps R (fetch r k).
Proof. intros w. by apply R_page. Qed.

Lemma keeps_setTimeout t ms : keeps R (setTimeout t ms).
Proof. intros w. by apply R_page. Qed.

Lemma keeps_set_input v : keeps R (modify (set_input v)).
Proof. intros w. by apply R_page. Qed.

Lemma keeps_set_location h : keeps R (modify (set_location h)).
Proof. intros w. by apply R_page. Qed.

Ltac keeps_step :=
  first
    [ apply keeps_ret | apply keeps_throw | apply keeps_lift | apply keeps_reads
    | apply keeps_fetch | apply keeps_setTimeout | apply keeps_set_input
    | apply keeps_set_location | apply R_remove
    | apply (R_append RecommendClient) | apply (R_append ReportClient)
    | apply keeps_bind; [|intros ?]
    | apply keeps_try_catch; [|intros ?]
    | case_match ].

Lemma keeps_sendMessage c isInitial : keeps R (sendMessage_of c isInitial).
Proof.
  destruct c; simpl; unfold Recommend.sendMessage, Report.sendMessage;
    repeat keeps_step.
Qed.

Lemma keeps_resume c k r : keeps R (resume_of c k r).
Proof.
  destruct c; simpl;
    unfold Recommend.resume, Recommend.sendMessage_resume, Recommend.sendMessage_try,
      Report.resume, Report.sendMessage_resume, Report.sendMessage_try,
      Report.auto_report_resume;
    repeat keeps_step.
Qed.

Lemma keeps_run_task c t : keeps R (run_task_of c t).
Proof.
  destruct c; simpl;
    unfold Recommend.run_task, Recommend.load_check,
      Report.run_task, Report.load_check, Report.auto_report;
    repeat keeps_step;
    first [ apply (keeps_sendMessage RecommendClient)
          | apply (keeps_sendMessage ReportClient) ].
Qed.

Lemma keeps_handle c e w : R w (handle_of c e w).
Proof.
  destruct c, e as [|i|i r|s| |]; simpl.
  all: try apply (keeps_setTimeout TLoadCheck 500).
  all: try (destruct (timers w !! i) as [[ms t]|]; [|apply R_refl];
            eapply R_trans;
            [|first [apply (keeps_run_task RecommendClient)
                    |apply (keeps_run_task ReportClient)]];
            by apply R_page).
  all: try (destruct (inflight w !! i) as [[rq k]|]; [|apply R_refl];
            eapply R_trans;
            [|first [apply (keeps_resume RecommendClient)
                    |apply (keeps_resume ReportClient)]];
            by apply R_page).
  all: try (destruct (userMessageInput w); [|apply R_refl]).
  all: try (by apply R_page).
  all: try (destruct (sendBtn w); [|apply R_refl]).
  all: first [ apply (keeps_sendMessage RecommendClient)
             | apply (keeps_sendMessage ReportClient) ].
Qed.

Lemma keeps_run_events c es w : R w (run_events (handle_of c) es w).
Proof.
  revert w. induction es as [|e es IH]; intros w; simpl; [apply R_refl|].
  eapply R_trans; [apply (keeps_handle c e) | apply IH].
Qed.

End Keeping.

(** *** The invariant of ids is kept *)

Lemma ids_step_refl w : ids_step w w.
Proof. split; [lia | done]. Qed.

Lemma ids_step_trans w1 w2 w3 : ids_step w1 w2 -> ids_step w2 w3 -> ids_step w1 w3.
Proof.
  intros [H1 I1] [H2 I2]. split; [lia|]. intros Hc Hw.
  apply I2; [done|]. apply I1; [lia | done].
Qed.

Lemma ids_step_page w w' : same_page w w' -> ids_step w w'.
Proof.
  intros (Hb & Ha & Hl & Hc & _). split; [lia|]. intros _.
  by apply ids_invariant_ext.
Qed.

Lemma ids_step_append c sender text imageSrc :
  keeps ids_step (appendMessage_of c sender text imageSrc).
Proof.
  intros w. destruct c; simpl.
  - destruct (Recommend_appendMessage_eq sender text imageSrc w)
      as (w1 & Hs & Hc & _ & ->).
    split; simpl; rewrite Hc; [apply js_incr_le|]. intros Hlt Hw.
    pose proof (js_incr_below _ Hlt) as E.
    apply append_invariant; [done|done|lia|lia].
  - split; [apply js_incr_le|]. intros Hc Hw. pose proof (js_incr_below _ Hc) as E.
    apply append_invariant; [done|done| simpl in *; lia | simpl in *; lia ].
Qed.

Lemma ids_step_remove id : keeps ids_step (removeMessage id).
Proof.
  intros w. rewrite removeMessage_world.
  destruct (getElementById id w) as [l|]; [|apply ids_step_refl].
  split; [by rewrite remove_at_counter|]. intros _. apply remove_at_invariant.
Qed.

Lemma ids_step_handle c e w : ids_step w (handle_of c e w).
Proof.
  apply (keeps_handle ids_step ids_step_refl ids_step_trans ids_step_page
           ids_step_append ids_step_remove).
Qed.

Lemma reachable_ids c w :
  reachable (handle_of c) w -> (messageIdCounter w < 2 ^ 53)%N -> ids_invariant w.
Proof.
  intros Hr. induction Hr as [| w e Hr IH]; intros Hc.
  - by apply script_start_invariant.
  - destruct (ids_step_handle c e w) as [Hle Hinv]. apply Hinv; [done|].
    apply IH. lia.
Qed.

Lemma run_events_counter c es w :
  (messageIdCounter w <= messageIdCounter (run_events (handle_of c) es w))%N.
Proof.
  apply (keeps_run_events ids_step ids_step_refl ids_step_trans ids_step_page
           ids_step_append ids_step_remove).
Qed.

(** *** The [username] constant is kept *)

Lemma run_events_username c es w :
  username (run_events (handle_of c) es w) = username w.
Proof.
  apply (keeps_run_events same_name); unfold same_name.
  - done.
  - congruence.
  - by intros w1 w2 (_ & _ & _ & _ & H).
  - intros c' s t i w1. by destruct (appendMessage_of_fields c' s t i w1) as (_ & _ & _ & _ & H).
  - intros id w1. by destruct (removeMessage_fields id w1) as (_ & _ & _ & _ & _ & H).
Qed.

(** ** The message ids (C10) *)

(** What [removeMessage] does to a world that satisfies the invariant,
    for a message id. *)
Lemma removeMessage_msg w n :
  ids_invariant w ->
  let w' := ((removeMessage (msg_id n) w).1) in
  (before w' = before w /\ after w' = after w /\
   (log_of w' = log_of w \/
    exists i e, log_of w !! i = Some e /\ el_id e = msg_id n /\
                log_of w' = delete i (log_of w)) /\
   (msg_id n ∉ ids_of (before w' ++ log_of w' ++ after w'))).
Proof.
  intros [I1 I2 I3]. simpl. rewrite removeMessage_world.
  assert (Hout : (msg_id n ∉ ids_of (before w)) /\ (msg_id n ∉ ids_of (after w))).
  { split; intros Hin; apply (I1 (msg_id n)); try (by exists n);
      unfold ids_of in *; rewrite fmap_app; apply elem_of_app; auto. }
  destruct Hout as [Hb Ha].
  unfold getElementById. rewrite bool_decide_eq_false_2 by apply msg_id_nonempty.
  destruct (find_id (msg_id n) (before w)) as [i|] eqn:Eb.
  { exfalso. apply find_id_Some in Eb as (e & He & Hid & _). apply Hb.
    rewrite <- Hid. apply list_elem_of_fmap. exists e. split; [done|].
    by eapply list_elem_of_lookup_2. }
  fold (log_of w).
  destruct (find_id (msg_id n) (log_of w)) as [i|] eqn:El.
  - apply find_id_Some in El as (e & He & Hid & _). simpl.
    assert (Hlog : log_of (set_chatLog (delete i <$> chatLog w) w) = delete i (log_of w)).
    { unfold log_of in *. simpl. destruct (chatLog w); simpl in *; [done|].
      by rewrite lookup_nil in He. }
    rewrite Hlog. repeat split; [right; eauto|].
    unfold ids_of in *. rewrite !fmap_app. intros Hin.
    apply elem_of_app in Hin as [Hin|Hin]; [done|].
    apply elem_of_app in Hin as [Hin|Hin]; [|done].
    rewrite list_fmap_delete in Hin.
    apply list_elem_of_lookup in Hin as [j Hj].
    assert (Hi : (el_id <$> log_of w) !! i = Some (msg_id n)).
    { rewrite list_lookup_fmap, He. simpl. by rewrite Hid. }
    destruct (decide (j < i)).
    + rewrite list_lookup_delete_lt in Hj by done.
      specialize (I3 _ _ _ Hj Hi (ex_intro _ n eq_refl)). lia.
    + rewrite list_lookup_delete_ge in Hj by lia.
      specialize (I3 _ _ _ Hj Hi (ex_intro _ n eq_refl)). lia.
  - apply find_id_None in El.
    destruct (find_id (msg_id n) (after w)) as [i|] eqn:Ea; simpl.
    { exfalso. apply find_id_Some in Ea as (e & He & Hid & _). apply Ha.
      rewrite <- Hid. apply list_elem_of_fmap. exists e. split; [done|].
      by eapply list_elem_of_lookup_2. }
    repeat split; [by left|].
    unfold ids_of in *. rewrite !fmap_app. intros Hin.
    apply elem_of_app in Hin as [Hin|Hin]; [done|].
    apply elem_of_app in Hin as [Hin|Hin]; done.
Qed.

Lemma msg_id_unused w :
  ids_invariant w ->
  msg_id (messageIdCounter w) ∉ ids_of (before w ++ log_of w ++ after w).
Proof.
  intros Hw Hin. pose proof (msg_id_fresh _ Hw) as Hf. destruct Hw as [I1 _ _].
  unfold ids_of in *. rewrite !fmap_app in Hin.
  apply elem_of_app in Hin as [Hin|Hin].
  - apply (I1 (msg_id (messageIdCounter w))); [|by eexists].
    rewrite fmap_app. apply elem_of_app. by left.
  - apply elem_of_app in Hin as [Hin|Hin]; [done|].
    apply (I1 (msg_id (messageIdCounter w))); [|by eexists].
    rewrite fmap_app. apply elem_of_app. by right.
Qed.

Lemma script_step_ids w w' : script_step w w' -> ids_step w w'.
Proof.
  intros [c w0 s t i | w0 id | w0 w1 Hp].
  - apply ids_step_append.
  - apply ids_step_remove.
  - by apply ids_step_page.
Qed.

Lemma script_steps_ids w w' : rtc script_step w w' -> ids_step w w'.
Proof.
  induction 1 as [|w1 w2 w3 H12 _ IH]; [apply ids_step_refl|].
  eapply ids_step_trans; [by eapply script_step_ids | done].
Qed.

Lemma visited_ids w :
  visited w -> (messageIdCounter w < 2 ^ 53)%N -> ids_invariant w.
Proof.
  intros (chatArea & input & button & log & pre & post & Hp & Hsteps) Hlt.
  destruct (script_steps_ids _ _ Hsteps) as [_ H]. apply H; [done|].
  by apply script_start_invariant.
Qed.

Lemma visited_later w w' : visited w -> rtc script_step w w' -> visited w'.
Proof.
  intros (chatArea & input & button & log & pre & post & Hp & Hsteps) Hl.
  exists chatArea, input, button, log, pre, post. split; [done|].
  by etrans.
Qed.

(** Every handler is made of such steps. *)
Lemma handle_script_steps c e w : rtc script_step w (handle_of c e w).
Proof.
  apply (keeps_handle (rtc script_step)).
  - intros w0. apply rtc_refl.
  - intros w1 w2 w3 H1 H2. by etrans.
  - intros w0 w1 Hp. apply rtc_once. by apply step_page.
  - intros c' s t i w0. apply rtc_once. apply step_append.
  - intros id w0. apply rtc_once. apply step_remove.
Qed.

Lemma reachable_visited c w : reachable (handle_of c) w -> visited w.
Proof.
  induction 1 as [chatArea input button log pre post Hp | w e Hr IH].
  - exists chatArea, input, button, log, pre, post. split; [done | apply rtc_refl].
  - eapply visited_later; [done | apply handle_script_steps].
Qed.

(** C10.  In every world the page passes through, as long as the counter
    has not run into 2^53: [appendMessage] returns [msg-N] for the current
    value [N] of the counter and leaves the counter at [N + 1]; in any later
    world the counter is larger, so a later call returns a different id.
    Hence the id a call is about to hand out is on no element of the
    document, and no message id sits on two elements of the log.
    [removeMessage] of a message id touches nothing outside the log and
    leaves the log as it was or without the one element that carried the
    id; afterwards no element carries it. *)
Theorem message_ids_distinct_removed_alone
    (c : Client) (w w2 : World) (n : N)
    (sender sender2 : Sender) (text imageSrc text2 imageSrc2 : Value) :
  visited w ->
  rtc script_step (appended c sender text imageSrc w) w2 ->
  (messageIdCounter w2 < 2 ^ 53)%N ->
  let first := appendMessage_of c sender text imageSrc w in
  let second := appendMessage_of c sender2 text2 imageSrc2 w2 in
  let w' := removed (msg_id n) w2 in
  first.2 = Returned (msg_id (messageIdCounter w)) /\
  messageIdCounter first.1 = (messageIdCounter w + 1)%N /\
  second.2 = Returned (msg_id (messageIdCounter w2)) /\
  (messageIdCounter w < messageIdCounter w2)%N /\
  first.2 <> second.2 /\
  (msg_id (messageIdCounter w2) ∉ ids_of (before w2 ++ log_of w2 ++ after w2)) /\
  unique_msgs (ids_of (log_of w2)) /\
  before w' = before w2 /\ after w' = after w2 /\
  (log_of w' = log_of w2 \/
   exists i e, log_of w2 !! i = Some e /\ el_id e = msg_id n /\
               log_of w' = delete i (log_of w2)) /\
  (msg_id n ∉ ids_of (before w' ++ log_of w' ++ after w')).
Proof.
  intros Hv Hsteps Hlt first second w'.
  assert (Hv2 : visited w2).
  { eapply visited_later; [exact Hv|]. etrans; [|exact Hsteps].
    apply rtc_once. apply step_append. }
  pose proof (visited_ids w2 Hv2 Hlt) as Hw2.
  destruct (appendMessage_of_result c sender text imageSrc w) as [Hid Hc].
  destruct (appendMessage_of_result c sender2 text2 imageSrc2 w2) as [Hid2 _].
  destruct (script_steps_ids _ _ Hsteps) as [Hle _].
  unfold appended in Hle. fold first in Hid, Hc, Hle. fold second in Hid2.
  assert (Hb1 : (js_incr (messageIdCounter w) < 2 ^ 53)%N) by (rewrite <- Hc; lia).
  pose proof (js_incr_below _ Hb1) as Hinc.
  destruct (removeMessage_msg w2 n Hw2) as (Hb & Ha & Hl & Hn).
  split; [done|]. split; [congruence|]. split; [done|]. split; [lia|].
  split.
  { rewrite Hid, Hid2. intros E.
    assert (E' : msg_id (messageIdCounter w) = msg_id (messageIdCounter w2))
      by congruence.
    apply msg_id_inj in E'. lia. }
  split; [by apply msg_id_unused|]. split; [by destruct Hw2|]. done.
Qed.

Lemma message_ids_distinct_removed_alone_witness :
  let w := Report.handle (EvTimer 0)
             (Report.handle EvLoad (script_start None (Some "") true (Some []) [] [])) in
  let w2 := appended ReportClient user (VStr "a") VNull w in
  (Report.appendMessage user (VStr "a") VNull w).2 = Returned "msg-1" /\
  (Report.appendMessage bot (VStr "b") VNull w2).2 = Returned "msg-2" /\
  ids_of (log_of (removed "msg-0" w2)) = ["msg-1"].
Proof.
  intros w w2.
  assert (Hv : visited w).
  { apply (reachable_visited ReportClient).
    apply (reachable_step (handle_of ReportClient)).
    apply (reachable_step (handle_of ReportClient)).
    apply reachable_start. intros s Hs. by apply elem_of_nil in Hs. }
  assert (Hlt : (messageIdCounter w2 < 2 ^ 53)%N) by (vm_compute; reflexivity).
  destruct (message_ids_distinct_removed_alone ReportClient w w2 0
              user bot (VStr "a") VNull (VStr "b") VNull Hv (rtc_refl _ _) Hlt)
    as (H1 & _ & H2 & _).
  split; [exact H1|]. split; [exact H2|]. vm_compute. reflexivity.
Defined.

(** ** The text of a message (C9) *)

Lemma same_ids_chatLog w w1 log :
  same_ids w w1 -> chatLog w = Some log ->
  exists log1, chatLog w1 = Some log1 /\ ids_of log1 = ids_of log.
Proof.
  intros (_ & _ & H) Hl. rewrite Hl in H. destruct (chatLog w1) as [log1|]; [|done].
  exists log1. split; [done|]. simpl in H. congruence.
Qed.

(** C9.  Whoever the sender and whatever the text, [appendMessage] puts the
    text into the new message element through [textContent]: the element is
    the last child of the log, its text content is the given string, the
    string sits in one text node (in none when it is empty) and the number
    of element nodes below the message does not depend on the text, so no
    markup in the text has become an element. *)
Theorem appendMessage_text_is_literal
    (c : Client) (sender : Sender) (text : string) (imageSrc : Value)
    (w : World) (log : list Elem) :
  chatLog w = Some log ->
  exists log1 e,
    chatLog ((appendMessage_of c sender (VStr text) imageSrc w).1)
    = Some (log1 ++ [e])%list /\
    ids_of log1 = ids_of log /\
    el_id e = msg_id (messageIdCounter w) /\
    el_textContent e = text /\
    List.concat (List.map text_nodes (el_children e))
    = (if bool_decide (text = "") then [] else [text]) /\
    list_sum (List.map elements_below (el_children e))
    = match sender, c with
      | user, _ => 0
      | bot, RecommendClient => 1
      | bot, ReportClient => if ToBoolean imageSrc then 2 else 1
      end.
Proof.
  intros Hlog. destruct c; simpl.
  - destruct (Recommend_appendMessage_eq sender (VStr text) imageSrc w)
      as (w1 & Hs & _ & _ & ->).
    destruct (same_ids_chatLog _ _ _ Hs Hlog) as (log1 & Hl1 & Hids).
    eexists log1, _. simpl. rewrite Hl1. simpl. split; [reflexivity|].
    split; [done|]. split; [done|].
    unfold el_textContent, set_textContent. simpl.
    destruct sender; case_bool_decide; subst; simpl; rewrite ?app_nil_r; done.
  - eexists log, _. unfold Report.appendMessage, mbind, M_bind, bind, reads, modify. simpl.
    rewrite Hlog. simpl. split; [reflexivity|].
    split; [done|]. split; [done|].
    unfold el_textContent, set_textContent. simpl.
    destruct sender, (ToBoolean imageSrc); case_bool_decide; subst; simpl;
      rewrite ?app_nil_r; done.
Qed.

Lemma appendMessage_text_is_literal_witness :
  exists log1 e,
    chatLog ((Report.appendMessage bot (VStr "<script>alert(1)</script>")
                (VStr "/a.png")
                (script_start None (Some "") true (Some []) [] [])).1)
    = Some (log1 ++ [e])%list /\
    el_textContent e = "<script>alert(1)</script>" /\
    list_sum (List.map elements_below (el_children e)) = 2.
Proof.
  destruct (appendMessage_text_is_literal ReportClient bot "<script>alert(1)</script>"
              (VStr "/a.png") (script_start None (Some "") true (Some []) [] []) []
              eq_refl) as (log1 & e & H1 & _ & _ & H2 & _ & H3).
  exists log1, e. split; [exact H1|]. split; [exact H2| exact H3].
Defined.

(** ** The greeting request (C8) *)

Lemma chat_request_message message name :
  get (req_body (chat_request message name)) "message" = Returned (VStr message).
Proof. simpl. by rewrite lookup_insert_eq. Qed.

Lemma chat_request_username message name :
  get (req_body (chat_request message name)) "username" = Returned name.
Proof.
  simpl. rewrite lookup_insert_ne by done. by rewrite lookup_insert_eq.
Qed.



(** ** A failed send (C6) *)

Lemma send_failed_throws r : send_failed r -> exists e, awaited_json r = Threw e.
Proof.
  destruct r as [reason|status json]; simpl; [eauto|]. intros ->. eauto.
Qed.

(** What the [catch] block of [sendMessage] leaves, in both variants. *)
Lemma catch_block c loadingId w log :
  chatLog w = Some log ->
  let w1 := ((removeMessage loadingId w).1) in
  let w' := (((removeMessage loadingId;;
               appendMessage_of c bot (VStr retry_apology) VNull;;
               ret tt) w).1) in
  exists log1, chatLog w1 = Some log1 /\
    (forall i, getElementById loadingId w = Some (InLog i) -> log1 = delete i log) /\
    chatLog w' = Some (log1 ++ [bot_message (msg_id (messageIdCounter w)) retry_apology])%list /\
    before w' = before w1 /\ after w' = after w1 /\
    inflight w' = inflight w /\ timers w' = timers w /\
    location_href w' = location_href w.
Proof.
  intros Hlog. simpl.
  destruct (removeMessage_chatLog loadingId w log Hlog) as (log1 & Hl1 & Hdel).
  destruct (removeMessage_fields loadingId w) as (Hc & Hi & Ht & Hh & _).
  exists log1. split; [done|]. split; [done|].
  unfold mbind, M_bind, bind.
  destruct (removeMessage loadingId w) as [w1 [[]|e]] eqn:E; simpl in *.
  - destruct c; simpl;
      unfold Recommend.appendMessage, Report.appendMessage, mbind, M_bind, bind,
        reads, modify, mret, M_ret, ret; simpl; rewrite Hl1, Hc; done.
  - exfalso. unfold removeMessage, mbind, M_bind, bind, reads in E. simpl in E.
    destruct (getElementById loadingId w); simpl in E; by simplify_eq.
Qed.

(** The rest of [sendMessage] after a failed fetch, in any world: the
    element found under the loading id is taken off and one bot message with
    the fixed apology is appended; nothing else changes. *)
Lemma resume_failed_shows_retry_apology
    (c : Client) (w : World) (loadingId : string) (r : FetchResult)
    (log : list Elem) :
  chatLog w = Some log ->
  send_failed r ->
  let w1 := ((removeMessage loadingId w).1) in
  let w' := ((resume_of c (KSend loadingId) r w).1) in
  exists log1, chatLog w1 = Some log1 /\
    (forall i, getElementById loadingId w = Some (InLog i) -> log1 = delete i log) /\
    chatLog w' = Some (log1 ++ [bot_message (msg_id (messageIdCounter w)) retry_apology])%list /\
    el_textContent (bot_message (msg_id (messageIdCounter w)) retry_apology)
    = retry_apology /\
    before w' = before w1 /\ after w' = after w1 /\
    inflight w' = inflight w /\ timers w' = timers w /\
    location_href w' = location_href w.
Proof.
  intros Hlog Hfail. simpl.
  destruct (send_failed_throws r Hfail) as [e He].
  destruct (catch_block c loadingId w log Hlog) as (log1 & H1 & H2 & H3 & H4).
  exists log1. split; [done|]. split; [done|].
  assert (Hres : (resume_of c (KSend loadingId) r w).1 =
                 ((removeMessage loadingId;;
                   appendMessage_of c bot (VStr retry_apology) VNull;;
                   ret tt) w).1).
  { destruct c; simpl;
      unfold Recommend.sendMessage_resume, Recommend.sendMessage_try,
        Report.sendMessage_resume, Report.sendMessage_try, try_catch;
      unfold mbind at 1, M_bind at 1, bind at 1; unfold lift; rewrite He; done. }
  rewrite Hres. split; [done|]. split; [reflexivity|]. done.
Qed.

(** ** The redirect (C1) *)

(** The first variant redirects exactly when the reply's
    [program_recommendation] is truthy. *)
Lemma Recommend_resume_ok loadingId status data w :
  ok status = true ->
  data <> VNull -> data <> VUndefined ->
  let w1 := ((removeMessage loadingId w).1) in
  let w' := ((Recommend.sendMessage_resume loadingId
                (FetchResponse status (Returned data)) w).1) in
  if ToBoolean (prop data "program_recommendation")
  then w' = set_location (Some (recommendation_href data)) w1
  else location_href w' = location_href w /\ inflight w' = inflight w /\
       timers w' = timers w.
Proof.
  intros Hok Hn Hu. cbv zeta.
  unfold Recommend.sendMessage_resume, Recommend.sendMessage_try, awaited_json.
  rewrite Hok. change Recommend.appendMessage with (appendMessage_of RecommendClient).
  mrun. rewrite (get_prop data) by done. cbv beta iota.
  destruct (ToBoolean (prop data "program_recommendation")) eqn:Hrec.
  - apply truthy_defined in Hrec as [Hrn Hru].
    repeat first [ progress mrun
                 | rewrite (get_prop data) by done
                 | rewrite (get_prop (prop data "program_recommendation")) by done ].
    reflexivity.
  - repeat first [ progress mrun | rewrite (get_prop data) by done ].
    destruct (substring_check (js_or (prop data "reply") (VStr ""))) as [[]|e];
      mrun; cbv [fst]; unfold appended, removed.
    + destruct (appendMessage_of_fields RecommendClient bot
                  (js_or (prop data "reply") (VStr ""))
                  (js_or (prop data "image") VNull) ((removeMessage loadingId w).1))
        as (Hi & Ht & Hh & _).
      destruct (removeMessage_fields loadingId w) as (_ & Hi' & Ht' & Hh' & _).
      cbv zeta in *. split; [congruence|]. split; congruence.
    + destruct (appendMessage_of_fields RecommendClient bot (VStr retry_apology) VNull
                  ((removeMessage loadingId ((removeMessage loadingId w).1)).1))
        as (Hi & Ht & Hh & _).
      destruct (removeMessage_fields loadingId ((removeMessage loadingId w).1))
        as (_ & Hi2 & Ht2 & Hh2 & _).
      destruct (removeMessage_fields loadingId w) as (_ & Hi' & Ht' & Hh' & _).
      cbv zeta in *. split; [congruence|]. split; congruence.
Qed.

Lemma catch_block_location c id w :
  location_href (((removeMessage id;;
                   appendMessage_of c bot (VStr retry_apology) VNull;;
                   ret tt) w).1) = location_href w.
Proof.
  rewrite run_bind, run_removeMessage. cbv beta iota.
  rewrite run_bind, run_appendMessage. cbv beta iota.
  rewrite run_ret. cbv [fst]. unfold appended, removed.
  destruct (appendMessage_of_fields c bot (VStr retry_apology) VNull
              ((removeMessage id w).1)) as (_ & _ & H & _).
  destruct (removeMessage_fields id w) as (_ & _ & _ & H' & _).
  cbv zeta in *. congruence.
Qed.

(** The first variant assigns the address only for an OK reply whose
    [program_recommendation] is truthy. *)
Lemma Recommend_redirect_only_if loadingId r w :
  location_href ((Recommend.sendMessage_resume loadingId r w).1) <> location_href w ->
  exists status data,
    r = FetchResponse status (Returned data) /\ ok status = true /\
    ToBoolean (prop data "program_recommendation") = true.
Proof.
  intros Hne.
  destruct (awaited_json r) as [data|e] eqn:Ea.
  - destruct r as [reason|status json]; simpl in Ea; [done|].
    destruct (ok status) eqn:Hok; [|done]. subst json.
    assert (Hcase : data = VNull \/ data = VUndefined \/
                    (data <> VNull /\ data <> VUndefined))
      by (destruct data; auto).
    destruct Hcase as [-> | [-> | [Hn Hu]]].
    + exfalso. apply Hne.
      unfold Recommend.sendMessage_resume, Recommend.sendMessage_try, awaited_json.
      rewrite Hok. rewrite run_try_catch, run_bind, run_lift. cbv beta iota.
      rewrite run_bind, run_removeMessage. cbv beta iota.
      rewrite run_bind, run_lift. simpl get. cbv beta iota.
      rewrite (catch_block_location RecommendClient).
      unfold removed. by destruct (removeMessage_fields loadingId w) as (_ & _ & _ & H & _).
    + exfalso. apply Hne.
      unfold Recommend.sendMessage_resume, Recommend.sendMessage_try, awaited_json.
      rewrite Hok. rewrite run_try_catch, run_bind, run_lift. cbv beta iota.
      rewrite run_bind, run_removeMessage. cbv beta iota.
      rewrite run_bind, run_lift. simpl get. cbv beta iota.
      rewrite (catch_block_location RecommendClient).
      unfold removed. by destruct (removeMessage_fields loadingId w) as (_ & _ & _ & H & _).
    + exists status, data. split; [done|]. split; [done|].
      pose proof (Recommend_resume_ok loadingId status data w Hok Hn Hu) as H.
      cbv zeta in H.
      destruct (ToBoolean (prop data "program_recommendation")); [done|].
      exfalso. apply Hne. apply H.
  - exfalso. apply Hne.
    unfold Recommend.sendMessage_resume, Recommend.sendMessage_try.
    rewrite run_try_catch, run_bind, run_lift, Ea. cbv beta iota.
    apply (catch_block_location RecommendClient).
Qed.

(** C1.  When the reply to a send is a JSON object that contains a
    [program_recommendation] object (and the status is OK, so that the reply
    is read at all), the first variant's [sendMessage] takes the loading
    message off and assigns the address of the /program_recommendation page,
    with the [image], [message] and [sentiment] parameters, to
    [window.location.href]; the world is otherwise the one [removeMessage]
    left: no reply text is appended, the picture panel is not touched,
    nothing is scheduled or sent, whatever [reply], [image] and
    [needs_report_generation] hold.  When the object has no
    [program_recommendation] the address is not assigned; it is assigned
    only for an OK reply whose [program_recommendation] is truthy. *)
Theorem program_recommendation_redirects
    (w : World) (loadingId : string) (r : FetchResult) (status : N)
    (props : gmap string Value) :
  r = FetchResponse status (Returned (VObj props)) ->
  let data := VObj props in
  let w' := ((Recommend.sendMessage_resume loadingId r w).1) in
  (ok status = true ->
   forall rprops,
     props !! "program_recommendation" = Some (VObj rprops) ->
     w' = set_location (Some (recommendation_href data)) (removed loadingId w)) /\
  (props !! "program_recommendation" = None ->
   location_href w' = location_href w) /\
  (location_href w' <> location_href w ->
   ok status = true /\ ToBoolean (prop data "program_recommendation") = true).
Proof.
  intros -> data w'.
  assert (Honly : location_href w' <> location_href w ->
                  ok status = true /\
                  ToBoolean (prop data "program_recommendation") = true).
  { intros Hne. apply Recommend_redirect_only_if in Hne as (s & d & E & Hok & Ht).
    by simplify_eq. }
  split; [|split; [|done]].
  - intros Hok rprops Hp.
    pose proof (Recommend_resume_ok loadingId status data w Hok) as H.
    cbv zeta in H. fold w' in H.
    assert (Ht : ToBoolean (prop data "program_recommendation") = true)
      by (unfold prop; simpl; by rewrite Hp).
    rewrite Ht in H. by apply H.
  - intros Hp. destruct (decide (location_href w' = location_href w)) as [|Hne]; [done|].
    apply Honly in Hne as [_ Ht]. unfold prop in Ht. simpl in Ht. by rewrite Hp in Ht.
Qed.

Lemma program_recommendation_redirects_witness :
  let w := Recommend.handle (EvTimer 0)
             (Recommend.handle EvLoad (script_start None (Some "") true (Some []) [] [])) in
  let data := VObj (list_to_map
                [("reply", VStr "추천해줄게");
                 ("needs_report_generation", VBool true);
                 ("program_recommendation",
                  VObj (list_to_map [("image", VStr "/static/a b.png");
                                     ("message", VStr "go")]))]) in
  let w' := ((Recommend.sendMessage_resume "msg-0"
                (FetchResponse 200 (Returned data)) w).1) in
  location_href w'
  = Some "/program_recommendation?image=%2Fstatic%2Fa+b.png&message=go&sentiment=positive"
  /\ chatLog w' = Some [] /\ timers w' = [] .
Proof.
  intros w data w'.
  destruct (program_recommendation_redirects w "msg-0"
              (FetchResponse 200 (Returned data)) 200
              (list_to_map
                [("reply", VStr "추천해줄게");
                 ("needs_report_generation", VBool true);
                 ("program_recommendation",
                  VObj (list_to_map [("image", VStr "/static/a b.png");
                                     ("message", VStr "go")]))]) eq_refl)
    as (H & _).
  specialize (H eq_refl _ eq_refl). fold data w' in H. rewrite H.
  vm_compute. done.
Defined.

(** ** The automatic report request (C2) *)

Lemma same_pending_refl w : same_pending w w.
Proof. done. Qed.

Lemma same_pending_trans w1 w2 w3 :
  same_pending w1 w2 -> same_pending w2 w3 -> same_pending w1 w3.
Proof. intros [??] [??]. split; congruence. Qed.

Lemma same_pending_append c sender text imageSrc :
  keeps same_pending (appendMessage_of c sender text imageSrc).
Proof.
  intros w. destruct (appendMessage_of_fields c sender text imageSrc w) as (?&?&_).
  by split.
Qed.

Lemma same_pending_remove id : keeps same_pending (removeMessage id).
Proof.
  intros w. destruct (removeMessage_fields id w) as (_&?&?&_). by split.
Qed.

(** The first variant never reads [needs_report_generation]: however the
    fetch settles, the rest of [sendMessage] schedules and sends nothing. *)
Lemma Recommend_resume_same_pending loadingId r :
  keeps same_pending (Recommend.sendMessage_resume loadingId r).
Proof.
  unfold Recommend.sendMessage_resume, Recommend.sendMessage_try.
  repeat first
    [ apply (keeps_ret same_pending same_pending_refl)
    | apply (keeps_lift same_pending same_pending_refl)
    | apply same_pending_remove
    | apply (same_pending_append RecommendClient)
    | apply (keeps_bind same_pending same_pending_trans); [|intros ?]
    | apply (keeps_try_catch same_pending same_pending_trans);
      [|intros ?]
    | case_match
    | by intros ? ].
Qed.

Lemma Report_resume_ok loadingId status data w :
  ok status = true ->
  data <> VNull -> data <> VUndefined ->
  substring_check (js_or (prop data "reply") (VStr "")) = Returned tt ->
  let w1 := ((removeMessage loadingId w).1) in
  let w2 := ((Report.appendMessage bot (js_or (prop data "reply") (VStr ""))
                (js_or (prop data "image") VNull) w1).1) in
  (Report.sendMessage_resume loadingId (FetchResponse status (Returned data)) w).1
  = if is_true (prop data "needs_report_generation")
    then set_timers (timers w2 ++ [(500%N, TAutoReport)]) w2
    else w2.
Proof.
  intros Hok Hn Hu Hsub. cbv zeta.
  unfold Report.sendMessage_resume, Report.sendMessage_try, awaited_json.
  rewrite Hok. change Report.appendMessage with (appendMessage_of ReportClient).
  repeat first [ progress mrun | rewrite (get_prop data) by done | rewrite Hsub ].
  destruct (is_true (prop data "needs_report_generation")); mrun; reflexivity.
Qed.

Lemma Report_auto_report_world v :
  let v1 := ((Report.appendMessage bot (VStr thinking) VNull v).1) in
  (Report.auto_report v).1
  = set_inflight
      (inflight v1 ++ [(chat_request "" (username v),
                        KReport (msg_id (messageIdCounter v)))]) v1.
Proof. reflexivity. Qed.

Lemma Report_auto_report_resume_ok loadingId2 status data u :
  data <> VNull -> data <> VUndefined ->
  (Report.auto_report_resume loadingId2 (FetchResponse status (Returned data)) u).1
  = (Report.appendMessage bot (js_or (prop data "reply") (VStr ""))
       (js_or (prop data "image") VNull) ((removeMessage loadingId2 u).1)).1.
Proof.
  intros Hn Hu. unfold Report.auto_report_resume.
  change Report.appendMessage with (appendMessage_of ReportClient).
  repeat first [ progress mrun | rewrite (get_prop data) by done ]. reflexivity.
Qed.

Lemma js_or_defined a s : js_or a (VStr s) <> VNull /\ js_or a (VStr s) <> VUndefined.
Proof.
  unfold js_or. destruct (ToBoolean a) eqn:E; [by apply truthy_defined | done].
Qed.

Lemma set_textContent_text t :
  t <> VNull -> t <> VUndefined ->
  String.concat "" (List.map textContent (set_textContent t)) = ToString t.
Proof.
  intros Hn Hu. unfold set_textContent.
  assert (E : match t with VUndefined | VNull => "" | _ => ToString t end = ToString t)
    by (by destruct t).
  rewrite E. case_bool_decide as Hs; simpl; [by rewrite Hs | done].
Qed.

Lemma Report_bot_message_text text imageSrc w log :
  text <> VNull -> text <> VUndefined ->
  chatLog w = Some log ->
  exists e,
    chatLog ((Report.appendMessage bot text imageSrc w).1) = Some (log ++ [e])%list /\
    el_classes e = ["message"; "bot"] /\ el_textContent e = ToString text.
Proof.
  intros Hn Hu Hlog. eexists. unfold Report.appendMessage, mbind, M_bind, bind, reads, modify.
  simpl. rewrite Hlog. simpl. split; [reflexivity|]. split; [done|].
  unfold el_textContent. simpl.
  pose proof (set_textContent_text text Hn Hu) as E.
  destruct (ToBoolean imageSrc); simpl; [|rewrite E; done].
  destruct (set_textContent text) as [|x l] eqn:El; simpl in *; [done|].
  exact E.
Qed.

(** C2, as the code has it.  In the second variant, when the reply to a
    send is a JSON object whose [reply] is a string (or falsy) and whose
    [needs_report_generation] is [true], the rest of [sendMessage] sends
    nothing at once and sets exactly one timeout; when the flag is anything
    else it sets none.  When that timeout fires, exactly one request goes
    out: a POST to /api/chat whose message is the empty string and whose
    username is the page's constant, which no event changes.  When that
    request settles with a JSON object, its [reply] is appended as a bot
    message and nothing further is scheduled or sent.  The variant never
    reads [program_recommendation].  The first variant never reads the flag:
    the rest of its [sendMessage] schedules and sends nothing. *)
Theorem report_flag_requests_report_once
    (w v u : World) (loadingId loadingId2 : string) (status status2 : N)
    (props props2 : gmap string Value) (log : list Elem) (es : list Event)
    (r : FetchResult) :
  ok status = true ->
  substring_check (js_or (prop (VObj props) "reply") (VStr "")) = Returned tt ->
  chatLog u = Some log ->
  let data := VObj props in
  let w' := ((Report.sendMessage_resume loadingId
                (FetchResponse status (Returned data)) w).1) in
  let v' := ((Report.run_task TAutoReport v).1) in
  let follow_up := chat_request "" (username v) in
  let data2 := VObj props2 in
  let u' := ((Report.resume (KReport loadingId2)
                (FetchResponse status2 (Returned data2)) u).1) in
  inflight w' = inflight w /\
  timers w' = (if is_true (prop data "needs_report_generation")
               then timers w ++ [(500%N, TAutoReport)] else timers w)%list /\
  inflight v' = (inflight v ++
                 [(follow_up, KReport (msg_id (messageIdCounter v)))])%list /\
  timers v' = timers v /\
  req_url follow_up = "/api/chat" /\ req_method follow_up = "POST" /\
  get (req_body follow_up) "message" = Returned (VStr "") /\
  get (req_body follow_up) "username" = Returned (username v) /\
  username (run_events Report.handle es w) = username w /\
  (exists log1 e,
      chatLog (removed loadingId2 u) = Some log1 /\
      chatLog u' = Some (log1 ++ [e])%list /\
      el_classes e = ["message"; "bot"] /\
      el_textContent e = ToString (js_or (prop data2 "reply") (VStr "")) /\
      inflight u' = inflight u /\ timers u' = timers u) /\
  same_pending w ((Recommend.sendMessage_resume loadingId r w).1).
Proof.
  intros Hok Hsub Hlog data w' v' follow_up data2 u'.
  assert (Hw' : w' = _) by (apply Report_resume_ok; done).
  cbv zeta in Hw'.
  destruct (appendMessage_of_fields ReportClient bot
              (js_or (prop data "reply") (VStr "")) (js_or (prop data "image") VNull)
              ((removeMessage loadingId w).1)) as (Hi & Ht & _).
  destruct (removeMessage_fields loadingId w) as (_ & Hi' & Ht' & _).
  cbv zeta in *. simpl appendMessage_of in *.
  split; [|split]; [| |split; [|split; [|split; [|split; [|split; [|split; [|split; [|split]]]]]]]].
  - rewrite Hw'. destruct (is_true _); simpl; congruence.
  - rewrite Hw'. destruct (is_true _); simpl; congruence.
  - reflexivity.
  - reflexivity.
  - reflexivity.
  - reflexivity.
  - apply chat_request_message.
  - apply chat_request_username.
  - apply (run_events_username ReportClient).
  - destruct (removeMessage_chatLog loadingId2 u log Hlog) as (log1 & Hl1 & _).
    destruct (js_or_defined (prop data2 "reply") "") as [Hn Hu].
    destruct (Report_bot_message_text (js_or (prop data2 "reply") (VStr ""))
                (js_or (prop data2 "image") VNull) _ log1 Hn Hu Hl1)
      as (e & He & Hc & Htx).
    exists log1, e. unfold removed. split; [done|].
    assert (Hu' : u' = _) by (apply Report_auto_report_resume_ok; done).
    rewrite Hu'. split; [done|]. split; [done|]. split; [done|].
    destruct (appendMessage_of_fields ReportClient bot
                (js_or (prop data2 "reply") (VStr "")) (js_or (prop data2 "image") VNull)
                ((removeMessage loadingId2 u).1)) as (Hi2 & Ht2 & _).
    destruct (removeMessage_fields loadingId2 u) as (_ & Hi3 & Ht3 & _).
    cbv zeta in *. simpl appendMessage_of in *. split; congruence.
  - apply Recommend_resume_same_pending.
Qed.

Lemma report_flag_requests_report_once_witness :
  let w := Report.handle (EvTimer 0)
             (Report.handle EvLoad
                (script_start (Some (Some "kim")) (Some "") true (Some []) [] [])) in
  let data := VObj (list_to_map [("reply", VStr "리포트를 만들게");
                                 ("needs_report_generation", VBool true)]) in
  timers ((Report.sendMessage_resume "msg-0" (FetchResponse 200 (Returned data)) w).1)
  = [(500%N, TAutoReport)] /\
  inflight ((Report.run_task TAutoReport w).1)
  = (inflight w ++ [(chat_request "" (VStr "kim"), KReport "msg-1")])%list.
Proof.
  intros w data.
  assert (Hsub : substring_check (js_or (prop data "reply") (VStr "")) = Returned tt)
    by (vm_compute; reflexivity).
  assert (Hlog : chatLog w = Some [bot_message "msg-0" thinking])
    by (vm_compute; reflexivity).
  destruct (report_flag_requests_report_once w w w "msg-0" "msg-0" 200 200
              (list_to_map [("reply", VStr "리포트를 만들게");
                            ("needs_report_generation", VBool true)])
              (list_to_map [("reply", VStr "report")])
              [bot_message "msg-0" thinking] [] (FetchFailed "offline")
              eq_refl Hsub Hlog)
    as (_ & Ht & Hi & _).
  split; [exact Ht | exact Hi].
Defined.

(** C2 as stated fails on the first variant: a reply whose
    [needs_report_generation] is [true] and that has no
    [program_recommendation] is rendered, and then no timeout is pending
    and no request is under way: the follow-up is never sent. *)
Lemma Recommend_ignores_report_flag :
  let w := Recommend.handle (EvTimer 0)
             (Recommend.handle EvLoad
                (script_start (Some (Some "kim")) (Some "") true (Some []) [] [])) in
  let data := VObj (list_to_map [("reply", VStr "리포트를 만들게");
                                 ("needs_report_generation", VBool true)]) in
  let w' := Recommend.handle (EvSettle 0 (FetchResponse 200 (Returned data))) w in
  is_true (prop data "needs_report_generation") = true /\
  prop data "program_recommendation" = VUndefined /\
  chatLog w' = Some [bot_message "msg-1" "리포트를 만들게"] /\
  timers w' = [] /\ inflight w' = [].
Proof. vm_compute. done. Qed.

(** ** Requests under way and their loading messages (C6) *)

Lemma resume_step_refl id w : resume_step id w w.
Proof. repeat split; try done; lia. Qed.

Lemma resume_step_trans id w1 w2 w3 :
  resume_step id w1 w2 -> resume_step id w2 w3 -> resume_step id w1 w3.
Proof.
  intros (Hi & Hc & Hn & Hl) (Hi' & Hc' & Hn' & Hl').
  split; [congruence|]. split; [lia|]. split; [by rewrite Hn'|]. auto.
Qed.

Lemma elem_of_delete_other {A} (l : list A) i x y :
  l !! i = Some y -> x <> y -> x ∈ l -> x ∈ delete i l.
Proof.
  intros Hi Hne Hx. apply list_elem_of_lookup in Hx as [j Hj].
  assert (j <> i) by (intros ->; congruence).
  apply list_elem_of_lookup.
  destruct (decide (j < i)).
  - exists j. by rewrite list_lookup_delete_lt.
  - exists (pred j). rewrite list_lookup_delete_ge by lia.
    replace (S (pred j)) with j by lia. done.
Qed.

Lemma resume_step_remove id : keeps (resume_step id) (removeMessage id).
Proof.
  intros w. rewrite removeMessage_world.
  destruct (getElementById id w) as [[i|i|i]|] eqn:E;
    try apply resume_step_refl; try (repeat split; try done; simpl; lia).
  unfold getElementById in E. case_bool_decide; [done|].
  destruct (find_id id (before w)); [done|].
  destruct (find_id id (default [] (chatLog w))) as [j|] eqn:El; [|by destruct (find_id id (after w))].
  simplify_eq. apply find_id_Some in El as (e & He & Hid & _).
  split; [done|]. split; [simpl; lia|]. split.
  { simpl. by destruct (chatLog w). }
  intros s Hs Hin. unfold log_of in *. simpl.
  destruct (chatLog w) as [log|]; simpl in *; [|done].
  rewrite ids_of_delete. apply (elem_of_delete_other _ _ _ id); [|done|done].
  unfold ids_of. rewrite list_lookup_fmap, He. simpl. by rewrite Hid.
Qed.

Lemma appended_log_ids c sender text imageSrc w :
  ids_of <$> chatLog (appended c sender text imageSrc w)
  = (fun l => l ++ [msg_id (messageIdCounter w)])%list <$> (ids_of <$> chatLog w).
Proof.
  unfold appended. destruct c; simpl.
  - destruct (Recommend_appendMessage_eq sender text imageSrc w)
      as (w1 & (_ & _ & Hl) & _ & _ & ->).
    simpl. rewrite <- Hl. destruct (chatLog w1); simpl; [|done].
    unfold ids_of. by rewrite fmap_app.
  - unfold Report.appendMessage, mbind, M_bind, bind, reads, modify. simpl.
    destruct (chatLog w); simpl; [|done]. unfold ids_of. by rewrite fmap_app.
Qed.

Lemma appended_log_of c sender text imageSrc w :
  ids_of (log_of (appended c sender text imageSrc w))
  = match chatLog w with
    | Some l => (ids_of l ++ [msg_id (messageIdCounter w)])%list
    | None => []
    end.
Proof.
  pose proof (appended_log_ids c sender text imageSrc w) as H.
  unfold log_of. destruct (chatLog (appended c sender text imageSrc w)), (chatLog w);
    simpl in *; by simplify_eq.
Qed.

Lemma appended_none c sender text imageSrc w :
  chatLog (appended c sender text imageSrc w) = None <-> chatLog w = None.
Proof.
  pose proof (appended_log_ids c sender text imageSrc w) as H.
  destruct (chatLog (appended c sender text imageSrc w)), (chatLog w); simpl in *; done.
Qed.

Lemma appended_counter c sender text imageSrc w :
  messageIdCounter (appended c sender text imageSrc w) = js_incr (messageIdCounter w).
Proof. apply appendMessage_of_result. Qed.

Lemma resume_step_append id c sender text imageSrc :
  keeps (resume_step id) (appendMessage_of c sender text imageSrc).
Proof.
  intros w. fold (appended c sender text imageSrc w).
  split; [apply appendMessage_of_fields|].
  split; [rewrite appended_counter; apply js_incr_le|].
  split; [apply appended_none|].
  intros s _ Hs. rewrite appended_log_of. unfold log_of in Hs.
  destruct (chatLog w); simpl in *; [|done]. apply elem_of_app. by left.
Qed.

Lemma resume_keeps c k r : keeps (resume_step (cont_id k)) (resume_of c k r).
Proof.
  destruct c, k as [id|id]; simpl;
    unfold Recommend.sendMessage_resume, Recommend.sendMessage_try,
      Report.sendMessage_resume, Report.sendMessage_try, Report.auto_report_resume;
    repeat first
      [ apply (keeps_ret _ (resume_step_refl id))
      | apply (keeps_lift _ (resume_step_refl id))
      | apply resume_step_remove
      | apply (resume_step_append id RecommendClient)
      | apply (resume_step_append id ReportClient)
      | apply (keeps_bind _ (resume_step_trans id)); [|intros ?]
      | apply (keeps_try_catch _ (resume_step_trans id)); [|intros ?]
      | case_match
      | (intros ?; repeat split; try done; simpl; lia) ].
Qed.

Lemma pending_mono w w' :
  inflight w' = inflight w ->
  (messageIdCounter w <= messageIdCounter w')%N ->
  (chatLog w' = None <-> chatLog w = None) ->
  (forall s, s ∈ pending_ids w -> s ∈ ids_of (log_of w) -> s ∈ ids_of (log_of w')) ->
  pending_invariant w -> pending_invariant w'.
Proof.
  intros Hi Hc Hn Hl [P1 P2 P3]. unfold pending_ids in *.
  split; unfold pending_ids; rewrite ?Hi.
  - intros s Hs. destruct (P1 s Hs) as (n & -> & Hlt). exists n. split; [done | lia].
  - done.
  - intros Hsome s Hs. apply Hl; [done|]. apply P3; [|done]. by rewrite <- Hn.
Qed.

Lemma pending_resumed id w w' :
  resume_step id w w' -> id ∉ pending_ids w ->
  pending_invariant w -> pending_invariant w'.
Proof.
  intros (Hi & Hc & Hn & Hl) Hid. apply pending_mono; try done.
  intros s Hs. apply Hl. by intros ->.
Qed.

Lemma pending_appended c sender text imageSrc w :
  pending_invariant w -> pending_invariant (appended c sender text imageSrc w).
Proof.
  destruct (resume_step_append "" c sender text imageSrc w) as (Hi & Hc & Hn & Hl).
  fold (appended c sender text imageSrc w) in *.
  apply pending_mono; try done.
  intros s _ Hs. rewrite appended_log_of. unfold log_of in Hs.
  destruct (chatLog w); simpl in *; [|done]. apply elem_of_app. by left.
Qed.

Lemma pending_same w w' :
  inflight w' = inflight w -> chatLog w' = chatLog w ->
  messageIdCounter w' = messageIdCounter w ->
  pending_invariant w -> pending_invariant w'.
Proof.
  intros Hi Hl Hc. apply pending_mono; [done | lia | by rewrite Hl |].
  unfold log_of. by rewrite Hl.
Qed.

Lemma pending_delete w i rq k :
  inflight w !! i = Some (rq, k) ->
  pending_invariant w ->
  pending_invariant (set_inflight (delete i (inflight w)) w) /\
  (cont_id k ∉ pending_ids (set_inflight (delete i (inflight w)) w)) /\
  (chatLog w <> None -> cont_id k ∈ ids_of (log_of w)) /\
  is_msg_id (cont_id k).
Proof.
  intros Hi [P1 P2 P3]. unfold pending_ids in *. simpl.
  assert (Hk : (fun rk : Request * Cont => cont_id rk.2) <$> inflight w !! i
               = Some (cont_id k)).
  { by rewrite Hi. }
  rewrite <- list_lookup_fmap in Hk.
  rewrite list_fmap_delete.
  set (ids := (fun rk : Request * Cont => cont_id rk.2) <$> inflight w) in *.
  assert (Hin : cont_id k ∈ ids) by (by eapply list_elem_of_lookup_2).
  split; [|split; [|split]].
  - split; unfold pending_ids; simpl; rewrite ?list_fmap_delete; fold ids.
    + intros s Hs. apply P1. by eapply list_elem_of_delete_inv.
    + eapply sublist_NoDup; [done | apply sublist_delete].
    + intros Hsome s Hs. apply P3; [done|]. by eapply list_elem_of_delete_inv.
  - rewrite delete_take_drop. rewrite <- (take_drop_middle ids i (cont_id k) Hk) in P2.
    apply NoDup_app in P2 as (_ & Hdis & Hr). apply NoDup_cons in Hr as [Hnot _].
    intros Hmem. apply elem_of_app in Hmem as [Hmem|Hmem]; [|done].
    apply (Hdis _ Hmem). by left.
  - intros Hsome. by apply P3.
  - destruct (P1 _ Hin) as (n & -> & _). by exists n.
Qed.

Lemma pending_push_gen w rq k :
  pending_invariant w ->
  (exists n, cont_id k = msg_id n /\ (n < messageIdCounter w)%N) ->
  cont_id k ∉ pending_ids w ->
  (chatLog w <> None -> cont_id k ∈ ids_of (log_of w)) ->
  pending_invariant (set_inflight (inflight w ++ [(rq, k)]) w).
Proof.
  intros [P1 P2 P3] Hn Hfresh Hlog.
  assert (E : pending_ids (set_inflight (inflight w ++ [(rq, k)]) w)
              = (pending_ids w ++ [cont_id k])%list).
  { unfold pending_ids. simpl. by rewrite fmap_app. }
  split; rewrite E.
  - intros s Hs. apply elem_of_app in Hs as [Hs|Hs]; [by apply P1|].
    by apply list_elem_of_singleton in Hs as ->.
  - apply NoDup_app. split; [done|]. split; [|apply NoDup_singleton].
    intros s Hs Hin. by apply list_elem_of_singleton in Hin as ->.
  - intros Hsome s Hs. change (log_of (set_inflight (inflight w ++ [(rq, k)]) w))
      with (log_of w).
    apply elem_of_app in Hs as [Hs|Hs]; [by apply P3|].
    apply list_elem_of_singleton in Hs as ->. by apply Hlog.
Qed.

Lemma pending_push c text w rq (K : string -> Cont) :
  (forall id, cont_id (K id) = id) ->
  (messageIdCounter w < 2 ^ 53)%N ->
  pending_invariant w ->
  let w1 := appended c bot text VNull w in
  pending_invariant
    (set_inflight (inflight w1 ++ [(rq, K (msg_id (messageIdCounter w)))]) w1).
Proof.
  intros HK Hlt Hw w1.
  assert (Hc : messageIdCounter w1 = (messageIdCounter w + 1)%N).
  { unfold w1. rewrite appended_counter. unfold js_incr.
    by rewrite (proj2 (N.ltb_lt _ _) Hlt). }
  assert (Hold : pending_ids w1 = pending_ids w).
  { unfold pending_ids, w1, appended.
    by destruct (appendMessage_of_fields c bot text VNull w) as (-> & _). }
  apply pending_push_gen; rewrite ?HK.
  - by apply pending_appended.
  - exists (messageIdCounter w). split; [done | lia].
  - rewrite Hold. intros Hin. destruct Hw as [Q1 _ _].
    destruct (Q1 _ Hin) as (n & E & Hn). apply msg_id_inj in E. lia.
  - intros Hsome. unfold w1 in *. rewrite appended_log_of.
    destruct (chatLog w) eqn:El.
    + apply elem_of_app. right. by apply list_elem_of_singleton.
    + exfalso. apply Hsome. by apply appended_none.
Qed.

Lemma sendMessage_init c w :
  (sendMessage_of c true w).1
  = (let w1 := appended c bot (VStr thinking) VNull w in
     set_inflight
       (inflight w1 ++ [(chat_request "init" (username w1),
                         KSend (msg_id (messageIdCounter w)))]) w1).
Proof.
  destruct c; simpl; unfold Recommend.sendMessage, Report.sendMessage, fetch;
    [change Recommend.appendMessage with (appendMessage_of RecommendClient)
    |change Report.appendMessage with (appendMessage_of ReportClient)];
    mrun; reflexivity.
Qed.

Lemma sendMessage_typed c w :
  (sendMessage_of c false w).1
  = match userMessageInput w with
    | None => w
    | Some value =>
        if bool_decide (trim value = "") then w
        else
          let w2 := set_input (Some "")
                      (appended c user (VStr (trim value)) VNull w) in
          let w3 := appended c bot (VStr thinking) VNull w2 in
          set_inflight
            (inflight w3 ++ [(chat_request (trim value) (username w3),
                              KSend (msg_id (messageIdCounter w2)))]) w3
    end.
Proof.
  destruct c; simpl; unfold Recommend.sendMessage, Report.sendMessage, fetch;
    [change Recommend.appendMessage with (appendMessage_of RecommendClient)
    |change Report.appendMessage with (appendMessage_of ReportClient)];
    mrun; destruct (userMessageInput w) as [value|]; try reflexivity;
    mrun; destruct (bool_decide (trim value = "")); mrun; reflexivity.
Qed.

Lemma js_incr_bound c : (js_incr c < 2 ^ 53)%N -> (c < 2 ^ 53)%N.
Proof. intros H. pose proof (js_incr_below c H). pose proof (js_incr_le c). lia. Qed.

Lemma pending_sendMessage c isInitial w :
  (messageIdCounter ((sendMessage_of c isInitial w).1) < 2 ^ 53)%N ->
  pending_invariant w -> pending_invariant ((sendMessage_of c isInitial w).1).
Proof.
  destruct isInitial.
  - rewrite sendMessage_init. cbv zeta. intros Hlt Hw.
    apply (pending_push c (VStr thinking) w _ KSend); [done| |done].
    simpl in Hlt. rewrite appended_counter in Hlt. by apply js_incr_bound.
  - rewrite sendMessage_typed. destruct (userMessageInput w) as [value|]; [|done].
    destruct (bool_decide (trim value = "")); [done|]. cbv zeta. intros Hlt Hw.
    apply (pending_push c (VStr thinking) _ _ KSend); [done| |].
    + simpl in Hlt. rewrite appended_counter in Hlt. by apply js_incr_bound.
    + eapply pending_same; [..|apply (pending_appended c user (VStr (trim value)) VNull w Hw)];
        done.
Qed.

Lemma pending_run_task c t w :
  (messageIdCounter ((run_task_of c t w).1) < 2 ^ 53)%N ->
  pending_invariant w -> pending_invariant ((run_task_of c t w).1).
Proof.
  destruct t.
  - assert (E : (run_task_of c TLoadCheck w).1
                = match chatLog w with
                  | Some [] => (sendMessage_of c true w).1
                  | _ => w
                  end).
    { destruct c; simpl; unfold Recommend.load_check, Report.load_check;
        mrun; by destruct (chatLog w) as [[|]|]. }
    rewrite E. destruct (chatLog w) as [[|]|]; try done. apply pending_sendMessage.
  - destruct c; [done|].
    change (run_task_of ReportClient TAutoReport w) with (Report.auto_report w).
    rewrite Report_auto_report_world. cbv zeta.
    intros Hlt Hw.
    change Report.appendMessage with (appendMessage_of ReportClient).
    fold (appended ReportClient bot (VStr thinking) VNull w).
    assert (Hu : username w = username (appended ReportClient bot (VStr thinking) VNull w))
      by done.
    rewrite Hu.
    apply (pending_push ReportClient (VStr thinking) w _ KReport); [done| |done].
    simpl in Hlt. by apply js_incr_bound.
Qed.

Lemma pending_handle c e w :
  (messageIdCounter (handle_of c e w) < 2 ^ 53)%N ->
  pending_invariant w -> pending_invariant (handle_of c e w).
Proof.
  intros Hlt Hw.
  assert (E : handle_of c e w =
    match e with
    | EvLoad => (setTimeout TLoadCheck 500 w).1
    | EvTimer i =>
        match timers w !! i with
        | Some (_, t) => (run_task_of c t (set_timers (delete i (timers w)) w)).1
        | None => w
        end
    | EvSettle i r =>
        match inflight w !! i with
        | Some (_, k) => (resume_of c k r (set_inflight (delete i (inflight w)) w)).1
        | None => w
        end
    | EvType s =>
        match userMessageInput w with
        | Some _ => set_input (Some s) w
        | None => w
        end
    | EvEnter =>
        match userMessageInput w with
        | Some _ => (sendMessage_of c false w).1
        | None => w
        end
    | EvClick => if sendBtn w then (sendMessage_of c false w).1 else w
    end) by (by destruct c).
  rewrite E in *. clear E. destruct e as [|i|i r|s| |].
  - by apply (pending_same w).
  - destruct (timers w !! i) as [[ms t]|]; [|done].
    apply pending_run_task; [done|]. by apply (pending_same w).
  - destruct (inflight w !! i) as [[rq k]|] eqn:Hi; [|done].
    destruct (pending_delete w i rq k Hi Hw) as (Hw0 & Hnot & _).
    eapply pending_resumed; [apply resume_keeps | done | done].
  - destruct (userMessageInput w); [|done]. by apply (pending_same w).
  - destruct (userMessageInput w); [|done]. by apply pending_sendMessage.
  - destruct (sendBtn w); [|done]. by apply pending_sendMessage.
Qed.

Lemma reachable_pending c w :
  reachable (handle_of c) w -> (messageIdCounter w < 2 ^ 53)%N -> pending_invariant w.
Proof.
  intros Hr. induction Hr as [| w e Hr IH]; intros Hc.
  - split; unfold pending_ids; simpl.
    + intros s Hs. by apply elem_of_nil in Hs.
    + constructor.
    + intros _ s Hs. by apply elem_of_nil in Hs.
  - apply pending_handle; [done|]. apply IH.
    destruct (ids_step_handle c e w) as [Hle _]. lia.
Qed.

Lemma find_id_in id l : id ∈ ids_of l -> is_Some (find_id id l).
Proof.
  intros Hin. apply list_elem_of_fmap in Hin as (e & -> & He).
  unfold find_id. apply fmap_is_Some. by eapply list_find_elem_of.
Qed.

Lemma find_id_not_in id l : id ∉ ids_of l -> find_id id l = None.
Proof.
  intros Hnot. destruct (find_id id l) as [i|] eqn:E; [|done].
  exfalso. apply Hnot. apply find_id_Some in E as (e & He & <- & _).
  apply list_elem_of_fmap. exists e. split; [done|]. by eapply list_elem_of_lookup_2.
Qed.

(** The loading message of a request under way is found in the log. *)
Lemma pending_found w id log :
  ids_invariant w -> is_msg_id id -> chatLog w = Some log -> id ∈ ids_of log ->
  exists j e, getElementById id w = Some (InLog j) /\ log !! j = Some e /\ el_id e = id.
Proof.
  intros [I1 _ _] Hmsg Hlog Hin. unfold getElementById.
  destruct Hmsg as [n ->]. rewrite bool_decide_eq_false_2 by apply msg_id_nonempty.
  rewrite find_id_not_in.
  2:{ intros Hb. apply (I1 (msg_id n)); [|by exists n].
      unfold ids_of in *. rewrite fmap_app. apply elem_of_app. by left. }
  rewrite Hlog. simpl.
  destruct (find_id_in _ _ Hin) as [j Hj]. rewrite Hj.
  apply find_id_Some in Hj as (e & He & Hid & _). eauto.
Qed.

(** ** The composite index (C3) *)

(** C3.  For five scores in [0,100] the composite index is
    0.30·attachment + 0.25·regret + 0.20·unresolved + 0.15·comparison +
    0.10·avoidance, the five weights add up to 1, and the index lies in
    [0,100]. *)
Theorem composite_index_weighted_sum (s : DimensionScores) :
  (forall d, 0 <= s d <= 100)%Q ->
  (composite_index s ==
     0.30 * s Attachment + 0.25 * s Regret + 0.20 * s Unresolved
     + 0.15 * s Comparison + 0.10 * s Avoidance)%Q /\
  (fold_right Qplus 0 (List.map weight dimensions) == 1)%Q /\
  (0 <= composite_index s <= 100)%Q.
Proof.
  intros H.
  pose proof (H Attachment). pose proof (H Regret). pose proof (H Unresolved).
  pose proof (H Comparison). pose proof (H Avoidance).
  unfold composite_index, dimensions, weight. simpl.
  repeat split; lra.
Qed.

Lemma composite_index_weighted_sum_witness :
  (composite_index (fun d => match d with Regret => 60 | _ => 70 end) == 67.5)%Q.
Proof.
  destruct (composite_index_weighted_sum
              (fun d => match d with Regret => 60 | _ => 70 end)%Q) as (H & _).
  - intros d. destruct d; split; vm_compute; discriminate.
  - rewrite H. vm_compute. reflexivity.
Defined.

(** ** The tier lookup (C4) *)

Lemma Qle_bool_false a b : Qle_bool a b = false -> (b < a)%Q.
Proof.
  intros H. apply Qnot_le_lt. intros Hle. apply Qle_bool_iff in Hle. congruence.
Qed.

(** C4.  On [0,100] the lookup is total and picks the one band the value
    falls in: each value lies in the cut of its tier and in no other cut,
    the cuts being [0,20], (20,40], (40,60], (60,80] and (80,100]; the
    boundary values 20, 40, 60 and 80 go to the lower band; and a whole
    percentage lies in the printed band 0-20, 21-40, 41-60, 61-80 or 81-100
    of its tier and in no other. *)
Theorem tier_lookup_partitions (total : Q) :
  (0 <= total <= 100)%Q ->
  in_cut total (tier total) /\
  (forall t, in_cut total t -> t = tier total) /\
  tier 20 = FullyResolved /\ tier 40 = GentleAfterglow /\
  tier 60 = ModerateAttachment /\ tier 80 = StrongAttachment /\
  (forall n : Z, (total == inject_Z n)%Q ->
     in_band n (tier total) /\ forall t, in_band n t -> t = tier total).
Proof.
  intros [H0 H100].
  assert (Hcut : in_cut total (tier total)).
  { unfold tier.
    destruct (Qle_bool total 20) eqn:E1; [apply Qle_bool_iff in E1; by split|].
    apply Qle_bool_false in E1.
    destruct (Qle_bool total 40) eqn:E2; [apply Qle_bool_iff in E2; by split|].
    apply Qle_bool_false in E2.
    destruct (Qle_bool total 60) eqn:E3; [apply Qle_bool_iff in E3; by split|].
    apply Qle_bool_false in E3.
    destruct (Qle_bool total 80) eqn:E4; [apply Qle_bool_iff in E4; by split|].
    apply Qle_bool_false in E4. by split. }
  assert (Huniq : forall t, in_cut total t -> t = tier total).
  { intros t Ht. destruct t, (tier total); simpl in *; try reflexivity;
      exfalso; lra. }
  split; [done|]. split; [done|].
  split; [reflexivity|]. split; [reflexivity|]. split; [reflexivity|].
  split; [reflexivity|].
  intros n Hn.
  assert (Hband : forall t, in_band n t <-> in_cut total t).
  { intros t. unfold in_band.
    destruct t; simpl; rewrite Hn;
      change 0%Q with (inject_Z 0); change 20%Q with (inject_Z 20);
      change 40%Q with (inject_Z 40); change 60%Q with (inject_Z 60);
      change 80%Q with (inject_Z 80); change 100%Q with (inject_Z 100);
      rewrite <- ?Zle_Qle, <- ?Zlt_Qlt; lia. }
  split; [by apply Hband|]. intros t Ht. apply Huniq. by apply Hband.
Qed.

Lemma tier_lookup_partitions_witness :
  in_cut 65.5 (tier 65.5) /\ tier 65.5 = StrongAttachment.
Proof.
  destruct (tier_lookup_partitions 65.5%Q) as (H & _).
  - split; vm_compute; discriminate.
  - split; [exact H | reflexivity].
Defined.

(** ** Retrieval (C5) *)


(** * Further properties of the script *)

(** ** Sending: the part of [sendMessage] before the request *)

Lemma sendMessage_of_returns c w value :
  userMessageInput w = Some value ->
  (sendMessage_of c false w).2 = Returned tt.
Proof.
  intros Hv.
  destruct c; simpl; unfold Recommend.sendMessage, Report.sendMessage, fetch;
    [change Recommend.appendMessage with (appendMessage_of RecommendClient)
    |change Report.appendMessage with (appendMessage_of ReportClient)];
    mrun; rewrite Hv; mrun; destruct (bool_decide (trim value = "")); mrun; reflexivity.
Qed.

(** X1.  When the input holds nothing but white space (its trimmed value is
    empty), [sendMessage] returns at once: the world stays as it is, no
    message is shown, the input is not cleared and nothing is sent,
    whether Enter was pressed or the button clicked. *)
Theorem blank_input_sends_nothing (c : Client) (w : World) (value : string) :
  userMessageInput w = Some value ->
  trim value = "" ->
  sendMessage_of c false w = (w, Returned tt) /\
  handle_of c EvEnter w = w /\ handle_of c EvClick w = w.
Proof.
  intros Hv Ht.
  assert (E : sendMessage_of c false w = (w, Returned tt)).
  { pose proof (sendMessage_typed c w) as H1. pose proof (sendMessage_of_returns c w value Hv) as H2.
    rewrite Hv, Ht in H1. simpl in H1. destruct (sendMessage_of c false w). simpl in *. congruence. }
  split; [done|]. destruct c; simpl in *; rewrite Hv, ?E; simpl; split; try done;
    by destruct (sendBtn w).
Qed.

Lemma blank_input_sends_nothing_witness :
  let w := script_start None (Some "  	　 ") true (Some []) [] [] in
  Report.handle EvEnter w = w.
Proof.
  intros w.
  destruct (blank_input_sends_nothing ReportClient w "  	　 " eq_refl) as (_ & H & _).
  - vm_compute. reflexivity.
  - exact H.
Defined.

(** X2.  On a page with a chat log, [sendMessage] on a non-blank input
    appends the user's message, whose text is the trimmed input, and then
    the loading message; it clears the input and sends exactly one request,
    which carries the trimmed input and the page's [username] and whose
    continuation holds the id of the loading message.  The counter has
    been incremented twice; the rest of the page, the timeouts and the
    address stay. *)
Theorem typed_message_is_sent_trimmed
    (c : Client) (w : World) (value : string) (log : list Elem) :
  userMessageInput w = Some value ->
  trim value <> "" ->
  chatLog w = Some log ->
  let n := messageIdCounter w in
  let w' := ((sendMessage_of c false w).1) in
  chatLog w' = Some (log ++ [user_message (msg_id n) (trim value);
                             bot_message (msg_id (js_incr n)) thinking])%list /\
  el_textContent (user_message (msg_id n) (trim value)) = trim value /\
  userMessageInput w' = Some "" /\
  inflight w' = (inflight w ++
                 [(chat_request (trim value) (username w),
                   KSend (msg_id (js_incr n)))])%list /\
  messageIdCounter w' = js_incr (js_incr n) /\
  before w' = before w /\ after w' = after w /\
  timers w' = timers w /\ location_href w' = location_href w /\
  username w' = username w.
Proof.
  intros Hv Ht Hlog n w'.
  assert (Hb : bool_decide (trim value = "") = false) by (by apply bool_decide_eq_false_2).
  split; [|split].
  - unfold w'. destruct c; simpl;
      unfold Recommend.sendMessage, Recommend.appendMessage, Report.sendMessage,
        Report.appendMessage, fetch, mbind, M_bind, bind, reads, modify, mret, M_ret, ret;
      simpl; rewrite Hv; simpl; rewrite Hb; simpl; rewrite Hlog; simpl;
      by rewrite <- app_assoc.
  - unfold el_textContent, user_message, set_textContent. simpl. rewrite Hb. simpl.
    done.
  - unfold w'. destruct c; simpl;
      unfold Recommend.sendMessage, Recommend.appendMessage, Report.sendMessage,
        Report.appendMessage, fetch, mbind, M_bind, bind, reads, modify, mret, M_ret, ret;
      simpl; rewrite Hv; simpl; rewrite Hb; simpl; done.
Qed.

Lemma typed_message_is_sent_trimmed_witness :
  let w := script_start (Some (Some "kim")) (Some "  안녕  ") true (Some []) [] [] in
  chatLog (Recommend.handle EvEnter w)
  = Some [user_message "msg-0" "안녕"; bot_message "msg-1" thinking] /\
  inflight (Recommend.handle EvEnter w)
  = [(chat_request "안녕" (VStr "kim"), KSend "msg-1")].
Proof.
  intros w.
  assert (Ht : trim "  안녕  " <> "") by (vm_compute; discriminate).
  destruct (typed_message_is_sent_trimmed RecommendClient w "  안녕  " [] eq_refl Ht eq_refl)
    as (H1 & _ & _ & H2 & _).
  split; [exact H1 | exact H2].
Defined.

(** X3.  On a page without [#user-message], [sendMessage] throws on reading
    the input's value before anything is changed; typing, Enter and a click
    on the send button leave the world as it is. *)
Theorem missing_input_changes_nothing (c : Client) (w : World) (s : string) :
  userMessageInput w = None ->
  (exists e, sendMessage_of c false w = (w, Threw e)) /\
  handle_of c EvEnter w = w /\ handle_of c EvClick w = w /\
  handle_of c (EvType s) w = w.
Proof.
  intros Hv.
  assert (E : sendMessage_of c false w = (w, Threw (TypeError "Cannot read properties of null"))).
  { destruct c; simpl; unfold Recommend.sendMessage, Report.sendMessage; mrun;
      rewrite Hv; reflexivity. }
  split; [eauto|]. destruct c; simpl in *; rewrite Hv, ?E; simpl; repeat split;
    by destruct (sendBtn w).
Qed.

Lemma missing_input_changes_nothing_witness :
  let w := script_start None None true (Some []) [] [] in
  Recommend.handle EvClick w = w.
Proof.
  intros w.
  destruct (missing_input_changes_nothing RecommendClient w "" eq_refl) as (_ & _ & H & _).
  exact H.
Defined.

Lemma sent_input_cleared c w value :
  userMessageInput w = Some value ->
  exists v, userMessageInput ((sendMessage_of c false w).1) = Some v /\ trim v = "" /\
    (trim value = "" -> (sendMessage_of c false w).1 = w).
Proof.
  intros Hv. rewrite sendMessage_typed, Hv.
  destruct (bool_decide (trim value = "")) eqn:E.
  - apply bool_decide_eq_true in E. exists value. done.
  - exists "". cbv zeta. split; [|split; [done|]].
    + change (userMessageInput (set_inflight ?l ?w)) with (userMessageInput w).
      unfold appended.
      destruct (appendMessage_of_fields c bot (VStr thinking) VNull
        (set_input (Some "") (appended c user (VStr (trim value)) VNull w))) as (_&_&_&H&_).
      cbv zeta in H. unfold appended in H. rewrite H. done.
    + intros Ht. apply bool_decide_eq_false in E. done.
Qed.

Lemma handle_of_eq c e w :
  handle_of c e w =
    match e with
    | EvLoad => (setTimeout TLoadCheck 500 w).1
    | EvTimer i =>
        match timers w !! i with
        | Some (_, t) => (run_task_of c t (set_timers (delete i (timers w)) w)).1
        | None => w
        end
    | EvSettle i r =>
        match inflight w !! i with
        | Some (_, k) => (resume_of c k r (set_inflight (delete i (inflight w)) w)).1
        | None => w
        end
    | EvType s =>
        match userMessageInput w with
        | Some _ => set_input (Some s) w
        | None => w
        end
    | EvEnter =>
        match userMessageInput w with
        | Some _ => (sendMessage_of c false w).1
        | None => w
        end
    | EvClick => if sendBtn w then (sendMessage_of c false w).1 else w
    end.
Proof. by destruct c. Qed.

Lemma appended_sendBtn c sender text imageSrc w :
  sendBtn (appended c sender text imageSrc w) = sendBtn w.
Proof.
  unfold appended. destruct c; simpl; [|done].
  unfold Recommend.appendMessage, Recommend.updateCharacterImage,
    mbind, M_bind, bind, reads, modify, mret, M_ret, ret.
  simpl. destruct sender; simpl; [done|].
  destruct (ToBoolean imageSrc); simpl; [|done].
  destruct (getElementById "character-image" _) as [l1|]; [|done]. simpl.
  destruct (getElementById "character-name" _) as [l2|]; simpl.
  - destruct l1, l2; done.
  - destruct l1; done.
Qed.

Lemma sendMessage_sendBtn c w :
  sendBtn ((sendMessage_of c false w).1) = sendBtn w.
Proof.
  rewrite sendMessage_typed. destruct (userMessageInput w) as [value|]; [|done].
  destruct (bool_decide (trim value = "")); [done|]. cbv zeta.
  change (sendBtn (set_inflight ?l ?w)) with (sendBtn w).
  rewrite appended_sendBtn.
  change (sendBtn (set_input ?l ?w)) with (sendBtn w).
  by rewrite appended_sendBtn.
Qed.

Lemma sendMessage_twice c w :
  (sendMessage_of c false ((sendMessage_of c false w).1)).1 = (sendMessage_of c false w).1.
Proof.
  destruct (userMessageInput w) as [value|] eqn:Hv.
  - destruct (sent_input_cleared c w value Hv) as (v & Hv1 & Ht & _).
    destruct (sent_input_cleared c _ v Hv1) as (_ & _ & _ & H). by apply H.
  - assert (E : (sendMessage_of c false w).1 = w) by (by rewrite sendMessage_typed, Hv).
    by rewrite !E.
Qed.

(** X4.  Pressing Enter or clicking the send button a second time, without
    typing in between, sends nothing more: the first send has cleared the
    input. *)
Theorem second_enter_sends_nothing (c : Client) (w : World) :
  handle_of c EvEnter (handle_of c EvEnter w) = handle_of c EvEnter w /\
  handle_of c EvClick (handle_of c EvClick w) = handle_of c EvClick w /\
  handle_of c EvClick (handle_of c EvEnter w) = handle_of c EvEnter w.
Proof.
  rewrite !(handle_of_eq c EvEnter w), !(handle_of_eq c EvClick w).
  pose proof (sendMessage_twice c w) as Htw.
  pose proof (sendMessage_sendBtn c w) as Hbtn.
  destruct (userMessageInput w) as [value|] eqn:Hv.
  - destruct (sent_input_cleared c w value Hv) as (v & Hv1 & _).
    rewrite !handle_of_eq, Hv1, Hbtn.
    destruct (sendBtn w) eqn:Hs; rewrite ?Hv, ?Hs, ?Hv1, ?Hbtn, ?Hs; repeat split; try done.
    all: try (rewrite handle_of_eq; rewrite ?Hv, ?Hs; done).
  - assert (E : (sendMessage_of c false w).1 = w) by (by rewrite sendMessage_typed, Hv).
    rewrite E. rewrite !handle_of_eq, Hv.
    destruct (sendBtn w) eqn:Hs; rewrite ?E, ?Hs, ?Hv; repeat split; try done.
    all: rewrite ?handle_of_eq, ?Hv, ?Hs, ?E; done.
Qed.

(** ** [removeMessage] and the document as a whole *)






Lemma getElementById_absent id w :
  id ∉ ids_of (all_elems w) -> getElementById id w = None.
Proof.
  intros Hnot. unfold getElementById. case_bool_decide; [done|].
  unfold all_elems, ids_of in Hnot. rewrite !fmap_app in Hnot.
  rewrite !not_elem_of_app in Hnot. destruct Hnot as (Hb & Hl & Ha).
  rewrite (find_id_not_in _ _ Hb). fold (log_of w). rewrite (find_id_not_in _ _ Hl).
  by rewrite (find_id_not_in _ _ Ha).
Qed.

Lemma removed_twice w n :
  ids_invariant w -> removed (msg_id n) (removed (msg_id n) w) = removed (msg_id n) w.
Proof.
  intros Hw. destruct (removeMessage_msg w n Hw) as (_ & _ & _ & Hnot). cbv zeta in Hnot.
  fold (removed (msg_id n) w) in Hnot.
  unfold removed at 1. rewrite removeMessage_world.
  by rewrite getElementById_absent.
Qed.










(** ** The picture panel *)

Lemma find_id_ids id l l' : ids_of l' = ids_of l -> find_id id l' = find_id id l.
Proof.
  intros H. unfold find_id.
  assert (E : forall k, fst <$> list_find (fun e => el_id e = id) k
                        = fst <$> list_find (fun s => s = id) (ids_of k)).
  { intros k. unfold ids_of. rewrite list_find_fmap.
    by destruct (list_find _ k) as [[i e]|]. }
  by rewrite !E, H.
Qed.

Lemma getElementById_same_ids id w w1 :
  same_ids w w1 -> getElementById id w1 = getElementById id w.
Proof.
  intros (Hb & Ha & Hl). unfold getElementById.
  rewrite (find_id_ids id _ _ Hb), (find_id_ids id _ _ Ha).
  assert (E : find_id id (default [] (chatLog w1)) = find_id id (default [] (chatLog w))).
  { apply find_id_ids. destruct (chatLog w1), (chatLog w); simpl in *; by simplify_eq. }
  by rewrite E.
Qed.

Lemma alter_alter_comm {A} (f g : A -> A) i j (l : list A) :
  (forall x, f (g x) = g (f x)) ->
  alter f i (alter g j l) = alter g j (alter f i l).
Proof.
  intros H. destruct (decide (i = j)) as [->|Hne].
  - rewrite !list_alter_alter_eq. apply list_alter_ext; [|done]. intros x _. apply H.
  - by apply list_alter_alter_ne.
Qed.

Lemma alter_at_comm f g l1 l2 w :
  (forall x, f (g x) = g (f x)) ->
  alter_at f l1 (alter_at g l2 w) = alter_at g l2 (alter_at f l1 w).
Proof.
  intros H. destruct l1 as [i|i|i], l2 as [j|j|j]; try reflexivity;
    unfold alter_at, set_before, set_after, set_chatLog; simpl; f_equal.
  - by apply alter_alter_comm.
  - destruct (chatLog w); simpl; [|done]. f_equal. by apply alter_alter_comm.
  - by apply alter_alter_comm.
Qed.

Lemma alter_at_idemp f l w :
  (forall x, f (f x) = f x) -> alter_at f l (alter_at f l w) = alter_at f l w.
Proof.
  intros H.
  assert (E : forall i (k : list Elem), alter f i (alter f i k) = alter f i k).
  { intros i k. rewrite list_alter_alter_eq. apply list_alter_ext; [|done].
    intros x _. apply H. }
  destruct l as [i|i|i]; unfold alter_at, set_before, set_after, set_chatLog; simpl;
    f_equal; try apply E.
  destruct (chatLog w); simpl; [|done]. f_equal. apply E.
Qed.

Lemma classList_add_idemp c cs : classList_add c (classList_add c cs) = classList_add c cs.
Proof.
  unfold classList_add. destruct (bool_decide (c ∈ cs)) eqn:E; rewrite ?E; [done|].
  rewrite bool_decide_eq_true_2; [done|]. apply elem_of_app. right. by left.
Qed.

Lemma classList_add_in c cs : c ∈ classList_add c cs.
Proof.
  unfold classList_add. case_bool_decide; [done|]. apply elem_of_app. right. by left.
Qed.

Lemma updateCharacterImage_eq imageSrc w :
  Recommend.updateCharacterImage imageSrc w =
  (match getElementById "character-image" w with
   | Some img =>
       if ToBoolean imageSrc then
         match getElementById "character-name" w with
         | Some name => alter_at show_name name (alter_at (show_picture imageSrc) img w)
         | None => alter_at (show_picture imageSrc) img w
         end
       else w
   | None => w
   end, Returned tt).
Proof.
  unfold Recommend.updateCharacterImage. mrun.
  destruct (getElementById "character-image" w) as [l1|]; [|done].
  destruct (ToBoolean imageSrc); [|done]. mrun.
  destruct (getElementById "character-name" w) as [l2|]; done.
Qed.

Lemma elem_at_alter_at f l w :
  elem_at l (alter_at f l w) = f <$> elem_at l w.
Proof.
  destruct l as [i|i|i]; simpl; try apply list_lookup_alter_eq.
  unfold log_of. simpl. destruct (chatLog w); simpl; [apply list_lookup_alter_eq|].
  by rewrite lookup_nil.
Qed.

Lemma elem_at_alter_at_other f l l' w e :
  (forall x, el_id (f x) = el_id x) ->
  elem_at l w = Some e ->
  exists e', elem_at l (alter_at f l' w) = Some e' /\ el_id e' = el_id e /\
             (e' = e \/ e' = f e).
Proof.
  intros Hf He.
  assert (E : forall i j (k : list Elem), k !! i = Some e ->
            exists e', alter f j k !! i = Some e' /\ el_id e' = el_id e /\
                       (e' = e \/ e' = f e)).
  { intros i j k Hk. destruct (decide (j = i)) as [->|Hne].
    - exists (f e). rewrite list_lookup_alter_eq, Hk. auto.
    - exists e. rewrite list_lookup_alter_ne by done. auto. }
  destruct l as [i|i|i], l' as [j|j|j]; simpl in *; eauto.
  unfold log_of in *. simpl. destruct (chatLog w); simpl in *; eauto.
Qed.

Lemma getElementById_elem id w l :
  getElementById id w = Some l -> exists e, elem_at l w = Some e /\ el_id e = id.
Proof.
  unfold getElementById. case_bool_decide; [done|].
  destruct (find_id id (before w)) as [i|] eqn:Eb.
  { intros [= <-]. apply find_id_Some in Eb as (e & He & Hid & _). eauto. }
  fold (log_of w).
  destruct (find_id id (log_of w)) as [i|] eqn:El.
  { intros [= <-]. apply find_id_Some in El as (e & He & Hid & _). eauto. }
  destruct (find_id id (after w)) as [i|] eqn:Ea; [|done].
  intros [= <-]. apply find_id_Some in Ea as (e & He & Hid & _). eauto.
Qed.

(** X15.  [updateCharacterImage] does nothing for a falsy picture or on a
    page without [#character-image].  Otherwise the panel's picture gets
    the address as its [src] and the class [show].  In every case it
    returns, no element changes its id, the counter, the input, the
    requests, the timeouts and the address stay, and a second call with the
    same picture changes nothing more. *)
Theorem updateCharacterImage_touches_panel_only (imageSrc : Value) (w : World) :
  let w' := ((Recommend.updateCharacterImage imageSrc w).1) in
  (Recommend.updateCharacterImage imageSrc w).2 = Returned tt /\
  (ToBoolean imageSrc = false \/ getElementById "character-image" w = None -> w' = w) /\
  (forall img, ToBoolean imageSrc = true ->
     getElementById "character-image" w = Some img ->
     exists e, elem_at img w' = Some e /\ el_id e = "character-image" /\
               el_src e = Some (ToString imageSrc) /\ "show" ∈ el_classes e) /\
  same_ids w w' /\ messageIdCounter w' = messageIdCounter w /\
  inflight w' = inflight w /\ timers w' = timers w /\
  location_href w' = location_href w /\ userMessageInput w' = userMessageInput w /\
  (Recommend.updateCharacterImage imageSrc w').1 = w'.
Proof.
  intros w'.
  destruct (updateCharacterImage_same imageSrc w) as (Hs & Hc & Hr).
  destruct (updateCharacterImage_fields imageSrc w) as (Hi & Ht & Hh & Hu & _).
  split; [done|]. split; [|split; [|split; [done|split; [done|]]]].
  - unfold w'. rewrite updateCharacterImage_eq. simpl. intros [->| ->]; [|done].
    by destruct (getElementById "character-image" w).
  - intros img Hb Himg. unfold w'. rewrite updateCharacterImage_eq. simpl.
    rewrite Himg, Hb. destruct (getElementById_elem _ _ _ Himg) as (e & He & Hid).
    assert (E1 : elem_at img (alter_at (show_picture imageSrc) img w)
                 = Some (show_picture imageSrc e)).
    { by rewrite elem_at_alter_at, He. }
    destruct (getElementById "character-name" w) as [name|] eqn:Hname.
    + destruct (elem_at_alter_at_other show_name img name _ _ (fun x => eq_refl) E1)
        as (e' & He' & Hid' & Hcase).
      exists e'. split; [exact He'|]. split; [by rewrite Hid'|].
      destruct Hcase as [->| ->]; simpl; (split; [done|]);
        rewrite ?classList_add_idemp; apply classList_add_in.
    + exists (show_picture imageSrc e). split; [done|]. split; [done|]. split; [done|].
      apply classList_add_in.
  - cbv zeta in *. split; [done|]. split; [done|]. split; [done|]. split; [done|].
    fold w' in Hs. rewrite (updateCharacterImage_eq imageSrc w').
    rewrite !(getElementById_same_ids _ w w' Hs). simpl.
    unfold w'. rewrite updateCharacterImage_eq. simpl.
    destruct (getElementById "character-image" w) as [l1|]; [|done].
    destruct (ToBoolean imageSrc); [|done].
    assert (Hp : forall x, show_picture imageSrc (show_picture imageSrc x)
                           = show_picture imageSrc x).
    { intros x. unfold show_picture. simpl. by rewrite classList_add_idemp. }
    assert (Hn : forall x, show_name (show_name x) = show_name x).
    { intros x. unfold show_name. simpl. by rewrite classList_add_idemp. }
    destruct (getElementById "character-name" w) as [l2|].
    + rewrite (alter_at_comm (show_picture imageSrc) show_name) by done.
      rewrite (alter_at_idemp show_name) by done.
      by rewrite (alter_at_idemp (show_picture imageSrc)).
    + by rewrite alter_at_idemp.
Qed.

(** ** A page without a chat log *)

Lemma removed_none id w : same_log_presence w (removed id w).
Proof.
  unfold same_log_presence, removed. rewrite removeMessage_world.
  destruct (getElementById id w) as [[i|i|i]|]; simpl; try done.
  by destruct (chatLog w).
Qed.

Lemma same_log_presence_events c es w :
  same_log_presence w (run_events (handle_of c) es w).
Proof.
  apply (keeps_run_events same_log_presence); unfold same_log_presence.
  - done.
  - intros w1 w2 w3 H1 H2. by rewrite H2.
  - intros w1 w2 (_ & _ & H & _). by rewrite H.
  - intros c' s t i w1. apply appended_none.
  - intros id w1. apply removed_none.
Qed.

(** X17.  On a page without [#chat-log] nothing is ever shown:
    [appendMessage] still hands out an id and advances the counter but adds
    no element, the load check sends nothing, and no run of events brings a
    log about.  A typed message is posted all the same. *)
Theorem page_without_log_shows_nothing (c : Client) (w : World) :
  chatLog w = None ->
  (forall sender text imageSrc,
     (appendMessage_of c sender text imageSrc w).2
     = Returned (msg_id (messageIdCounter w)) /\
     messageIdCounter (appended c sender text imageSrc w)
     = js_incr (messageIdCounter w) /\
     chatLog (appended c sender text imageSrc w) = None) /\
  run_task_of c TLoadCheck w = (w, Returned tt) /\
  (forall es, chatLog (run_events (handle_of c) es w) = None) /\
  (forall value, userMessageInput w = Some value -> trim value <> "" ->
     inflight (handle_of c EvEnter w)
     = (inflight w ++
        [(chat_request (trim value) (username w),
          KSend (msg_id (js_incr (messageIdCounter w))))])%list).
Proof.
  intros Hlog. split; [|split; [|split]].
  - intros sender text imageSrc.
    destruct (appendMessage_of_result c sender text imageSrc w) as [H1 H2].
    split; [done|]. split; [done|]. by apply appended_none.
  - destruct c; simpl; unfold Recommend.load_check, Report.load_check; mrun;
      by rewrite Hlog.
  - intros es. by apply same_log_presence_events.
  - intros value Hv Ht. rewrite handle_of_eq, Hv, sendMessage_typed, Hv.
    rewrite bool_decide_eq_false_2 by done. cbv zeta. simpl. unfold appended.
    destruct (appendMessage_of_fields c bot (VStr thinking) VNull
      (set_input (Some "") (appended c user (VStr (trim value)) VNull w)))
      as (Hi & _ & _ & _ & Hu).
    destruct (appendMessage_of_fields c user (VStr (trim value)) VNull w)
      as (Hi' & _ & _ & _ & Hu').
    cbv zeta in *. unfold appended in *. rewrite Hi, Hu. simpl. rewrite Hi', Hu'.
    by destruct (appendMessage_of_result c user (VStr (trim value)) VNull w) as [_ ->].
Qed.

Lemma page_without_log_shows_nothing_witness :
  let w := script_start None (Some "hi") true None [] [] in
  chatLog (run_events Recommend.handle
             [EvLoad; EvTimer 0; EvEnter; EvSettle 0 (FetchFailed "offline")] w) = None /\
  inflight (Recommend.handle EvEnter w)
  = [(chat_request "hi" (VStr "사용자"), KSend "msg-1")].
Proof.
  intros w.
  destruct (page_without_log_shows_nothing RecommendClient w eq_refl) as (_ & _ & H1 & H2).
  split; [apply H1|]. apply (H2 "hi" eq_refl). vm_compute. discriminate.
Defined.

(** ** The modal dialogs *)

Lemma Modal_alter_frame d (i : nat) (p : list Modal.Node) :
  Modal.frame <$> alter (Modal.set_display d) i p = Modal.frame <$> p.
Proof.
  rewrite (list_fmap_alter Modal.frame (Modal.set_display d) id).
  - by apply list_alter_id.
  - apply Forall_forall. by intros.
Qed.

Lemma Modal_getElementById_frame id (p p' : list Modal.Node) :
  Modal.frame <$> p' = Modal.frame <$> p ->
  Modal.getElementById id p' = Modal.getElementById id p.
Proof.
  intros Hf. unfold Modal.getElementById. case_bool_decide; [done|].
  assert (E : forall k, fst <$> list_find (fun n => Modal.node_id n = id) k
                        = fst <$> list_find (fun x => x.1.1 = id) (Modal.frame <$> k)).
  { intros k. rewrite list_find_fmap. by destruct (list_find _ k) as [[i e]|]. }
  by rewrite !E, Hf.
Qed.

Lemma Modal_set_display_twice d d' (i : nat) (p : list Modal.Node) :
  alter (Modal.set_display d) i (alter (Modal.set_display d') i p)
  = alter (Modal.set_display d) i p.
Proof. rewrite list_alter_alter_eq. by apply list_alter_ext. Qed.

Lemma Modal_getElementById_Some id (p : list Modal.Node) i :
  Modal.getElementById id p = Some i ->
  exists n, p !! i = Some n /\ Modal.node_id n = id.
Proof.
  unfold Modal.getElementById. case_bool_decide; [done|]. intros Hf.
  apply fmap_Some in Hf as ([j n] & Hf & ->). apply list_find_Some in Hf as (Hl & Hn & _).
  eauto.
Qed.

(** X20.  [openModal] and [closeModal] change nothing but the [display] of
    the first element that carries the id: the ids, classes and data
    attributes of all elements and the [display] of every other element
    stay.  When no element carries the id they do nothing.  Closing undoes
    opening and the other way round: the later call decides. *)
Theorem open_and_close_set_one_display (modalId : Value) (p : list Modal.Node) :
  let opened := Modal.openModal modalId p in
  let closed := Modal.closeModal modalId p in
  Modal.frame <$> opened = Modal.frame <$> p /\
  Modal.frame <$> closed = Modal.frame <$> p /\
  (Modal.getElementById (ToString modalId) p = None -> opened = p /\ closed = p) /\
  (forall i, Modal.getElementById (ToString modalId) p = Some i ->
     Modal.node_display <$> opened !! i = Some "block" /\
     Modal.node_display <$> closed !! i = Some "none" /\
     forall j, j <> i -> opened !! j = p !! j /\ closed !! j = p !! j) /\
  Modal.closeModal modalId opened = closed /\
  Modal.openModal modalId closed = opened /\
  Modal.openModal modalId opened = opened /\
  Modal.closeModal modalId closed = closed.
Proof.
  intros opened closed.
  assert (Ho : Modal.frame <$> opened = Modal.frame <$> p).
  { unfold opened, Modal.openModal. destruct (Modal.getElementById _ p); [|done].
    apply Modal_alter_frame. }
  assert (Hc : Modal.frame <$> closed = Modal.frame <$> p).
  { unfold closed, Modal.closeModal. destruct (Modal.getElementById _ p); [|done].
    apply Modal_alter_frame. }
  split; [done|]. split; [done|]. split; [|split].
  - intros H. unfold opened, closed, Modal.openModal, Modal.closeModal. by rewrite H.
  - intros i H. unfold opened, closed, Modal.openModal, Modal.closeModal. rewrite H.
    destruct (Modal_getElementById_Some _ _ _ H) as (n & Hn & _).
    rewrite !list_lookup_alter_eq, Hn. simpl. split; [done|]. split; [done|].
    intros j Hj. by rewrite !list_lookup_alter_ne.
  - assert (Ho' := Modal_getElementById_frame (ToString modalId) _ _ Ho).
    assert (Hc' := Modal_getElementById_frame (ToString modalId) _ _ Hc).
    repeat split.
    all: try (unfold Modal.closeModal at 1); try (unfold Modal.openModal at 1);
      rewrite ?Ho', ?Hc'; unfold opened, closed, Modal.openModal, Modal.closeModal;
      destruct (Modal.getElementById (ToString modalId) p); [|done];
      by rewrite !Modal_set_display_twice.
Qed.

Lemma Modal_quiet_ancestors p0 target ancestors (p : list Modal.Node) :
  target ∉ ancestors ->
  (forall i, i ∈ ancestors ->
     ~ Modal.media_button p0 i /\ ~ Modal.has_class "modal-close" p0 i) ->
  foldl (fun p f => f p) p
    (List.concat (List.map (fun i => Modal.listeners p0 i target) ancestors)) = p.
Proof.
  induction ancestors as [|a ancestors IH]; intros Hnot Hq; simpl; [done|].
  rewrite foldl_app. rewrite not_elem_of_cons in Hnot. destruct Hnot as [Hne Hnot].
  destruct (Hq a) as [Hb Hc]; [by left|].
  assert (E : foldl (fun p f => f p) p (Modal.listeners p0 a target) = p).
  { unfold Modal.listeners. destruct (p0 !! a) as [n0|] eqn:Ha; [|done].
    rewrite bool_decide_eq_false_2 by (intros H; apply Hb; by left).
    rewrite bool_decide_eq_false_2 by (intros H; apply Hb; by right).
    rewrite bool_decide_eq_false_2 by (intros H; apply Hc; by exists n0).
    simpl. case_bool_decide; simpl; [|done]. by rewrite bool_decide_eq_false_2. }
  rewrite E. apply IH; [done|]. intros i Hi. apply Hq. by right.
Qed.

(** X21.  A click that meets no media button and no close button on its
    way up hides the clicked element when that element is itself a dialog
    ([.modal]), and changes nothing otherwise: a click on what is inside a
    dialog does not close it. *)
Theorem background_click_closes_that_modal
    (p0 p : list Modal.Node) (target : nat) (ancestors : list nat) :
  target ∉ ancestors ->
  (forall i, i ∈ target :: ancestors ->
     ~ Modal.media_button p0 i /\ ~ Modal.has_class "modal-close" p0 i) ->
  (Modal.has_class "modal" p0 target ->
   Modal.click p0 target ancestors p = alter (Modal.set_display "none") target p) /\
  (~ Modal.has_class "modal" p0 target -> Modal.click p0 target ancestors p = p).
Proof.
  intros Hnot Hq. unfold Modal.click. simpl. rewrite foldl_app.
  destruct (Hq target) as [Hb Hc]; [by left|].
  assert (Hrest : forall q : list Modal.Node,
            foldl (fun p f => f p) q
              (List.concat (List.map (fun i => Modal.listeners p0 i target) ancestors)) = q).
  { intros q. apply Modal_quiet_ancestors; [done|]. intros i Hi. apply Hq. by right. }
  rewrite Hrest. unfold Modal.listeners.
  destruct (p0 !! target) as [n0|] eqn:Ht.
  - rewrite bool_decide_eq_false_2 by (intros H; apply Hb; by left).
    rewrite bool_decide_eq_false_2 by (intros H; apply Hb; by right).
    rewrite bool_decide_eq_false_2 by (intros H; apply Hc; by exists n0).
    simpl. split.
    + intros (n & Hn & Hcls). simplify_eq. rewrite bool_decide_eq_true_2 by done.
      simpl. by rewrite bool_decide_eq_true_2.
    + intros Hno. rewrite bool_decide_eq_false_2; [done|]. intros Hcls. apply Hno.
      by exists n0.
  - simpl. split; [|done]. intros (n & Hn & _). congruence.
Qed.

Ltac not_among H :=
  repeat (apply elem_of_cons in H as [H|H]; [discriminate|]); by apply elem_of_nil in H.

Ltac no_listener :=
  first [ intros [H|H]; vm_compute in H; discriminate
        | let n := fresh "n" in let Hn := fresh "Hn" in let Hc := fresh "Hc" in
          intros (n & Hn & Hc); vm_compute in Hn; simplify_eq; simpl in Hc;
          not_among Hc ].

Lemma background_click_closes_that_modal_witness :
  Modal.node_display <$> Modal.click dialog_page 1 [] dialog_page !! 1 = Some "none" /\
  Modal.click dialog_page 2 [1] dialog_page = dialog_page.
Proof.
  split.
  - destruct (background_click_closes_that_modal dialog_page dialog_page 1 []) as [H _].
    + apply not_elem_of_nil.
    + intros i Hi. apply list_elem_of_singleton in Hi as ->. split; no_listener.
    + rewrite H; [reflexivity|]. eexists. split; [reflexivity|]. by left.
  - destruct (background_click_closes_that_modal dialog_page dialog_page 2 [1]) as [_ H].
    + intros Hi. not_among Hi.
    + intros i Hi.
      apply elem_of_cons in Hi as [->|Hi]; [|apply list_elem_of_singleton in Hi as ->];
        split; no_listener.
    + apply H. no_listener.
Defined.

(** X22.  A click on a close button (that is no media button and no dialog
    itself, with no other button above it) does what [closeModal] does for
    the id in the button's [data-close-modal]; a button without the
    attribute closes the element whose id is ["undefined"], if there is
    one. *)
Theorem close_button_hides_named_modal
    (p0 p : list Modal.Node) (b : nat) (ancestors : list nat) (btn : Modal.Node) :
  Modal.has_class "modal-close" p0 b ->
  ~ Modal.media_button p0 b -> ~ Modal.has_class "modal" p0 b ->
  b ∉ ancestors ->
  (forall i, i ∈ ancestors ->
     ~ Modal.media_button p0 i /\ ~ Modal.has_class "modal-close" p0 i) ->
  p !! b = Some btn ->
  Modal.click p0 b ancestors p
  = Modal.closeModal (match Modal.node_closeModal btn with
                      | Some id => VStr id
                      | None => VStr "undefined"
                      end) p.
Proof.
  intros (n0 & Hn0 & Hcls) Hb Hm Hnot Hq Hbtn. unfold Modal.click. simpl.
  rewrite foldl_app, Modal_quiet_ancestors by done.
  unfold Modal.listeners. rewrite Hn0.
  rewrite bool_decide_eq_false_2 by (intros H; apply Hb; by left).
  rewrite bool_decide_eq_false_2 by (intros H; apply Hb; by right).
  rewrite bool_decide_eq_true_2 by done.
  rewrite bool_decide_eq_false_2 by (intros H; apply Hm; by exists n0).
  simpl. rewrite Hbtn. unfold Modal.dataset_closeModal, Modal.closeModal.
  by destruct (Modal.node_closeModal btn).
Qed.

Lemma close_button_hides_named_modal_witness :
  Modal.node_display <$> Modal.click dialog_page 3 [1] dialog_page = ["";"none";"";""].
Proof.
  rewrite (close_button_hides_named_modal dialog_page dialog_page 3 [1]
             (Modal.mkNode "" ["modal-close"] (Some "videoModal") "")).
  - reflexivity.
  - eexists. split; [reflexivity|]. by left.
  - no_listener.
  - no_listener.
  - intros Hi. not_among Hi.
  - intros i Hi. apply list_elem_of_singleton in Hi as ->. split; no_listener.
  - reflexivity.
Defined.

(** ** When a request settles *)

Lemma appended_eq c sender text imageSrc w :
  appended c sender text imageSrc w =
  chatLog_appendChild (message_elem c (msg_id (messageIdCounter w)) sender text imageSrc)
    (let w1 := set_counter (js_incr (messageIdCounter w)) w in
     if shows_in_panel c sender imageSrc
     then (Recommend.updateCharacterImage imageSrc w1).1 else w1).
Proof.
  unfold appended. destruct c; simpl.
  - unfold Recommend.appendMessage. mrun. destruct sender; simpl; mrun; [done|].
    destruct (ToBoolean imageSrc); mrun; [|done].
    rewrite updateCharacterImage_eq. mrun. done.
  - unfold Report.appendMessage. mrun. destruct sender; done.
Qed.

Lemma appended_plain c sender text imageSrc w log :
  shows_in_panel c sender imageSrc = false ->
  chatLog w = Some log ->
  let w' := appended c sender text imageSrc w in
  chatLog w' = Some (log ++ [message_elem c (msg_id (messageIdCounter w)) sender text imageSrc])%list /\
  before w' = before w /\ after w' = after w.
Proof.
  intros Hp Hlog. cbv zeta. rewrite appended_eq, Hp. simpl. by rewrite Hlog.
Qed.

Lemma message_elem_plain c id text :
  message_elem c id bot (VStr text) VNull = bot_message id text.
Proof. by destruct c. Qed.

Lemma message_elem_text c id text imageSrc :
  text <> VNull -> text <> VUndefined ->
  el_textContent (message_elem c id bot text imageSrc) = ToString text.
Proof.
  intros Hn Hu. unfold el_textContent. simpl.
  pose proof (set_textContent_text text Hn Hu) as E.
  assert (E' : String.concat "" (List.map textContent
                 [IDiv ["bot-text-container"] (set_textContent text)]) = ToString text).
  { simpl. exact E. }
  destruct c; [exact E'|]. destruct (ToBoolean imageSrc); [|exact E'].
  simpl. destruct (set_textContent text) as [|x l] eqn:El; simpl in *; [done|]. exact E.
Qed.

(** The loading message that a request under way will take off. *)
Lemma settle_setup c w i rq k log :
  reachable (handle_of c) w ->
  (messageIdCounter w < 2 ^ 53)%N ->
  chatLog w = Some log ->
  inflight w !! i = Some (rq, k) ->
  let w0 := set_inflight (delete i (inflight w)) w in
  (forall r, handle_of c (EvSettle i r) w = (resume_of c k r w0).1) /\
  exists j e,
    log !! j = Some e /\ el_id e = cont_id k /\
    removed (cont_id k) w0 = set_chatLog (Some (delete j log)) w0 /\
    removed (cont_id k) (removed (cont_id k) w0) = removed (cont_id k) w0 /\
    (cont_id k ∉ ids_of (delete j log)) /\
    cont_id k <> msg_id (messageIdCounter w).
Proof.
  intros Hr Hlt Hlog Hi w0.
  pose proof (reachable_ids c w Hr Hlt) as Hids.
  pose proof (reachable_pending c w Hr Hlt) as Hpend.
  destruct (pending_delete w i rq k Hi Hpend) as (_ & _ & Hin & Hmsg).
  split; [intros r; rewrite handle_of_eq; by rewrite Hi|].
  assert (Hids0 : ids_invariant w0) by (by apply (ids_invariant_ext w)).
  assert (Hin' : cont_id k ∈ ids_of log).
  { unfold log_of in Hin. rewrite Hlog in Hin. by apply Hin. }
  destruct (pending_found w0 (cont_id k) log Hids0 Hmsg Hlog Hin') as (j & e & Hget & He & Hid).
  exists j, e. split; [done|]. split; [done|].
  assert (Hrem : removed (cont_id k) w0 = set_chatLog (Some (delete j log)) w0).
  { unfold removed. rewrite removeMessage_world, Hget. simpl. by rewrite Hlog. }
  split; [done|]. destruct Hmsg as [n Hn]. rewrite Hn in *.
  split; [by apply removed_twice|]. split.
  - destruct (removeMessage_msg w0 n Hids0) as (_ & _ & _ & Hnot).
    cbv zeta in Hnot. fold (removed (msg_id n) w0) in Hnot. rewrite Hrem in Hnot.
    unfold log_of in Hnot. simpl in Hnot. unfold ids_of in *. rewrite !fmap_app in Hnot.
    intros Hmem. apply Hnot. apply elem_of_app. right. apply elem_of_app. by left.
  - intros E. apply msg_id_inj in E. destruct Hpend as [P1 _ _].
    assert (Hp : cont_id k ∈ pending_ids w).
    { unfold pending_ids. apply list_elem_of_fmap. exists (rq, k).
      split; [done|]. by eapply list_elem_of_lookup_2. }
    destruct (P1 _ Hp) as (m & Em & Hm). rewrite Hn in Em. apply msg_id_inj in Em. lia.
Qed.

Lemma apology_world c id text w :
  ((removeMessage id;; appendMessage_of c bot (VStr text) VNull;; ret tt) w).1
  = appended c bot (VStr text) VNull (removed id w).
Proof. mrun. reflexivity. Qed.

Lemma resume_unreadable c loadingId status json w :
  ok status = true -> unreadable c json ->
  (resume_of c (KSend loadingId) (FetchResponse status json) w).1 =
  appended c bot (VStr retry_apology) VNull
    (match json with
     | Threw _ => removed loadingId w
     | Returned _ => removed loadingId (removed loadingId w)
     end).
Proof.
  intros Hok Hun.
  destruct c; simpl;
    unfold Recommend.sendMessage_resume, Recommend.sendMessage_try,
      Report.sendMessage_resume, Report.sendMessage_try, awaited_json;
    rewrite Hok;
    [change Recommend.appendMessage with (appendMessage_of RecommendClient)
    |change Report.appendMessage with (appendMessage_of ReportClient)].
  all: destruct json as [data|e]; [|mrun; reflexivity].
  all: assert (Hcase : data = VNull \/ data = VUndefined \/
                       (data <> VNull /\ data <> VUndefined)) by (destruct data; auto).
  all: destruct Hcase as [-> | [-> | [Hn Hu]]]; try (mrun; simpl get; cbv beta iota; mrun; reflexivity).
  - assert (Hun' : ToBoolean (prop data "program_recommendation") = false /\
                   substring_check (js_or (prop data "reply") (VStr "")) <> Returned tt).
    { destruct data; try done; simpl in Hun; destruct Hun as [H1 H2]; (split; [by apply H1|done]). }
    destruct Hun' as [Hrec Hsub].
    repeat first [ progress mrun | rewrite (get_prop data) by done | rewrite Hrec ].
    destruct (substring_check _) as [[]|err]; [done|]. mrun. reflexivity.
  - assert (Hsub : substring_check (js_or (prop data "reply") (VStr "")) <> Returned tt).
    { destruct data; try done; simpl in Hun; by destruct Hun as [H1 H2]. }
    repeat first [ progress mrun | rewrite (get_prop data) by done ].
    destruct (substring_check _) as [[]|err]; [done|]. mrun. reflexivity.
Qed.

Lemma resume_reply c loadingId status data w :
  ok status = true -> data <> VNull -> data <> VUndefined ->
  (c = RecommendClient -> ToBoolean (prop data "program_recommendation") = false) ->
  substring_check (js_or (prop data "reply") (VStr "")) = Returned tt ->
  (resume_of c (KSend loadingId) (FetchResponse status (Returned data)) w).1 =
  let w2 := appended c bot (js_or (prop data "reply") (VStr ""))
              (js_or (prop data "image") VNull) (removed loadingId w) in
  if follow_up c data then set_timers (timers w2 ++ [(500%N, TAutoReport)]) w2 else w2.
Proof.
  intros Hok Hn Hu Hrec Hsub. cbv zeta.
  destruct c; simpl.
  - unfold Recommend.sendMessage_resume, Recommend.sendMessage_try, awaited_json.
    rewrite Hok. change Recommend.appendMessage with (appendMessage_of RecommendClient).
    repeat first [ progress mrun | rewrite (get_prop data) by done
                 | rewrite Hrec by done | rewrite Hsub ].
    reflexivity.
  - rewrite (Report_resume_ok loadingId status data w Hok Hn Hu Hsub). reflexivity.
Qed.

Lemma auto_report_resume_failed loadingId2 r w :
  report_failed r ->
  (Report.auto_report_resume loadingId2 r w).1 =
  appended ReportClient bot (VStr report_apology) VNull
    (match r with
     | FetchResponse _ (Returned _) => removed loadingId2 (removed loadingId2 w)
     | _ => removed loadingId2 w
     end).
Proof.
  intros Hf. unfold Report.auto_report_resume.
  change Report.appendMessage with (appendMessage_of ReportClient).
  destruct r as [reason|status [data|e]]; [mrun; reflexivity| |mrun; reflexivity].
  destruct data; try done; mrun; simpl get; cbv beta iota; mrun; reflexivity.
Qed.

(** What is left when the loading message at place [j] has been taken off
    and a plain bot message has been put at the end. *)
Lemma replaced_by_plain c w0 j log id text :
  chatLog w0 = Some log ->
  removed id w0 = set_chatLog (Some (delete j log)) w0 ->
  let w' := appended c bot (VStr text) VNull (removed id w0) in
  chatLog w' = Some (delete j log ++ [bot_message (msg_id (messageIdCounter w0)) text])%list /\
  before w' = before w0 /\ after w' = after w0 /\ inflight w' = inflight w0 /\
  timers w' = timers w0 /\ location_href w' = location_href w0 /\
  userMessageInput w' = userMessageInput w0 /\
  messageIdCounter w' = js_incr (messageIdCounter w0).
Proof.
  intros Hlog Hrem. cbv zeta. rewrite Hrem, appended_eq.
  assert (Hp : shows_in_panel c bot VNull = false) by (by destruct c).
  rewrite Hp. simpl. by rewrite message_elem_plain.
Qed.

(** X6.  On every page the script can reach: when the reply to a pending
    [sendMessage] has an OK status and yet cannot be rendered
    ([response.json()] rejects, the body is [null], or [reply] is truthy
    and not a string, so that [replyText.substring] throws), the outcome is
    that of a failed send: the loading message is gone, one bot message
    with the fixed apology is at the end of the log, nothing is scheduled,
    sent or navigated to. *)
Theorem unreadable_reply_shows_retry_apology
    (c : Client) (w : World) (i : nat) (rq : Request) (loadingId : string)
    (status : N) (json : Outcome Value) (log : list Elem) :
  reachable (handle_of c) w ->
  (messageIdCounter w < 2 ^ 53)%N ->
  chatLog w = Some log ->
  inflight w !! i = Some (rq, KSend loadingId) ->
  ok status = true ->
  unreadable c json ->
  let w' := handle_of c (EvSettle i (FetchResponse status json)) w in
  let apology := bot_message (msg_id (messageIdCounter w)) retry_apology in
  exists j e,
    log !! j = Some e /\ el_id e = loadingId /\
    chatLog w' = Some (delete j log ++ [apology])%list /\
    before w' = before w /\ after w' = after w /\
    inflight w' = delete i (inflight w) /\ timers w' = timers w /\
    location_href w' = location_href w.
Proof.
  intros Hr Hlt Hlog Hi Hok Hun w' apology.
  destruct (settle_setup c w i rq (KSend loadingId) log Hr Hlt Hlog Hi)
    as (Hw' & j & e & He & Hid & Hrem & Htwice & _).
  simpl in Hid, Hrem, Htwice.
  exists j, e. split; [done|]. split; [done|].
  unfold w'. rewrite Hw', resume_unreadable by done.
  assert (E : match json with
              | Threw _ => removed loadingId (set_inflight (delete i (inflight w)) w)
              | Returned _ =>
                  removed loadingId
                    (removed loadingId (set_inflight (delete i (inflight w)) w))
              end = removed loadingId (set_inflight (delete i (inflight w)) w)).
  { destruct json; [exact Htwice | done]. }
  rewrite E.
  destruct (replaced_by_plain c (set_inflight (delete i (inflight w)) w) j log loadingId
              retry_apology Hlog Hrem) as (H1 & H2 & H3 & H4 & H5 & H6 & _).
  done.
Qed.

Lemma reachable_after c es chatArea input button log pre post :
  page_ok log pre post ->
  reachable (handle_of c)
    (run_events (handle_of c) es (script_start chatArea input button log pre post)).
Proof.
  intros Hp. induction es as [|e es IH] using rev_ind; [by apply reachable_start|].
  unfold run_events. rewrite foldl_app. simpl. by apply reachable_step.
Qed.

Lemma page_ok_empty log : log = None \/ log = Some [] -> page_ok log [] [].
Proof. intros [->| ->] s Hs; by apply elem_of_nil in Hs. Qed.

Lemma unreadable_reply_shows_retry_apology_witness :
  let w := run_events Report.handle [EvLoad; EvTimer 0]
             (script_start None (Some "") true (Some []) [] []) in
  let data := VObj (list_to_map [("reply", VNum "42")]) in
  chatLog (Report.handle (EvSettle 0 (FetchResponse 200 (Returned data))) w)
  = Some [bot_message "msg-1" retry_apology].
Proof.
  intros w data.
  assert (Hr : reachable (handle_of ReportClient) w).
  { apply (reachable_after ReportClient). apply page_ok_empty. by right. }
  assert (Hlt : (messageIdCounter w < 2 ^ 53)%N) by (vm_compute; reflexivity).
  assert (Hun : unreadable ReportClient (Returned data)).
  { split; [discriminate|]. vm_compute. discriminate. }
  destruct (unreadable_reply_shows_retry_apology ReportClient w 0
              (chat_request "init" (VStr "사용자")) "msg-0" 200 (Returned data)
              [bot_message "msg-0" thinking] Hr Hlt eq_refl eq_refl eq_refl Hun)
    as (j & e & Hj & _ & H & _).
  destruct j as [|j]; [exact H|]. exfalso. by destruct j.
Defined.

(** X5.  On every page the script can reach: when the reply to a pending
    [sendMessage] is OK and its body is not [null], carries no
    recommendation to redirect to, and its [reply] is a string or falsy,
    the loading message of that send is taken off and exactly one bot
    message is put at the end of the log; its text is the reply (the empty
    string when [reply] is missing or falsy).  The second variant puts the
    picture, if any, into the message; the first one shows it in the panel
    and leaves the rest of the page alone when there is none.  Nothing is
    sent; a timeout is set only for the second variant's report request. *)
Theorem ok_reply_replaces_loading_message
    (c : Client) (w : World) (i : nat) (rq : Request) (loadingId : string)
    (status : N) (data : Value) (log : list Elem) :
  reachable (handle_of c) w ->
  (messageIdCounter w < 2 ^ 53)%N ->
  chatLog w = Some log ->
  inflight w !! i = Some (rq, KSend loadingId) ->
  ok status = true ->
  data <> VNull -> data <> VUndefined ->
  (c = RecommendClient -> ToBoolean (prop data "program_recommendation") = false) ->
  substring_check (js_or (prop data "reply") (VStr "")) = Returned tt ->
  let w' := handle_of c (EvSettle i (FetchResponse status (Returned data))) w in
  let replyText := js_or (prop data "reply") (VStr "") in
  let imagePath := js_or (prop data "image") VNull in
  let shown := message_elem c (msg_id (messageIdCounter w)) bot replyText imagePath in
  exists j e log1,
    log !! j = Some e /\ el_id e = loadingId /\
    chatLog w' = Some (log1 ++ [shown])%list /\
    ids_of log1 = ids_of (delete j log) /\
    (shows_in_panel c bot imagePath = false ->
     log1 = delete j log /\ before w' = before w /\ after w' = after w) /\
    el_textContent shown = ToString replyText /\
    (loadingId ∉ ids_of (log1 ++ [shown])) /\
    inflight w' = delete i (inflight w) /\
    timers w' = (if follow_up c data then timers w ++ [(500%N, TAutoReport)]
                 else timers w)%list /\
    location_href w' = location_href w.
Proof.
  intros Hr Hlt Hlog Hi Hok Hn Hu Hrec Hsub w' replyText imagePath shown.
  destruct (settle_setup c w i rq (KSend loadingId) log Hr Hlt Hlog Hi)
    as (Hw' & j & e & He & Hid & Hrem & _ & Hnot & Hne).
  simpl in Hid, Hrem, Hnot, Hne.
  set (w0 := set_inflight (delete i (inflight w)) w) in *.
  assert (E : w' = let w2 := appended c bot replyText imagePath (removed loadingId w0) in
                   if follow_up c data
                   then set_timers (timers w2 ++ [(500%N, TAutoReport)]) w2 else w2).
  { unfold w'. rewrite Hw'. by apply resume_reply. }
  cbv zeta in E. rewrite Hrem, appended_eq in E. cbv zeta in E.
  change (messageIdCounter (set_chatLog _ w0)) with (messageIdCounter w) in E.
  fold shown in E.
  set (w1 := set_counter (js_incr (messageIdCounter w))
               (set_chatLog (Some (delete j log)) w0)) in *.
  assert (Htext : el_textContent shown = ToString replyText).
  { destruct (js_or_defined (prop data "reply") "") as [H1 H2].
    by apply message_elem_text. }
  assert (Hfresh : forall log1, ids_of log1 = ids_of (delete j log) ->
                     loadingId ∉ ids_of (log1 ++ [shown])).
  { intros log1 Hids. unfold ids_of in *. rewrite fmap_app, Hids. simpl.
    intros Hmem. apply elem_of_app in Hmem as [Hmem|Hmem]; [done|].
    by apply list_elem_of_singleton in Hmem. }
  exists j, e.
  destruct (shows_in_panel c bot imagePath) eqn:Hpanel.
  - destruct (updateCharacterImage_same imagePath w1) as (Hs & _ & _).
    destruct (updateCharacterImage_fields imagePath w1) as (Hf1 & Hf2 & Hf3 & _).
    cbv zeta in Hf1, Hf2, Hf3.
    destruct (same_ids_chatLog w1 _ (delete j log) Hs eq_refl) as (log1 & Hl1 & Hids1).
    exists log1. split; [done|]. split; [done|].
    split; [rewrite E; destruct (follow_up c data); simpl; by rewrite Hl1|].
    split; [done|]. split; [done|]. split; [done|]. split; [by apply Hfresh|].
    rewrite E. destruct (follow_up c data); simpl; rewrite Hf1, Hf2, Hf3; done.
  - exists (delete j log). split; [done|]. split; [done|].
    split; [rewrite E; by destruct (follow_up c data)|].
    split; [done|].
    split; [intros _; rewrite E; by destruct (follow_up c data)|].
    split; [done|]. split; [by apply Hfresh|].
    rewrite E. by destruct (follow_up c data).
Qed.

Lemma ok_reply_replaces_loading_message_witness :
  let w := run_events Recommend.handle [EvLoad; EvTimer 0]
             (script_start None (Some "") true (Some []) [] []) in
  let data := VObj (list_to_map [("reply", VStr "안녕!"); ("image", VStr "/a.png")]) in
  exists log1 e,
    chatLog (Recommend.handle (EvSettle 0 (FetchResponse 200 (Returned data))) w)
    = Some (log1 ++ [e])%list /\ ids_of log1 = [] /\ el_textContent e = "안녕!".
Proof.
  intros w data.
  assert (Hr : reachable (handle_of RecommendClient) w).
  { apply (reachable_after RecommendClient). apply page_ok_empty. by right. }
  assert (Hlt : (messageIdCounter w < 2 ^ 53)%N) by (vm_compute; reflexivity).
  assert (Hrec : RecommendClient = RecommendClient ->
                 ToBoolean (prop data "program_recommendation") = false)
    by (intros _; vm_compute; reflexivity).
  assert (Hsub : substring_check (js_or (prop data "reply") (VStr "")) = Returned tt)
    by (vm_compute; reflexivity).
  assert (Hn : data <> VNull) by discriminate.
  assert (Hu : data <> VUndefined) by discriminate.
  destruct (ok_reply_replaces_loading_message RecommendClient w 0
              (chat_request "init" (VStr "사용자")) "msg-0" 200 data
              [bot_message "msg-0" thinking] Hr Hlt eq_refl eq_refl eq_refl Hn Hu Hrec Hsub)
    as (j & e & log1 & Hj & _ & H & Hids & _ & Ht & _).
  eexists log1, _. split; [exact H|]. split; [|exact Ht].
  destruct j as [|j]; [exact Hids|]. exfalso. by destruct j.
Defined.

(** X13.  On every page the second variant can reach: when the automatic
    report request brings no data (the fetch or [response.json()] is
    rejected, or the body is [null]), its loading message is taken off and
    one bot message with the fixed report apology is put at the end of the
    log; nothing is scheduled or sent again. *)
Theorem failed_report_shows_report_apology
    (w : World) (i : nat) (rq : Request) (loadingId2 : string)
    (r : FetchResult) (log : list Elem) :
  reachable (handle_of ReportClient) w ->
  (messageIdCounter w < 2 ^ 53)%N ->
  chatLog w = Some log ->
  inflight w !! i = Some (rq, KReport loadingId2) ->
  report_failed r ->
  let w' := Report.handle (EvSettle i r) w in
  let apology := bot_message (msg_id (messageIdCounter w)) report_apology in
  exists j e,
    log !! j = Some e /\ el_id e = loadingId2 /\
    chatLog w' = Some (delete j log ++ [apology])%list /\
    el_textContent apology = report_apology /\
    before w' = before w /\ after w' = after w /\
    inflight w' = delete i (inflight w) /\ timers w' = timers w /\
    location_href w' = location_href w.
Proof.
  intros Hr Hlt Hlog Hi Hf w' apology.
  destruct (settle_setup ReportClient w i rq (KReport loadingId2) log Hr Hlt Hlog Hi)
    as (Hw' & j & e & He & Hid & Hrem & Htwice & _).
  simpl in Hid, Hrem, Htwice.
  exists j, e. split; [done|]. split; [done|].
  unfold w'. change Report.handle with (handle_of ReportClient). rewrite Hw'.
  simpl resume_of. rewrite auto_report_resume_failed by done.
  assert (E : match r with
              | FetchResponse _ (Returned _) =>
                  removed loadingId2
                    (removed loadingId2 (set_inflight (delete i (inflight w)) w))
              | _ => removed loadingId2 (set_inflight (delete i (inflight w)) w)
              end = removed loadingId2 (set_inflight (delete i (inflight w)) w)).
  { destruct r as [|? [|]]; done. }
  rewrite E.
  destruct (replaced_by_plain ReportClient (set_inflight (delete i (inflight w)) w) j log
              loadingId2 report_apology Hlog Hrem) as (H1 & H2 & H3 & H4 & H5 & H6 & _).
  done.
Qed.

Lemma failed_report_shows_report_apology_witness :
  let data := VObj (list_to_map [("reply", VStr "분석할게"); ("needs_report_generation", VBool true)]) in
  let w := run_events Report.handle
             [EvLoad; EvTimer 0; EvSettle 0 (FetchResponse 200 (Returned data)); EvTimer 0]
             (script_start None (Some "") true (Some []) [] []) in
  chatLog (Report.handle (EvSettle 0 (FetchResponse 502 (Threw (Rejection "html")))) w)
  = Some [bot_message "msg-1" "분석할게"; bot_message "msg-3" report_apology].
Proof.
  intros data w.
  assert (Hr : reachable (handle_of ReportClient) w).
  { apply (reachable_after ReportClient). apply page_ok_empty. by right. }
  assert (Hlt : (messageIdCounter w < 2 ^ 53)%N) by (vm_compute; reflexivity).
  assert (Hlog : chatLog w = Some [bot_message "msg-1" "분석할게"; bot_message "msg-2" thinking])
    by (vm_compute; reflexivity).
  assert (Hi : inflight w !! 0 = Some (chat_request "" (VStr "사용자"), KReport "msg-2"))
    by (vm_compute; reflexivity).
  destruct (failed_report_shows_report_apology w 0 _ "msg-2"
              (FetchResponse 502 (Threw (Rejection "html"))) _ Hr Hlt Hlog Hi I)
    as (j & e & Hj & Hid & H & _).
  clear Hr Hlt Hlog Hi. destruct j as [|[|j]].
  - exfalso. injection Hj as <-. discriminate Hid.
  - exact H.
  - exfalso. by destruct j.
Defined.

(** ** What is sent, scheduled and navigated to *)

Lemma resume_traffic_refl c w : resume_traffic c w w.
Proof. repeat split; auto. Qed.

Lemma resume_traffic_trans c w1 w2 w3 :
  resume_traffic c w1 w2 -> resume_traffic c w2 w3 -> resume_traffic c w1 w3.
Proof.
  intros (Hi & Hu & Ht & Hl) (Hi' & Hu' & Ht' & Hl').
  split; [congruence|]. split; [congruence|]. split.
  - intros t Hin. destruct (Ht' t Hin) as [H|H]; auto.
  - destruct Hl' as [Hl'|Hl']; [|by right]. rewrite Hl'. exact Hl.
Qed.

Lemma resume_traffic_append c c' sender text imageSrc :
  keeps (resume_traffic c) (appendMessage_of c' sender text imageSrc).
Proof.
  intros w. destruct (appendMessage_of_fields c' sender text imageSrc w)
    as (Hi & Ht & Hl & _ & Hu). cbv zeta in *.
  split; [done|]. split; [done|]. split; [|by left]. intros t. rewrite Ht. auto.
Qed.

Lemma resume_traffic_remove c id : keeps (resume_traffic c) (removeMessage id).
Proof.
  intros w. destruct (removeMessage_fields id w) as (_ & Hi & Ht & Hl & _ & Hu).
  cbv zeta in *.
  split; [done|]. split; [done|]. split; [|by left]. intros t. rewrite Ht. auto.
Qed.

Lemma resume_traffic_timeout :
  keeps (resume_traffic ReportClient) (setTimeout TAutoReport 500).
Proof.
  intros w. split; [done|]. split; [done|]. split; [|by left]. simpl.
  intros t Ht. apply elem_of_app in Ht as [Ht|Ht]; [by left|].
  apply list_elem_of_singleton in Ht. by right.
Qed.

Lemma resume_traffic_location image message sentiment :
  keeps (resume_traffic RecommendClient)
    (modify (set_location
       (Some ("/program_recommendation?" ++
              URLSearchParams_toString
                [("image", image); ("message", message); ("sentiment", sentiment)])))).
Proof.
  intros w. split; [done|]. split; [done|]. split; [by left|]. right.
  split; [done|]. eexists. split; [reflexivity|]. by exists image, message, sentiment.
Qed.

Lemma resume_traffic_keeps c k r : keeps (resume_traffic c) (resume_of c k r).
Proof.
  destruct c, k as [id|id]; simpl;
    unfold Recommend.sendMessage_resume, Recommend.sendMessage_try,
      Report.sendMessage_resume, Report.sendMessage_try, Report.auto_report_resume;
    repeat first
      [ apply (keeps_ret _ (resume_traffic_refl _))
      | apply (keeps_lift _ (resume_traffic_refl _))
      | apply resume_traffic_remove
      | apply (resume_traffic_append _ RecommendClient)
      | apply (resume_traffic_append _ ReportClient)
      | apply resume_traffic_timeout
      | apply resume_traffic_location
      | apply (keeps_bind _ (resume_traffic_trans _)); [|intros ?]
      | apply (keeps_try_catch _ (resume_traffic_trans _)); [|intros ?]
      | case_match ].
Qed.

Lemma traffic_same c w w' :
  inflight w' = inflight w -> timers w' = timers w ->
  location_href w' = location_href w -> username w' = username w ->
  traffic_invariant c w -> traffic_invariant c w'.
Proof. intros Hi Ht Hl Hu [T1 T2 T3]. split; by rewrite ?Hi, ?Ht, ?Hl, ?Hu. Qed.

Lemma traffic_appended c sender text imageSrc w :
  traffic_invariant c w -> traffic_invariant c (appended c sender text imageSrc w).
Proof.
  destruct (appendMessage_of_fields c sender text imageSrc w) as (Hi & Ht & Hl & _ & Hu).
  by apply traffic_same.
Qed.

Lemma traffic_fetch c w message k :
  traffic_invariant c w ->
  request_ok c (username w) (chat_request message (username w), k) ->
  traffic_invariant c
    (set_inflight (inflight w ++ [(chat_request message (username w), k)]) w).
Proof.
  intros [T1 T2 T3] Hok. split; simpl; try done.
  apply Forall_app. split; [done|]. by constructor.
Qed.

Lemma traffic_sendMessage c isInitial w :
  traffic_invariant c w -> traffic_invariant c ((sendMessage_of c isInitial w).1).
Proof.
  intros Hw. destruct isInitial.
  - rewrite sendMessage_init. cbv zeta. apply traffic_fetch; [by apply traffic_appended|].
    exists "init". split; [done|]. split; [done|]. by left.
  - rewrite sendMessage_typed. destruct (userMessageInput w) as [value|]; [|done].
    case_bool_decide as Ht; [done|]. cbv zeta. apply traffic_fetch.
    + apply traffic_appended. eapply traffic_same; [..|by apply (traffic_appended c user (VStr (trim value)) VNull w)]; done.
    + exists (trim value). split; [done|]. split; [done|]. right. by exists value.
Qed.

Lemma traffic_run_task c t w :
  traffic_invariant c w -> traffic_invariant c ((run_task_of c t w).1).
Proof.
  intros Hw. destruct t.
  - assert (E : (run_task_of c TLoadCheck w).1
                = match chatLog w with
                  | Some [] => (sendMessage_of c true w).1
                  | _ => w
                  end).
    { destruct c; simpl; unfold Recommend.load_check, Report.load_check;
        mrun; by destruct (chatLog w) as [[|]|]. }
    rewrite E. destruct (chatLog w) as [[|]|]; try done. by apply traffic_sendMessage.
  - destruct c; [done|].
    change (run_task_of ReportClient TAutoReport w) with (Report.auto_report w).
    rewrite Report_auto_report_world. cbv zeta.
    change Report.appendMessage with (appendMessage_of ReportClient).
    fold (appended ReportClient bot (VStr thinking) VNull w).
    assert (Hu : username w = username (appended ReportClient bot (VStr thinking) VNull w))
      by done.
    rewrite Hu. apply traffic_fetch; [by apply traffic_appended|]. by split.
Qed.

Lemma traffic_resume c k r w :
  traffic_invariant c w -> traffic_invariant c ((resume_of c k r w).1).
Proof.
  intros [T1 T2 T3]. destruct (resume_traffic_keeps c k r w) as (Hi & Hu & Ht & Hl).
  split.
  - by rewrite Hi, Hu.
  - apply Forall_forall. intros t Hin. destruct (Ht t Hin) as [H|[-> ->]].
    + rewrite Forall_forall in T2. by apply T2.
    + split; [done|]. discriminate.
  - destruct Hl as [->|(-> & h & -> & Hh)]; [done|]. by split.
Qed.

Lemma traffic_handle c e w :
  traffic_invariant c w -> traffic_invariant c (handle_of c e w).
Proof.
  intros Hw. rewrite handle_of_eq. destruct e as [|i|i r|s| |].
  - destruct Hw as [T1 T2 T3]. split; simpl; try done.
    apply Forall_app. split; [done|]. constructor; [|done]. split; [done|]. done.
  - destruct (timers w !! i) as [[ms t]|]; [|done]. apply traffic_run_task.
    destruct Hw as [T1 T2 T3]. split; simpl; try done. by apply Forall_delete.
  - destruct (inflight w !! i) as [[rq k]|]; [|done]. apply traffic_resume.
    destruct Hw as [T1 T2 T3]. split; simpl; try done. by apply Forall_delete.
  - destruct (userMessageInput w); [|done]. by apply (traffic_same c w).
  - destruct (userMessageInput w); [|done]. by apply traffic_sendMessage.
  - destruct (sendBtn w); [|done]. by apply traffic_sendMessage.
Qed.

Lemma reachable_traffic c w : reachable (handle_of c) w -> traffic_invariant c w.
Proof.
  induction 1 as [|w e Hr IH].
  - split; simpl; done.
  - by apply traffic_handle.
Qed.

(** X9.  Every request that is under way on a page the script can reach is
    a POST to /api/chat with a JSON content type, whose [username] is the
    page's constant.  The message of a [sendMessage] request is ["init"] or
    a trimmed input and never empty; only the second variant's report
    request posts the empty message. *)
Theorem requests_are_chat_posts
    (c : Client) (w : World) (rq : Request) (k : Cont) :
  reachable (handle_of c) w ->
  (rq, k) ∈ inflight w ->
  req_url rq = "/api/chat" /\ req_method rq = "POST" /\
  req_headers rq = [("Content-Type", "application/json")] /\
  get (req_body rq) "username" = Returned (username w) /\
  exists message,
    get (req_body rq) "message" = Returned (VStr message) /\
    match k with
    | KSend _ => message <> "" /\ (message = "init" \/ exists value, message = trim value)
    | KReport _ => c = ReportClient /\ message = ""
    end.
Proof.
  intros Hr Hin. destruct (reachable_traffic c w Hr) as [T1 _ _].
  rewrite Forall_forall in T1. specialize (T1 _ Hin). unfold request_ok in T1. simpl in T1.
  destruct k as [id|id].
  - destruct T1 as (message & -> & Hne & Hm).
    split; [done|]. split; [done|]. split; [done|].
    split; [apply chat_request_username|].
    exists message. split; [apply chat_request_message | done].
  - destruct T1 as (-> & ->).
    split; [done|]. split; [done|]. split; [done|].
    split; [apply chat_request_username|].
    exists "". split; [apply chat_request_message | done].
Qed.

Lemma requests_are_chat_posts_witness :
  let w := run_events Recommend.handle [EvLoad; EvTimer 0; EvType " 안녕 "; EvEnter]
             (script_start (Some (Some "kim")) (Some "") true (Some []) [] []) in
  exists rq message,
    inflight w !! 1 = Some (rq, KSend "msg-2") /\
    req_url rq = "/api/chat" /\ get (req_body rq) "username" = Returned (VStr "kim") /\
    get (req_body rq) "message" = Returned (VStr message) /\ message <> "".
Proof.
  intros w.
  assert (Hr : reachable (handle_of RecommendClient) w).
  { apply (reachable_after RecommendClient). apply page_ok_empty. by right. }
  assert (Hi : inflight w !! 1 = Some (chat_request "안녕" (VStr "kim"), KSend "msg-2"))
    by (vm_compute; reflexivity).
  destruct (requests_are_chat_posts RecommendClient w _ _ Hr (list_elem_of_lookup_2 _ _ _ Hi))
    as (H1 & _ & _ & H2 & message & H3 & H4 & _).
  exists (chat_request "안녕" (VStr "kim")), message.
  split; [exact Hi|]. split; [exact H1|]. split; [exact H2|]. split; [exact H3 | exact H4].
Defined.

(** X10.  Every timeout that is pending on a page the script can reach is
    one of 500 ms.  The first variant never asks for the report: all its
    pending timeouts are load checks and all its requests under way are
    sends. *)
Theorem redirect_variant_never_asks_for_report (c : Client) (w : World) :
  reachable (handle_of c) w ->
  (forall ms t, (ms, t) ∈ timers w -> ms = 500%N) /\
  (c = RecommendClient ->
   (forall ms t, (ms, t) ∈ timers w -> t = TLoadCheck) /\
   (forall rq k, (rq, k) ∈ inflight w -> exists loadingId, k = KSend loadingId)).
Proof.
  intros Hr. destruct (reachable_traffic c w Hr) as [T1 T2 _].
  rewrite Forall_forall in T1. rewrite Forall_forall in T2. split; [|intros ->; split].
  - intros ms t Hin. by destruct (T2 _ Hin).
  - intros ms t Hin. destruct (T2 _ Hin) as [_ H]. by apply H.
  - intros rq k Hin. specialize (T1 _ Hin). unfold request_ok in T1. simpl in T1.
    destruct k as [id|id]; [by exists id|]. by destruct T1.
Qed.

Lemma redirect_variant_never_asks_for_report_witness :
  let data := VObj (list_to_map [("reply", VStr "a"); ("needs_report_generation", VBool true)]) in
  let w := run_events Recommend.handle
             [EvLoad; EvTimer 0; EvSettle 0 (FetchResponse 200 (Returned data)); EvLoad]
             (script_start None (Some "") true (Some []) [] []) in
  exists ms t, timers w !! 0 = Some (ms, t) /\ ms = 500%N /\ t = TLoadCheck.
Proof.
  intros data w.
  assert (Hr : reachable (handle_of RecommendClient) w).
  { apply (reachable_after RecommendClient). apply page_ok_empty. by right. }
  destruct (redirect_variant_never_asks_for_report RecommendClient w Hr) as [H0 H].
  destruct (H eq_refl) as [H1 _].
  destruct (timers w !! 0) as [[ms t]|] eqn:E; [|vm_compute in E; discriminate].
  exists ms, t. split; [reflexivity|].
  split; [exact (H0 ms t (list_elem_of_lookup_2 _ _ _ E))
         | exact (H1 ms t (list_elem_of_lookup_2 _ _ _ E))].
Defined.

(** X11.  The script navigates nowhere but to the recommendation page: on
    a page the second variant can reach [window.location.href] was never
    assigned; on a page the first variant can reach it was not, or holds
    /program_recommendation? followed by the three parameters [image],
    [message] and [sentiment], form-encoded. *)
Theorem navigation_only_to_recommendation (c : Client) (w : World) :
  reachable (handle_of c) w ->
  (c = ReportClient -> location_href w = None) /\
  (forall h, location_href w = Some h ->
     exists image message sentiment : Value,
       h = "/program_recommendation?image=" ++ urlencode (ToString image) ++
           "&message=" ++ urlencode (ToString message) ++
           "&sentiment=" ++ urlencode (ToString sentiment)).
Proof.
  intros Hr. destruct (reachable_traffic c w Hr) as [_ _ T3].
  unfold location_ok in T3. destruct (location_href w) as [a|]; [|done].
  destruct T3 as (-> & image & message & sentiment & ->). split; [done|].
  intros h [= <-]. exists image, message, sentiment. reflexivity.
Qed.

Lemma navigation_only_to_recommendation_witness :
  let data := VObj (list_to_map [("program_recommendation", VStr "x")]) in
  let w := run_events Report.handle
             [EvLoad; EvTimer 0; EvSettle 0 (FetchResponse 200 (Returned data))]
             (script_start None (Some "") true (Some []) [] []) in
  location_href w = None.
Proof.
  intros data w.
  assert (Hr : reachable (handle_of ReportClient) w).
  { apply (reachable_after ReportClient). apply page_ok_empty. by right. }
  destruct (navigation_only_to_recommendation ReportClient w Hr) as [H _].
  by apply H.
Defined.

(** ** A failed request (C6) *)

Lemma resume_failed_world c loadingId r w :
  send_failed r ->
  (resume_of c (KSend loadingId) r w).1
  = appended c bot (VStr retry_apology) VNull (removed loadingId w).
Proof.
  intros Hf. destruct (send_failed_throws r Hf) as [err Ea].
  rewrite <- apology_world.
  destruct c; simpl;
    unfold Recommend.sendMessage_resume, Recommend.sendMessage_try,
      Report.sendMessage_resume, Report.sendMessage_try, try_catch;
    unfold mbind at 1, M_bind at 1, bind at 1; unfold lift; rewrite Ea; done.
Qed.

(** C6, as the code has it.  On every page the script can reach (with a
    chat log, the counter below 2^53): when a request under way fails, its
    loading message is in the log and is taken off, and exactly one bot
    message is put at the end of the log, whose text is a fixed apology,
    whatever the failure was; the rest of the log stays, nothing else on
    the page changes, nothing is sent or scheduled.  For a request of
    [sendMessage] itself (a typed message or the greeting) a failure is a
    rejected fetch or a status that is not OK, and the apology asks to try
    again.  For the automatic report request of the second variant a
    failure is a rejected fetch or a body that is no JSON or is [null], and
    the apology is the one of the report, which does not ask to try
    again. *)
Theorem failed_attempt_shows_fixed_apology
    (c : Client) (w : World) (i : nat) (rq : Request) (k : Cont)
    (r : FetchResult) (log : list Elem) :
  reachable (handle_of c) w ->
  (messageIdCounter w < 2 ^ 53)%N ->
  chatLog w = Some log ->
  inflight w !! i = Some (rq, k) ->
  attempt_failed k r ->
  let w' := handle_of c (EvSettle i r) w in
  let apology := bot_message (msg_id (messageIdCounter w)) (apology_of k) in
  exists j e,
    log !! j = Some e /\ el_id e = cont_id k /\
    chatLog w' = Some (delete j log ++ [apology])%list /\
    (cont_id k ∉ ids_of (delete j log ++ [apology])) /\
    el_textContent apology = apology_of k /\
    before w' = before w /\ after w' = after w /\
    inflight w' = delete i (inflight w) /\ timers w' = timers w /\
    location_href w' = location_href w.
Proof.
  intros Hr Hlt Hlog Hi Hf w' apology.
  destruct (settle_setup c w i rq k log Hr Hlt Hlog Hi)
    as (Hw' & j & e & He & Hid & Hrem & Htwice & Hnot & Hne).
  set (w0 := set_inflight (delete i (inflight w)) w) in *.
  assert (E : w' = appended c bot (VStr (apology_of k)) VNull (removed (cont_id k) w0)).
  { unfold w'. rewrite Hw'. destruct k as [loadingId|loadingId2]; simpl in *.
    - by apply resume_failed_world.
    - destruct c.
      { exfalso. destruct (reachable_traffic RecommendClient w Hr) as [T1 _ _].
        rewrite Forall_forall in T1.
        specialize (T1 _ (list_elem_of_lookup_2 _ _ _ Hi)). by destruct T1. }
      simpl resume_of. rewrite auto_report_resume_failed by done.
      f_equal. destruct r as [|? [|]]; done. }
  destruct (replaced_by_plain c w0 j log (cont_id k) (apology_of k) Hlog Hrem)
    as (H1 & H2 & H3 & H4 & H5 & H6 & _).
  exists j, e. split; [done|]. split; [done|]. rewrite E.
  split; [done|]. split.
  { unfold ids_of in *. rewrite fmap_app. simpl. intros Hmem.
    apply elem_of_app in Hmem as [Hmem|Hmem]; [done|].
    by apply list_elem_of_singleton in Hmem. }
  split; [by destruct k|]. done.
Qed.

Lemma failed_attempt_shows_fixed_apology_witness :
  let w := run_events Recommend.handle [EvLoad; EvTimer 0]
             (script_start None (Some "") true (Some []) [] []) in
  chatLog (Recommend.handle (EvSettle 0 (FetchResponse 503 (Threw (Rejection "html")))) w)
  = Some [bot_message "msg-1" retry_apology].
Proof.
  intros w.
  assert (Hr : reachable (handle_of RecommendClient) w).
  { apply (reachable_after RecommendClient). apply page_ok_empty. by right. }
  assert (Hlt : (messageIdCounter w < 2 ^ 53)%N) by (vm_compute; reflexivity).
  destruct (failed_attempt_shows_fixed_apology RecommendClient w 0
              (chat_request "init" (VStr "사용자")) (KSend "msg-0")
              (FetchResponse 503 (Threw (Rejection "html")))
              [bot_message "msg-0" thinking] Hr Hlt eq_refl eq_refl eq_refl)
    as (j & e & Hj & _ & H & _).
  destruct j as [|j]; [exact H|]. exfalso. by destruct j.
Defined.

(** C6 as stated fails on the request that the second variant's
    [sendMessage] sends for the report, a POST to [/api/chat] like the
    others.  When that fetch is rejected, the chain's own [catch] shows the
    apology of the report, which is not the retry string and does not ask to
    try again.  When the response has status 500 and a JSON body, no apology
    is shown at all and the body's [reply] is rendered as it came: the chain
    does not look at [response.ok], which the rest of [sendMessage]
    does. *)
Lemma report_request_failure_differs :
  let data := VObj (list_to_map [("reply", VStr "분석할게");
                                 ("needs_report_generation", VBool true)]) in
  let w := run_events Report.handle
             [EvLoad; EvTimer 0; EvSettle 0 (FetchResponse 200 (Returned data)); EvTimer 0]
             (script_start None (Some "") true (Some []) [] []) in
  let body := VObj (list_to_map [("reply", VStr "KeyError: 'total'")]) in
  inflight w = [(chat_request "" (VStr "사용자"), KReport "msg-2")] /\
  req_url (chat_request "" (VStr "사용자")) = "/api/chat" /\
  req_method (chat_request "" (VStr "사용자")) = "POST" /\
  send_failed (FetchFailed "offline") /\
  chatLog (Report.handle (EvSettle 0 (FetchFailed "offline")) w)
  = Some [bot_message "msg-1" "분석할게"; bot_message "msg-3" report_apology] /\
  report_apology <> retry_apology /\
  String.index 0 "다시 시도" retry_apology <> None /\
  String.index 0 "다시 시도" report_apology = None /\
  send_failed (FetchResponse 500 (Returned body)) /\
  chatLog (Report.handle (EvSettle 0 (FetchResponse 500 (Returned body))) w)
  = Some [bot_message "msg-1" "분석할게"; bot_message "msg-3" "KeyError: 'total'"].
Proof. vm_compute. repeat split; done. Qed.

(** ** The load check, once more *)

Lemma run_load_check c w :
  (run_task_of c TLoadCheck w).1
  = match chatLog w with
    | Some [] => (sendMessage_of c true w).1
    | _ => w
    end.
Proof.
  destruct c; simpl; unfold Recommend.load_check, Report.load_check;
    mrun; by destruct (chatLog w) as [[|]|].
Qed.

(** X18.  The load check is idempotent: when it has asked for the greeting,
    the loading message is in the log, so a second load check (after a
    second load event, say) sends nothing. *)
Theorem second_load_check_sends_nothing (c : Client) (w : World) :
  (run_task_of c TLoadCheck ((run_task_of c TLoadCheck w).1)).1
  = (run_task_of c TLoadCheck w).1.
Proof.
  rewrite !run_load_check. destruct (chatLog w) as [[|e l]|] eqn:Hlog; rewrite ?Hlog; try done.
  rewrite sendMessage_init. cbv zeta.
  change (chatLog (set_inflight ?l ?w)) with (chatLog w).
  assert (Hp : shows_in_panel c bot VNull = false) by (by destruct c).
  destruct (appended_plain c bot (VStr thinking) VNull w [] Hp Hlog) as (-> & _).
  done.
Qed.

(** ** The address of the recommendation page *)

Lemma append_cons a x y : String a x ++ y = String a (x ++ y).
Proof. reflexivity. Qed.

Lemma append_nil_r x : x ++ "" = x.
Proof. induction x as [|a x IH]; [done|]. by rewrite append_cons, IH. Qed.

Lemma bytes_of_app a b : bytes_of (a ++ b) = (bytes_of a ++ bytes_of b)%list.
Proof.
  unfold bytes_of. induction a as [|x a IH]; [done|].
  rewrite append_cons. simpl. by rewrite IH.
Qed.

Lemma urlencode_byte_safe a :
  forallb url_safe (bytes_of (urlencode_byte (Ascii.N_of_ascii a))) = true.
Proof. destruct a as [[] [] [] [] [] [] [] []]; vm_compute; reflexivity. Qed.

Lemma concat_empty_cons x l : String.concat "" (x :: l) = x ++ String.concat "" l.
Proof.
  destruct l as [|y l].
  - simpl. by rewrite append_nil_r.
  - reflexivity.
Qed.

Lemma urlencode_safe s : Forall (fun b => url_safe b = true) (bytes_of (urlencode s)).
Proof.
  unfold urlencode, bytes_of at 2.
  induction (String.list_ascii_of_string s) as [|a l IH]; [constructor|].
  rewrite !map_cons, concat_empty_cons, bytes_of_app. apply Forall_app. split; [|done].
  apply Forall_forall. intros b Hb.
  pose proof (urlencode_byte_safe a) as H. rewrite forallb_forall in H.
  apply H. by apply list_elem_of_In.
Qed.

(** X12.  The address the first variant navigates to has exactly the three
    parameters [image], [message] and [sentiment], in this order; each
    value is made of letters, digits and [*-._+%] only, so that no part of
    a reply can end the value, add a parameter or start a fragment. *)
Theorem recommendation_href_has_three_parameters (data : Value) :
  let recommendation := prop data "program_recommendation" in
  let image := urlencode (ToString (js_or (js_or (prop recommendation "image")
                                             (prop data "image")) (VStr ""))) in
  let message := urlencode (ToString (js_or (js_or (prop recommendation "message")
                                               (prop data "reply")) (VStr ""))) in
  let sentiment := urlencode (ToString (js_or (prop recommendation "sentiment")
                                          (VStr "positive"))) in
  recommendation_href data
  = "/program_recommendation?image=" ++ image ++ "&message=" ++ message ++
    "&sentiment=" ++ sentiment /\
  Forall (fun b => url_safe b = true) (bytes_of image) /\
  Forall (fun b => url_safe b = true) (bytes_of message) /\
  Forall (fun b => url_safe b = true) (bytes_of sentiment) /\
  (forall b, url_safe b = true -> (b < 128)%N /\ b ∉ [32; 35; 38; 47; 61; 63]%N).
Proof.
  intros recommendation image message sentiment.
  split; [reflexivity|]. split; [apply urlencode_safe|]. split; [apply urlencode_safe|].
  split; [apply urlencode_safe|].
  intros b Hb. unfold url_safe in Hb.
  repeat (apply orb_true_iff in Hb as [Hb|Hb]);
    repeat (apply andb_true_iff in Hb as [? ?]);
    repeat match goal with
           | H : (_ <=? _)%N = true |- _ => apply N.leb_le in H
           | H : (_ =? _)%N = true |- _ => apply N.eqb_eq in H
           end;
    (split; [lia|]); intros Hin;
    repeat (apply elem_of_cons in Hin as [Hin|Hin]; [lia|]); by apply elem_of_nil in Hin.
Qed.

(** ** The scoring contracts, once more *)

Lemma tier_cases x :
  ((x <= 20)%Q /\ tier x = FullyResolved) \/
  ((20 < x)%Q /\ (x <= 40)%Q /\ tier x = GentleAfterglow) \/
  ((40 < x)%Q /\ (x <= 60)%Q /\ tier x = ModerateAttachment) \/
  ((60 < x)%Q /\ (x <= 80)%Q /\ tier x = StrongAttachment) \/
  ((80 < x)%Q /\ tier x = VeryStrongAttachment).
Proof.
  unfold tier.
  destruct (Qle_bool x 20) eqn:E1; [apply Qle_bool_iff in E1; auto|].
  apply Qle_bool_false in E1.
  destruct (Qle_bool x 40) eqn:E2; [apply Qle_bool_iff in E2; auto|].
  apply Qle_bool_false in E2.
  destruct (Qle_bool x 60) eqn:E3; [apply Qle_bool_iff in E3; auto 6|].
  apply Qle_bool_false in E3.
  destruct (Qle_bool x 80) eqn:E4; [apply Qle_bool_iff in E4; auto 8|].
  apply Qle_bool_false in E4. auto 8.
Qed.

(** X24.  The tier lookup is monotone: a larger index never falls into a
    lower tier; and it does not depend on how the rational is written. *)
Theorem tier_is_monotone (a b : Q) :
  (a <= b)%Q ->
  tier_rank (tier a) <= tier_rank (tier b) /\
  ((a == b)%Q -> tier a = tier b).
Proof.
  intros Hle.
  destruct (tier_cases a) as [(?&->)|[(?&?&->)|[(?&?&->)|[(?&?&->)|(?&->)]]]],
    (tier_cases b) as [(?&->)|[(?&?&->)|[(?&?&->)|[(?&?&->)|(?&->)]]]];
    simpl; (split; [first [lia | exfalso; lra]
                   | intros Heq; first [reflexivity | exfalso; lra]]).
Qed.

Lemma tier_is_monotone_witness :
  tier_rank (tier 40) <= tier_rank (tier 40.5).
Proof.
  destruct (tier_is_monotone 40 40.5%Q) as [H _].
  - vm_compute. discriminate.
  - exact H.
Defined.

(** X25.  The composite index follows the scores: raising every score (or
    leaving it) never lowers the index, and changing one score alone by
    [delta] changes the index by the weight of that dimension times
    [delta]. *)
Theorem composite_index_follows_scores (s s' : DimensionScores) :
  ((forall d, s d <= s' d)%Q -> (composite_index s <= composite_index s')%Q) /\
  (forall d delta,
     (s' d == s d + delta)%Q -> (forall d', d' <> d -> (s' d' == s d')%Q) ->
     (composite_index s' == composite_index s + weight d * delta)%Q).
Proof.
  unfold composite_index, dimensions. simpl. split.
  - intros H. pose proof (H Attachment). pose proof (H Regret). pose proof (H Unresolved).
    pose proof (H Comparison). pose proof (H Avoidance). lra.
  - intros d delta Hd Hrest.
    destruct d;
      repeat match goal with
             | |- context [s' ?x] =>
                 first [ rewrite (Hrest x) by discriminate | rewrite Hd ]
             end; simpl; lra.
Qed.

(** ** The counter at 2^53 *)

(** X19.  The bound on the counter is needed: at 2^53 the increment of the
    double no longer changes it, two calls of [appendMessage] in a row hand
    out the same id, and the log then holds two messages under one id. *)
Theorem ids_repeat_at_2_53
    (c : Client) (w : World) (s1 s2 : Sender) (t1 i1 t2 i2 : Value) :
  messageIdCounter w = (2 ^ 53)%N ->
  (appendMessage_of c s2 t2 i2 (appended c s1 t1 i1 w)).2
  = (appendMessage_of c s1 t1 i1 w).2 /\
  forall log, chatLog w = Some log ->
    ~ unique_msgs (ids_of (log_of (appended c s2 t2 i2 (appended c s1 t1 i1 w)))).
Proof.
  intros Hc.
  destruct (appendMessage_of_result c s1 t1 i1 w) as [H1 H1c].
  destruct (appendMessage_of_result c s2 t2 i2 (appended c s1 t1 i1 w)) as [H2 _].
  assert (Hc1 : messageIdCounter (appended c s1 t1 i1 w) = messageIdCounter w).
  { unfold appended. rewrite H1c, Hc. reflexivity. }
  split; [by rewrite H1, H2, Hc1|].
  intros log Hlog Hu.
  rewrite appended_log_of in Hu.
  pose proof (appended_log_ids c s1 t1 i1 w) as Hl. rewrite Hlog in Hl. simpl in Hl.
  destruct (chatLog (appended c s1 t1 i1 w)) as [l1|] eqn:El; [|done].
  simpl in Hl. injection Hl as Hl. rewrite Hl, Hc1 in Hu.
  assert (E : length (ids_of log) = S (length (ids_of log))).
  { apply (Hu _ _ (msg_id (messageIdCounter w))).
    - rewrite lookup_app_l by (rewrite length_app; simpl; lia).
      by apply list_lookup_middle.
    - apply list_lookup_middle. rewrite length_app. simpl. lia.
    - by eexists. }
  lia.
Qed.

Lemma ids_repeat_at_2_53_witness :
  let w := mkWorld (VStr "kim") (Some "") true (Some []) [] [] (2 ^ 53) None [] [] in
  (Report.appendMessage bot (VStr "b") VNull (appended ReportClient user (VStr "a") VNull w)).2
  = (Report.appendMessage user (VStr "a") VNull w).2.
Proof.
  intros w.
  destruct (ids_repeat_at_2_53 ReportClient w user bot (VStr "a") VNull (VStr "b") VNull eq_refl)
    as [H _].
  exact H.
Defined.

(** ** Loading messages *)

Lemma msgs_stay_refl id w : msgs_stay id w w.
Proof. by split. Qed.

Lemma msgs_stay_trans id w1 w2 w3 :
  msgs_stay id w1 w2 -> msgs_stay id w2 w3 -> msgs_stay id w1 w3.
Proof. intros [H1 H2] [H3 H4]. split; [by rewrite H3|]. auto. Qed.

Lemma msgs_stay_remove id : keeps (msgs_stay id) (removeMessage id).
Proof.
  intros w. fold (removed id w). split; [apply removed_none|].
  intros e _ Hne Hin. unfold removed. rewrite removeMessage_world.
  destruct (getElementById id w) as [[i|i|i]|] eqn:E; try done.
  destruct (getElementById_elem _ _ _ E) as (e0 & He0 & Hid). simpl in He0.
  unfold log_of in *. simpl. destruct (chatLog w) as [log|]; simpl in *; [|done].
  apply (elem_of_delete_other _ _ _ e0); [done| |done]. intros ->. by apply Hne.
Qed.

Lemma elem_of_alter_other {A} (f : A -> A) (l : list A) i x y :
  l !! i = Some y -> x <> y -> x ∈ l -> x ∈ alter f i l.
Proof.
  intros Hi Hne Hx. apply list_elem_of_lookup in Hx as [j Hj].
  assert (j <> i) by (intros ->; congruence).
  apply list_elem_of_lookup. exists j. by rewrite list_lookup_alter_ne.
Qed.

Lemma alter_at_msgs f l w e0 :
  elem_at l w = Some e0 -> ~ is_msg_id (el_id e0) ->
  forall e, is_msg_id (el_id e) -> e ∈ log_of w -> e ∈ log_of (alter_at f l w).
Proof.
  intros He0 Hno e He Hin. destruct l as [i|i|i]; simpl in *; try done.
  unfold log_of in *. simpl. destruct (chatLog w) as [log|]; simpl in *; [|done].
  apply (elem_of_alter_other _ _ _ _ e0); [done| |done]. intros ->. by apply Hno.
Qed.

Lemma panel_ids_no_msg :
  ~ is_msg_id "character-image" /\ ~ is_msg_id "character-name".
Proof. split; intros [n H]; unfold msg_id in H; simpl in H; simplify_eq. Qed.

Lemma updateCharacterImage_msgs imageSrc w e :
  is_msg_id (el_id e) -> e ∈ log_of w ->
  e ∈ log_of ((Recommend.updateCharacterImage imageSrc w).1).
Proof.
  intros He Hin. rewrite updateCharacterImage_eq. simpl.
  destruct panel_ids_no_msg as [Hi Hn].
  destruct (getElementById "character-image" w) as [l1|] eqn:E1; [|done].
  destruct (ToBoolean imageSrc); [|done].
  destruct (getElementById_elem _ _ _ E1) as (e1 & He1 & Hid1).
  assert (H1 : e ∈ log_of (alter_at (show_picture imageSrc) l1 w)).
  { apply (alter_at_msgs _ _ _ e1); try done. by rewrite Hid1. }
  destruct (getElementById "character-name" w) as [l2|] eqn:E2; [|done].
  destruct (getElementById_elem _ _ _ E2) as (e2 & He2 & Hid2).
  destruct (elem_at_alter_at_other (show_picture imageSrc) l2 l1 w e2 (fun x => eq_refl) He2)
    as (e2' & He2' & Hid2' & _).
  apply (alter_at_msgs _ _ _ e2'); try done. by rewrite Hid2', Hid2.
Qed.

Lemma log_of_appendChild e w :
  log_of (chatLog_appendChild e w)
  = match chatLog w with Some l => (l ++ [e])%list | None => [] end.
Proof. unfold log_of. simpl. by destruct (chatLog w). Qed.

Lemma appended_msgs c sender text imageSrc w e :
  is_msg_id (el_id e) -> e ∈ log_of w -> e ∈ log_of (appended c sender text imageSrc w).
Proof.
  intros He Hin. rewrite appended_eq, log_of_appendChild. cbv zeta.
  set (w1 := set_counter (js_incr (messageIdCounter w)) w).
  assert (Hin1 : e ∈ log_of w1) by done.
  destruct (shows_in_panel c sender imageSrc).
  - pose proof (updateCharacterImage_msgs imageSrc w1 e He Hin1) as H.
    unfold log_of in H. destruct (chatLog _) as [l|]; simpl in H; [|done].
    apply elem_of_app. by left.
  - unfold log_of in Hin1. destruct (chatLog w1) as [l|]; simpl in Hin1; [|done].
    apply elem_of_app. by left.
Qed.

Lemma msgs_stay_append id c sender text imageSrc :
  keeps (msgs_stay id) (appendMessage_of c sender text imageSrc).
Proof.
  intros w. fold (appended c sender text imageSrc w). split; [apply appended_none|].
  intros e He _. by apply appended_msgs.
Qed.

Lemma msgs_stay_keeps c k r : keeps (msgs_stay (cont_id k)) (resume_of c k r).
Proof.
  destruct c, k as [id|id]; simpl;
    unfold Recommend.sendMessage_resume, Recommend.sendMessage_try,
      Report.sendMessage_resume, Report.sendMessage_try, Report.auto_report_resume;
    repeat first
      [ apply (keeps_ret _ (msgs_stay_refl id))
      | apply (keeps_lift _ (msgs_stay_refl id))
      | apply msgs_stay_remove
      | apply (msgs_stay_append id RecommendClient)
      | apply (msgs_stay_append id ReportClient)
      | apply (keeps_bind _ (msgs_stay_trans id)); [|intros ?]
      | apply (keeps_try_catch _ (msgs_stay_trans id)); [|intros ?]
      | case_match
      | (intros ?; by split) ].
Qed.

Lemma loading_same w w' :
  inflight w' = inflight w -> chatLog w' = chatLog w ->
  loading_shown w -> loading_shown w'.
Proof.
  intros Hi Hl H. unfold loading_shown, pending_ids, log_of in *. by rewrite Hi, Hl.
Qed.

Lemma loading_appended c sender text imageSrc w :
  (forall s, s ∈ pending_ids w -> is_msg_id s) ->
  loading_shown w -> loading_shown (appended c sender text imageSrc w).
Proof.
  intros Hmsg H Hsome s Hs.
  assert (Hp : pending_ids (appended c sender text imageSrc w) = pending_ids w).
  { unfold pending_ids, appended.
    by destruct (appendMessage_of_fields c sender text imageSrc w) as (-> & _). }
  rewrite Hp in Hs. apply appended_msgs; [by apply Hmsg|]. apply H; [|done].
  intros Hn. apply Hsome. by apply appended_none.
Qed.

Lemma loading_push c w rq (K : string -> Cont) :
  (forall id, cont_id (K id) = id) ->
  (forall s, s ∈ pending_ids w -> is_msg_id s) ->
  loading_shown w ->
  let w1 := appended c bot (VStr thinking) VNull w in
  loading_shown (set_inflight (inflight w1 ++ [(rq, K (msg_id (messageIdCounter w)))]) w1).
Proof.
  intros HK Hmsg H w1 Hsome s Hs.
  change (log_of (set_inflight ?l ?w)) with (log_of w).
  change (chatLog (set_inflight ?l ?w)) with (chatLog w) in Hsome.
  unfold pending_ids in Hs. simpl in Hs. rewrite fmap_app in Hs.
  apply elem_of_app in Hs as [Hs|Hs].
  - by apply (loading_appended c bot (VStr thinking) VNull w Hmsg H).
  - simpl in Hs. apply list_elem_of_singleton in Hs. rewrite HK in Hs. subst s.
    destruct (chatLog w) as [log|] eqn:Hlog.
    + assert (Hp : shows_in_panel c bot VNull = false) by (by destruct c).
      destruct (appended_plain c bot (VStr thinking) VNull w log Hp Hlog) as (Hl & _).
      fold w1 in Hl. unfold log_of. rewrite Hl. simpl. rewrite message_elem_plain.
      apply elem_of_app. right. by left.
    + exfalso. apply Hsome. by apply appended_none.
Qed.

Lemma pending_msg w : pending_invariant w -> forall s, s ∈ pending_ids w -> is_msg_id s.
Proof. intros [P1 _ _] s Hs. destruct (P1 s Hs) as (n & -> & _). by exists n. Qed.

Lemma loading_sendMessage c isInitial w :
  pending_invariant w -> loading_shown w ->
  loading_shown ((sendMessage_of c isInitial w).1).
Proof.
  intros Hp Hw. pose proof (pending_msg w Hp) as Hmsg. destruct isInitial.
  - rewrite sendMessage_init. cbv zeta. by apply (loading_push c w _ KSend).
  - rewrite sendMessage_typed. destruct (userMessageInput w) as [value|]; [|done].
    destruct (bool_decide (trim value = "")); [done|]. cbv zeta.
    set (w2 := set_input (Some "") (appended c user (VStr (trim value)) VNull w)).
    assert (Hp2 : pending_ids w2 = pending_ids w).
    { unfold pending_ids, w2, appended. simpl.
      by destruct (appendMessage_of_fields c user (VStr (trim value)) VNull w) as (-> & _). }
    apply (loading_push c w2 _ KSend); [done|by rewrite Hp2|].
    apply (loading_same (appended c user (VStr (trim value)) VNull w)); [done|done|].
    by apply loading_appended.
Qed.

Lemma loading_handle c e w :
  pending_invariant w -> loading_shown w -> loading_shown (handle_of c e w).
Proof.
  intros Hp Hw. rewrite handle_of_eq. destruct e as [|i|i r|s| |].
  - by apply (loading_same w).
  - destruct (timers w !! i) as [[ms t]|]; [|done].
    set (w0 := set_timers (delete i (timers w)) w).
    assert (Hp0 : pending_invariant w0) by (by apply (pending_same w)).
    assert (Hw0 : loading_shown w0) by (by apply (loading_same w)).
    destruct t.
    + rewrite run_load_check. destruct (chatLog w0) as [[|]|]; try done.
      by apply loading_sendMessage.
    + destruct c; [done|].
      change (run_task_of ReportClient TAutoReport w0) with (Report.auto_report w0).
      rewrite Report_auto_report_world. cbv zeta.
      change Report.appendMessage with (appendMessage_of ReportClient).
      fold (appended ReportClient bot (VStr thinking) VNull w0).
      apply (loading_push ReportClient w0 _ KReport); [done| |done].
      by apply pending_msg.
  - destruct (inflight w !! i) as [[rq k]|] eqn:Hi; [|done].
    destruct (pending_delete w i rq k Hi Hp) as (Hp0 & Hnot & _).
    set (w0 := set_inflight (delete i (inflight w)) w) in *.
    destruct (msgs_stay_keeps c k r w0) as [Hnone Hstay].
    destruct (resume_keeps c k r w0) as (Hinf & _).
    intros Hsome s Hs.
    assert (Hs0 : s ∈ pending_ids w0) by (unfold pending_ids in *; by rewrite <- Hinf).
    apply Hstay.
    + simpl. by apply (pending_msg w0).
    + simpl. intros ->. done.
    + change (log_of w0) with (log_of w). apply Hw.
      * intros Hn. apply Hsome. apply Hnone. done.
      * unfold pending_ids in *. simpl in Hs0. rewrite list_fmap_delete in Hs0.
        by eapply list_elem_of_delete_inv.
  - destruct (userMessageInput w); [|done]. by apply (loading_same w).
  - destruct (userMessageInput w); [|done]. by apply loading_sendMessage.
  - destruct (sendBtn w); [|done]. by apply loading_sendMessage.
Qed.

Lemma reachable_loading c w :
  reachable (handle_of c) w -> (messageIdCounter w < 2 ^ 53)%N -> loading_shown w.
Proof.
  intros Hr. induction Hr as [| w e Hr IH]; intros Hc.
  - intros _ s Hs. by apply elem_of_nil in Hs.
  - destruct (ids_step_handle c e w) as [Hle _].
    apply loading_handle; [apply (reachable_pending c) | apply IH]; try done; lia.
Qed.

(** X8.  On every page the script can reach, as long as a request is under
    way its loading message is in the log: the bot message with the text
    생각 중... under the id its continuation holds; [getElementById] finds
    it there, and no two requests share one. *)
Theorem pending_request_shows_loading_message
    (c : Client) (w : World) (i : nat) (rq : Request) (k : Cont) (log : list Elem) :
  reachable (handle_of c) w ->
  (messageIdCounter w < 2 ^ 53)%N ->
  chatLog w = Some log ->
  inflight w !! i = Some (rq, k) ->
  exists j,
    log !! j = Some (bot_message (cont_id k) thinking) /\
    getElementById (cont_id k) w = Some (InLog j) /\
    el_textContent (bot_message (cont_id k) thinking) = thinking /\
    (forall i' rq' k', inflight w !! i' = Some (rq', k') ->
       cont_id k' = cont_id k -> i' = i).
Proof.
  intros Hr Hlt Hlog Hi.
  pose proof (reachable_ids c w Hr Hlt) as Hids.
  pose proof (reachable_pending c w Hr Hlt) as Hpend.
  pose proof (reachable_loading c w Hr Hlt) as Hload.
  assert (Hs : cont_id k ∈ pending_ids w).
  { unfold pending_ids. apply list_elem_of_fmap. exists (rq, k).
    split; [done|]. by eapply list_elem_of_lookup_2. }
  assert (Hin : bot_message (cont_id k) thinking ∈ log).
  { assert (H := Hload). unfold loading_shown, log_of in H. rewrite Hlog in H.
    by apply H. }
  apply list_elem_of_lookup in Hin as [j0 Hj0].
  assert (Hin' : cont_id k ∈ ids_of log).
  { apply list_elem_of_fmap. exists (bot_message (cont_id k) thinking).
    split; [done|]. by eapply list_elem_of_lookup_2. }
  destruct (pending_found w (cont_id k) log Hids (pending_msg w Hpend _ Hs) Hlog Hin')
    as (j & e & Hget & He & Hid).
  assert (Hj : j0 = j).
  { destruct Hids as [_ _ I3]. unfold log_of in I3. rewrite Hlog in I3. simpl in I3.
    apply (I3 j0 j (cont_id k)).
    - unfold ids_of. by rewrite list_lookup_fmap, Hj0.
    - unfold ids_of. rewrite list_lookup_fmap, He. simpl. by rewrite Hid.
    - by apply (pending_msg w Hpend). }
  subst j0. exists j. split; [done|]. split; [done|]. split; [reflexivity|].
  intros i' rq' k' Hi' Hk. destruct Hpend as [_ P2 _].
  apply (NoDup_lookup _ i' i (cont_id k) P2); unfold pending_ids;
    rewrite list_lookup_fmap; [rewrite Hi' | rewrite Hi]; simpl; congruence.
Qed.

Lemma pending_request_shows_loading_message_witness :
  let w := run_events Report.handle [EvLoad; EvTimer 0; EvType "hi"; EvEnter]
             (script_start None (Some "") true (Some []) [] []) in
  getElementById "msg-2" w = Some (InLog 2).
Proof.
  intros w.
  assert (Hr : reachable (handle_of ReportClient) w).
  { apply (reachable_after ReportClient). apply page_ok_empty. by right. }
  assert (Hlt : (messageIdCounter w < 2 ^ 53)%N) by (vm_compute; reflexivity).
  assert (Hlog : chatLog w = Some [bot_message "msg-0" thinking; user_message "msg-1" "hi";
                                   bot_message "msg-2" thinking])
    by (vm_compute; reflexivity).
  assert (Hi : inflight w !! 1 = Some (chat_request "hi" (VStr "사용자"), KSend "msg-2"))
    by (vm_compute; reflexivity).
  destruct (pending_request_shows_loading_message ReportClient w 1 _ _ _
              Hr Hlt Hlog Hi) as (j & Hj & Hg & _).
  destruct j as [|[|[|j]]]; simpl in Hj; simplify_eq. exact Hg.
Defined.

(** ** The reply to the report request *)

(** X14.  The chain of the automatic report request looks neither at the
    status nor at the type of [reply]: on every page the second variant can
    reach, whenever the request settles with a body that is not [null], its
    loading message is taken off and one bot message is put at the end of
    the log, whose text is [reply] converted to a string (the empty string
    when [reply] is missing or falsy), with the picture before it if there
    is one; nothing is scheduled or sent. *)
Theorem report_reply_is_rendered_whatever_status
    (w : World) (i : nat) (rq : Request) (loadingId2 : string)
    (status : N) (data : Value) (log : list Elem) :
  reachable (handle_of ReportClient) w ->
  (messageIdCounter w < 2 ^ 53)%N ->
  chatLog w = Some log ->
  inflight w !! i = Some (rq, KReport loadingId2) ->
  data <> VNull -> data <> VUndefined ->
  let w' := Report.handle (EvSettle i (FetchResponse status (Returned data))) w in
  let replyText := js_or (prop data "reply") (VStr "") in
  let imagePath := js_or (prop data "image") VNull in
  let shown := message_elem ReportClient (msg_id (messageIdCounter w)) bot
                 replyText imagePath in
  exists j e,
    log !! j = Some e /\ el_id e = loadingId2 /\
    chatLog w' = Some (delete j log ++ [shown])%list /\
    el_textContent shown = ToString replyText /\
    before w' = before w /\ after w' = after w /\
    inflight w' = delete i (inflight w) /\ timers w' = timers w /\
    location_href w' = location_href w.
Proof.
  intros Hr Hlt Hlog Hi Hn Hu w' replyText imagePath shown.
  destruct (settle_setup ReportClient w i rq (KReport loadingId2) log Hr Hlt Hlog Hi)
    as (Hw' & j & e & He & Hid & Hrem & _).
  simpl in Hid, Hrem.
  exists j, e. split; [done|]. split; [done|].
  assert (E : w' = appended ReportClient bot replyText imagePath
                     (removed loadingId2 (set_inflight (delete i (inflight w)) w))).
  { unfold w'. change Report.handle with (handle_of ReportClient). rewrite Hw'.
    simpl resume_of. by rewrite Report_auto_report_resume_ok. }
  rewrite Hrem, appended_eq in E. simpl in E. fold shown in E. rewrite E. simpl.
  split; [done|]. split; [|done].
  destruct (js_or_defined (prop data "reply") "") as [H1 H2].
  by apply message_elem_text.
Qed.

Lemma report_reply_is_rendered_whatever_status_witness :
  let data := VObj (list_to_map [("reply", VStr "분석할게"); ("needs_report_generation", VBool true)]) in
  let w := run_events Report.handle
             [EvLoad; EvTimer 0; EvSettle 0 (FetchResponse 200 (Returned data)); EvTimer 0]
             (script_start None (Some "") true (Some []) [] []) in
  let data2 := VObj (list_to_map [("reply", VNum "500")]) in
  exists shown,
    chatLog (Report.handle (EvSettle 0 (FetchResponse 500 (Returned data2))) w)
    = Some [bot_message "msg-1" "분석할게"; shown] /\
    el_textContent shown = "500".
Proof.
  intros data w data2.
  assert (Hr : reachable (handle_of ReportClient) w).
  { apply (reachable_after ReportClient). apply page_ok_empty. by right. }
  assert (Hlt : (messageIdCounter w < 2 ^ 53)%N) by (vm_compute; reflexivity).
  assert (Hlog : chatLog w = Some [bot_message "msg-1" "분석할게"; bot_message "msg-2" thinking])
    by (vm_compute; reflexivity).
  assert (Hi : inflight w !! 0 = Some (chat_request "" (VStr "사용자"), KReport "msg-2"))
    by (vm_compute; reflexivity).
  assert (Hn : data2 <> VNull) by discriminate.
  assert (Hu : data2 <> VUndefined) by discriminate.
  destruct (report_reply_is_rendered_whatever_status w 0 _ "msg-2" 500 data2 _
              Hr Hlt Hlog Hi Hn Hu) as (j & e & Hj & Hid & H & Ht & _).
  eexists. split; [|exact Ht].
  clear Hr Hlt Hlog Hi. destruct j as [|[|j]].
  - exfalso. injection Hj as <-. discriminate Hid.
  - exact H.
  - exfalso. by destruct j.
Defined.

(** ** One exchange *)

Lemma delete_last_of_two {A} (l : list A) (u x : A) (P : A -> Prop) j e :
  (l ++ [u; x])%list !! j = Some e -> P x ->
  (forall y, y ∈ delete j (l ++ [u; x])%list -> ~ P y) ->
  delete j (l ++ [u; x])%list = (l ++ [u])%list.
Proof.
  intros Hj Hx Hnot.
  assert (Hlast : (l ++ [u; x])%list !! S (length l) = Some x).
  { replace (l ++ [u; x])%list with ((l ++ [u]) ++ x :: [])%list by (by rewrite <- app_assoc).
    apply list_lookup_middle. rewrite length_app. simpl. lia. }
  destruct (decide (j = S (length l))) as [->|Hne].
  - replace (l ++ [u; x])%list with ((l ++ [u]) ++ x :: [])%list by (by rewrite <- app_assoc).
    replace (S (length l)) with (length (l ++ [u])%list) by (rewrite length_app; simpl; lia).
    rewrite delete_middle. by rewrite app_nil_r.
  - exfalso. apply (Hnot x); [|done].
    assert (Hlen : j < length (l ++ [u; x])%list) by (by eapply lookup_lt_Some).
    rewrite length_app in Hlen. simpl in Hlen.
    apply list_elem_of_lookup. exists (length l).
    by rewrite list_lookup_delete_ge by lia.
Qed.

(** X7.  One exchange, end to end.  On a page the script can reach, with a
    chat log: the user presses Enter on a non-blank input and the request
    settles with an OK reply whose [reply] is a string or falsy (no
    recommendation to redirect to, no picture for the panel).  Then the log
    has grown by exactly two messages, the user's trimmed text and the
    bot's reply; the loading message is gone, the input is empty and the
    requests under way are those of before. *)
Theorem exchange_adds_message_and_reply
    (c : Client) (w : World) (value : string) (status : N) (data : Value)
    (log : list Elem) :
  reachable (handle_of c) w ->
  (messageIdCounter w + 2 < 2 ^ 53)%N ->
  chatLog w = Some log ->
  userMessageInput w = Some value ->
  trim value <> "" ->
  ok status = true ->
  data <> VNull -> data <> VUndefined ->
  (c = RecommendClient -> ToBoolean (prop data "program_recommendation") = false) ->
  substring_check (js_or (prop data "reply") (VStr "")) = Returned tt ->
  shows_in_panel c bot (js_or (prop data "image") VNull) = false ->
  let n := messageIdCounter w in
  let w1 := handle_of c EvEnter w in
  let w2 := handle_of c (EvSettle (length (inflight w))
                           (FetchResponse status (Returned data))) w1 in
  let reply := message_elem c (msg_id (n + 2)) bot
                 (js_or (prop data "reply") (VStr ""))
                 (js_or (prop data "image") VNull) in
  chatLog w2 = Some (log ++ [user_message (msg_id n) (trim value); reply])%list /\
  el_textContent reply = ToString (js_or (prop data "reply") (VStr "")) /\
  inflight w2 = inflight w /\ userMessageInput w2 = Some "" /\
  messageIdCounter w2 = (n + 3)%N /\
  before w2 = before w /\ after w2 = after w /\ location_href w2 = location_href w.
Proof.
  intros Hr Hlt Hlog Hv Ht Hok Hn Hu Hrec Hsub Hpanel n w1 w2 reply.
  assert (Hinc : forall m, (m < 2 ^ 53)%N -> js_incr m = (m + 1)%N).
  { intros m Hm. unfold js_incr. by rewrite (proj2 (N.ltb_lt _ _) Hm). }
  assert (Hpu : shows_in_panel c user VNull = false) by (by destruct c).
  assert (Hpb : shows_in_panel c bot VNull = false) by (by destruct c).
  assert (E1 : w1 = set_inflight
                 (inflight w ++ [(chat_request (trim value) (username w),
                                  KSend (msg_id (n + 1)))])%list
                 (set_counter (n + 2)
                    (set_chatLog (Some (log ++ [user_message (msg_id n) (trim value);
                                                bot_message (msg_id (n + 1)) thinking])%list)
                       (set_input (Some "") w)))).
  { unfold w1. rewrite handle_of_eq, Hv, sendMessage_typed, Hv.
    rewrite bool_decide_eq_false_2 by done. cbv zeta.
    rewrite !appended_eq, Hpu, Hpb. simpl.
    unfold chatLog_appendChild, set_inflight, set_counter, set_chatLog, set_input. simpl.
    rewrite Hlog. simpl. fold n.
    rewrite (Hinc n) by lia. rewrite (Hinc (n + 1)%N) by lia.
    rewrite <- app_assoc. simpl. rewrite message_elem_plain.
    replace (n + 1 + 1)%N with (n + 2)%N by lia.
    assert (Eu : message_elem c (msg_id n) user (VStr (trim value)) VNull
                 = user_message (msg_id n) (trim value)) by (by destruct c).
    rewrite Eu. reflexivity. }
  assert (Hr1 : reachable (handle_of c) w1) by (by apply reachable_step).
  set (log1 := (log ++ [user_message (msg_id n) (trim value);
                        bot_message (msg_id (n + 1)) thinking])%list) in *.
  assert (Hlog1 : chatLog w1 = Some log1) by (by rewrite E1).
  assert (Hc1 : messageIdCounter w1 = (n + 2)%N) by (by rewrite E1).
  assert (Hi1 : inflight w1 !! length (inflight w)
                = Some (chat_request (trim value) (username w), KSend (msg_id (n + 1)))).
  { rewrite E1. simpl. by apply list_lookup_middle. }
  assert (Hlt1 : (messageIdCounter w1 < 2 ^ 53)%N) by (rewrite Hc1; lia).
  destruct (settle_setup c w1 _ _ _ log1 Hr1 Hlt1 Hlog1 Hi1)
    as (Hw' & j & e & He & Hid & Hrem & _ & Hnot & _).
  simpl in Hid, Hrem, Hnot.
  assert (Hdel : delete j log1 = (log ++ [user_message (msg_id n) (trim value)])%list).
  { apply (delete_last_of_two log _ _ (fun y => el_id y = msg_id (n + 1)) j e);
      [done|done|].
    intros y Hy Hyid. apply Hnot. rewrite <- Hyid. apply list_elem_of_fmap. by exists y. }
  assert (E2 : w2 = let w3 := appended c bot (js_or (prop data "reply") (VStr ""))
                                (js_or (prop data "image") VNull)
                                (removed (msg_id (n + 1))
                                   (set_inflight (delete (length (inflight w)) (inflight w1)) w1)) in
                    if follow_up c data
                    then set_timers (timers w3 ++ [(500%N, TAutoReport)]) w3 else w3).
  { unfold w2. rewrite Hw'. by apply resume_reply. }
  cbv zeta in E2. rewrite Hrem, Hdel, appended_eq, Hpanel in E2. simpl in E2.
  rewrite Hc1 in E2. fold reply in E2.
  assert (Hinf : delete (length (inflight w)) (inflight w1) = inflight w).
  { rewrite E1. simpl. rewrite delete_middle. by rewrite app_nil_r. }
  rewrite Hinf in E2.
  assert (Htext : el_textContent reply = ToString (js_or (prop data "reply") (VStr ""))).
  { destruct (js_or_defined (prop data "reply") "") as [H1 H2]. by apply message_elem_text. }
  rewrite E2. destruct (follow_up c data); simpl; rewrite <- app_assoc; simpl;
    rewrite (Hinc (n + 2)%N) by lia; rewrite E1; simpl.
  all: repeat split; try done; lia.
Qed.

Lemma exchange_adds_message_and_reply_witness :
  let w := run_events Report.handle
             [EvLoad; EvTimer 0; EvSettle 0 (FetchFailed "offline"); EvType " 안녕 "]
             (script_start None (Some "") true (Some []) [] []) in
  let data := VObj (list_to_map [("reply", VStr "반가워"); ("image", VStr "/a.png")]) in
  chatLog (run_events Report.handle
             [EvEnter; EvSettle 0 (FetchResponse 200 (Returned data))] w)
  = Some [bot_message "msg-1" retry_apology; user_message "msg-2" "안녕";
          message_elem ReportClient "msg-4" bot (VStr "반가워") (VStr "/a.png")].
Proof.
  intros w data.
  assert (Hr : reachable (handle_of ReportClient) w).
  { apply (reachable_after ReportClient). apply page_ok_empty. by right. }
  assert (Hlt : (messageIdCounter w + 2 < 2 ^ 53)%N) by (vm_compute; reflexivity).
  assert (Hlog : chatLog w = Some [bot_message "msg-1" retry_apology])
    by (vm_compute; reflexivity).
  assert (Ht : trim " 안녕 " <> "") by (vm_compute; discriminate).
  assert (Hn : data <> VNull) by discriminate.
  assert (Hu : data <> VUndefined) by discriminate.
  assert (Hrec : ReportClient = RecommendClient ->
                 ToBoolean (prop data "program_recommendation") = false) by discriminate.
  assert (Hsub : substring_check (js_or (prop data "reply") (VStr "")) = Returned tt)
    by (vm_compute; reflexivity).
  destruct (exchange_adds_message_and_reply ReportClient w " 안녕 " 200 data _
              Hr Hlt Hlog eq_refl Ht eq_refl Hn Hu Hrec Hsub eq_refl) as (H & _).
  exact H.
Defined.

(** ** However a request settles *)

Lemma log_of_set_location h w : log_of (set_location h w) = log_of w.
Proof. reflexivity. Qed.

Lemma log_of_set_timers l w : log_of (set_timers l w) = log_of w.
Proof. reflexivity. Qed.

(** The ids of the log after a message has been put in place of the loading
    message at place [j]. *)
Lemma replaced_ids c w0 j log id sender text imageSrc :
  chatLog w0 = Some log ->
  removed id w0 = set_chatLog (Some (delete j log)) w0 ->
  ids_of (log_of (appended c sender text imageSrc (removed id w0)))
  = (ids_of (delete j log) ++ [msg_id (messageIdCounter w0)])%list.
Proof.
  intros Hlog Hrem. rewrite appended_log_of, Hrem. reflexivity.
Qed.

(** X26.  However a request settles (rejected, any status, any body), on
    every page the script can reach: its loading message is taken off the
    log, at most one message is put at the end, under the id the counter
    stood at, and no other element leaves the log; afterwards no element of
    the log carries the loading message's id, and the request is no longer
    under way while the others are. *)
Theorem settled_request_loses_loading_message
    (c : Client) (w : World) (i : nat) (rq : Request) (k : Cont)
    (r : FetchResult) (log : list Elem) :
  reachable (handle_of c) w ->
  (messageIdCounter w < 2 ^ 53)%N ->
  chatLog w = Some log ->
  inflight w !! i = Some (rq, k) ->
  let w' := handle_of c (EvSettle i r) w in
  exists j e,
    log !! j = Some e /\ el_id e = cont_id k /\
    (ids_of (log_of w') = ids_of (delete j log) \/
     ids_of (log_of w') = (ids_of (delete j log) ++ [msg_id (messageIdCounter w)])%list) /\
    (cont_id k ∉ ids_of (log_of w')) /\
    inflight w' = delete i (inflight w).
Proof.
  intros Hr Hlt Hlog Hi w'.
  destruct (settle_setup c w i rq k log Hr Hlt Hlog Hi)
    as (Hw' & j & e & He & Hid & Hrem & Htwice & Hnot & Hne).
  set (w0 := set_inflight (delete i (inflight w)) w) in *.
  exists j, e. split; [done|]. split; [done|].
  assert (Hinf : inflight w' = delete i (inflight w)).
  { unfold w'. rewrite Hw'. by destruct (resume_keeps c k r w0) as (-> & _). }
  assert (Hplus : forall sender text imageSrc,
            ids_of (log_of (appended c sender text imageSrc (removed (cont_id k) w0)))
            = (ids_of (delete j log) ++ [msg_id (messageIdCounter w)])%list).
  { intros. by apply (replaced_ids c w0 j log). }
  assert (Hcases : ids_of (log_of w') = ids_of (delete j log) \/
                   ids_of (log_of w')
                   = (ids_of (delete j log) ++ [msg_id (messageIdCounter w)])%list).
  { unfold w'. rewrite Hw'. destruct k as [loadingId|loadingId2]; simpl in *.
    - destruct (awaited_json r) as [data|err] eqn:Ea.
      + assert (Hr' : exists status, r = FetchResponse status (Returned data) /\
                                     ok status = true).
        { destruct r as [reason|status json]; simpl in Ea; [done|].
          destruct (ok status) eqn:Hok; [|done]. subst json. eauto. }
        destruct Hr' as (status & -> & Hok).
        assert (Hd : data = VNull \/ data = VUndefined \/
                     (data <> VNull /\ data <> VUndefined)) by (destruct data; auto).
        assert (Hun : forall json, unreadable c json -> json = Returned data ->
                  ids_of (log_of (resume_of c (KSend loadingId)
                                    (FetchResponse status json) w0).1)
                  = (ids_of (delete j log) ++ [msg_id (messageIdCounter w)])%list).
        { intros json Hu ->. rewrite resume_unreadable by done. rewrite Htwice.
          apply Hplus. }
        destruct Hd as [-> | [-> | [Hn Hu]]]; [right; by apply Hun | right; by apply Hun |].
        destruct (substring_check (js_or (prop data "reply") (VStr ""))) as [[]|err] eqn:Hsub.
        * destruct c.
          -- pose proof (Recommend_resume_ok loadingId status data w0 Hok Hn Hu) as H.
             cbv zeta in H.
             destruct (ToBoolean (prop data "program_recommendation")) eqn:Hrec.
             ++ left. simpl resume_of. rewrite H. rewrite log_of_set_location.
                unfold removed in Hrem. rewrite Hrem. reflexivity.
             ++ right. rewrite resume_reply; try done. cbv zeta. simpl follow_up.
                cbv iota. apply Hplus.
          -- right. rewrite resume_reply; try done. cbv zeta.
             destruct (follow_up ReportClient data); rewrite ?log_of_set_timers; apply Hplus.
        * destruct c.
          -- destruct (ToBoolean (prop data "program_recommendation")) eqn:Hrec.
             ++ left. pose proof (Recommend_resume_ok loadingId status data w0 Hok Hn Hu) as H.
                cbv zeta in H. rewrite Hrec in H. simpl resume_of. rewrite H.
                rewrite log_of_set_location. unfold removed in Hrem. rewrite Hrem. reflexivity.
             ++ right. apply Hun; [|done]. destruct data; try done; split; try done;
                  rewrite Hsub; discriminate.
          -- right. apply Hun; [|done]. destruct data; try done; split; try done;
               rewrite Hsub; discriminate.
      + right.
        assert (E : (resume_of c (KSend loadingId) r w0).1
                    = appended c bot (VStr retry_apology) VNull (removed loadingId w0)).
        { rewrite <- apology_world.
          destruct c; simpl;
            unfold Recommend.sendMessage_resume, Recommend.sendMessage_try,
              Report.sendMessage_resume, Report.sendMessage_try, try_catch;
            unfold mbind at 1, M_bind at 1, bind at 1; unfold lift; rewrite Ea; done. }
        rewrite E. apply Hplus.
    - right. destruct c.
      { exfalso. destruct (reachable_traffic RecommendClient w Hr) as [T1 _ _].
        rewrite Forall_forall in T1.
        specialize (T1 _ (list_elem_of_lookup_2 _ _ _ Hi)). by destruct T1. }
      simpl resume_of.
      assert (Hd : report_failed r \/
                   exists status data, r = FetchResponse status (Returned data) /\
                                       data <> VNull /\ data <> VUndefined).
      { destruct r as [reason|status [data|err]]; simpl; auto.
        destruct data; simpl; auto; right; eexists _, _; (split; [reflexivity|]); done. }
      destruct Hd as [Hf | (status & data & -> & Hn & Hu)].
      + rewrite auto_report_resume_failed by done.
        assert (E : match r with
                    | FetchResponse _ (Returned _) => removed loadingId2 (removed loadingId2 w0)
                    | _ => removed loadingId2 w0
                    end = removed loadingId2 w0) by (destruct r as [|? [|]]; done).
        rewrite E. apply (Hplus bot).
      + rewrite Report_auto_report_resume_ok by done.
        apply (Hplus bot). }
  split; [done|]. split; [|done].
  destruct Hcases as [-> | ->]; [done|].
  intros Hmem. apply elem_of_app in Hmem as [Hmem|Hmem]; [done|].
  by apply list_elem_of_singleton in Hmem.
Qed.

Lemma settled_request_loses_loading_message_witness :
  let w := run_events Recommend.handle [EvLoad; EvTimer 0]
             (script_start None (Some "") true (Some []) [] []) in
  let data := VObj (list_to_map [("program_recommendation", VObj ∅)]) in
  ("msg-0" ∉ ids_of (log_of (Recommend.handle
                               (EvSettle 0 (FetchResponse 200 (Returned data))) w))) /\
  inflight (Recommend.handle (EvSettle 0 (FetchResponse 200 (Returned data))) w) = [].
Proof.
  intros w data.
  assert (Hr : reachable (handle_of RecommendClient) w).
  { apply (reachable_after RecommendClient). apply page_ok_empty. by right. }
  assert (Hlt : (messageIdCounter w < 2 ^ 53)%N) by (vm_compute; reflexivity).
  destruct (settled_request_loses_loading_message RecommendClient w 0
              (chat_request "init" (VStr "사용자")) (KSend "msg-0")
              (FetchResponse 200 (Returned data)) [bot_message "msg-0" thinking]
              Hr Hlt eq_refl eq_refl) as (j & e & _ & _ & _ & H1 & H2).
  split; [exact H1 | exact H2].
Defined.

(** ** Messages that have been shown *)

Lemma shown_stays_sendMessage c isInitial w e :
  ids_invariant w ->
  e ∈ log_of w -> is_msg_id (el_id e) ->
  el_id e ∉ pending_ids w ->
  e ∈ log_of ((sendMessage_of c isInitial w).1) /\
  (el_id e ∉ pending_ids ((sendMessage_of c isInitial w).1)).
Proof.
  intros [_ I2 _] Hin Hmsg Hnot.
  assert (Hlt : forall m, (messageIdCounter w <= m)%N -> el_id e <> msg_id m).
  { intros m Hm E. assert (Hn : (m < messageIdCounter w)%N); [|lia].
    apply I2. rewrite <- E. apply list_elem_of_fmap. by exists e. }
  assert (Hpush : forall w3 rq m,
            e ∈ log_of w3 -> pending_ids w3 = pending_ids w ->
            (messageIdCounter w <= m)%N ->
            e ∈ log_of (set_inflight (inflight w3 ++ [(rq, KSend (msg_id m))]) w3) /\
            (el_id e ∉ pending_ids (set_inflight (inflight w3 ++ [(rq, KSend (msg_id m))]) w3))).
  { intros w3 rq m H3 Hp Hm. split; [done|].
    unfold pending_ids in *. simpl. rewrite fmap_app, Hp. simpl.
    intros Hmem. apply elem_of_app in Hmem as [Hmem|Hmem]; [done|].
    apply list_elem_of_singleton in Hmem. by apply (Hlt m). }
  assert (Happ : forall sender text imageSrc w1,
            pending_ids (appended c sender text imageSrc w1) = pending_ids w1).
  { intros. unfold pending_ids, appended.
    by destruct (appendMessage_of_fields c sender text imageSrc w1) as (-> & _). }
  destruct isInitial.
  - rewrite sendMessage_init. cbv zeta. apply Hpush; [by apply appended_msgs|apply Happ|lia].
  - rewrite sendMessage_typed. destruct (userMessageInput w) as [value|]; [|done].
    destruct (bool_decide (trim value = "")); [done|]. cbv zeta. apply Hpush.
    + apply appended_msgs; [done|].
      change (log_of (set_input ?v ?w)) with (log_of w). by apply appended_msgs.
    + rewrite Happ. unfold pending_ids. simpl. apply Happ.
    + simpl. rewrite appended_counter. apply js_incr_le.
Qed.

Lemma shown_stays_handle c ev w e :
  ids_invariant w -> pending_invariant w ->
  e ∈ log_of w -> is_msg_id (el_id e) ->
  el_id e ∉ pending_ids w ->
  e ∈ log_of (handle_of c ev w) /\ (el_id e ∉ pending_ids (handle_of c ev w)).
Proof.
  intros Hids Hpend Hin Hmsg Hnot. rewrite handle_of_eq.
  destruct ev as [|i|i r|s| |].
  - done.
  - destruct (timers w !! i) as [[ms t]|]; [|done].
    set (w0 := set_timers (delete i (timers w)) w).
    assert (Hids0 : ids_invariant w0) by (by apply (ids_invariant_ext w)).
    destruct t.
    + rewrite run_load_check. destruct (chatLog w0) as [[|]|]; try done.
      by apply shown_stays_sendMessage.
    + destruct c; [done|].
      change (run_task_of ReportClient TAutoReport w0) with (Report.auto_report w0).
      rewrite Report_auto_report_world. cbv zeta.
      change Report.appendMessage with (appendMessage_of ReportClient).
      fold (appended ReportClient bot (VStr thinking) VNull w0).
      split.
      * change (log_of (set_inflight ?l ?w)) with (log_of w). by apply appended_msgs.
      * unfold pending_ids. simpl. rewrite fmap_app. simpl.
        intros Hmem. apply elem_of_app in Hmem as [Hmem|Hmem]; [done|].
        apply list_elem_of_singleton in Hmem.
        destruct Hids as [_ I2 _]. assert (Hn : (messageIdCounter w < messageIdCounter w)%N); [|lia].
        apply I2. rewrite <- Hmem. apply list_elem_of_fmap. by exists e.
  - destruct (inflight w !! i) as [[rq k]|] eqn:Hi; [|done].
    set (w0 := set_inflight (delete i (inflight w)) w).
    destruct (msgs_stay_keeps c k r w0) as [_ Hstay].
    destruct (resume_keeps c k r w0) as (Hinf & _).
    assert (Hk : cont_id k ∈ pending_ids w).
    { unfold pending_ids. apply list_elem_of_fmap. exists (rq, k).
      split; [done|]. by eapply list_elem_of_lookup_2. }
    split.
    + apply Hstay; [done| |done]. intros E. apply Hnot. by rewrite E.
    + unfold pending_ids in *. rewrite Hinf. simpl. rewrite list_fmap_delete.
      intros Hmem. apply Hnot. by eapply list_elem_of_delete_inv.
  - by destruct (userMessageInput w).
  - destruct (userMessageInput w); [|done]. by apply shown_stays_sendMessage.
  - destruct (sendBtn w); [|done]. by apply shown_stays_sendMessage.
Qed.

(** X27.  What has been shown stays: on a page the script can reach, a
    message element of the log that is not the loading message of a request
    under way (a user's message, a reply, an apology) is still in the log,
    unchanged, after every run of events. *)
Theorem shown_messages_stay
    (c : Client) (w : World) (es : list Event) (e : Elem) :
  reachable (handle_of c) w ->
  (messageIdCounter (run_events (handle_of c) es w) < 2 ^ 53)%N ->
  e ∈ log_of w -> is_msg_id (el_id e) ->
  el_id e ∉ pending_ids w ->
  e ∈ log_of (run_events (handle_of c) es w).
Proof.
  revert w. induction es as [|ev es IH]; intros w Hr Hlt Hin Hmsg Hnot; [done|].
  simpl in *.
  pose proof (run_events_counter c es (handle_of c ev w)) as Hle.
  destruct (ids_step_handle c ev w) as [Hle' _].
  assert (Hlt0 : (messageIdCounter w < 2 ^ 53)%N) by lia.
  destruct (shown_stays_handle c ev w e) as [H1 H2]; try done.
  - by apply (reachable_ids c).
  - by apply (reachable_pending c).
  - apply IH; try done. by apply reachable_step.
Qed.

Lemma shown_messages_stay_witness :
  let w := run_events Report.handle
             [EvLoad; EvTimer 0; EvSettle 0 (FetchFailed "offline")]
             (script_start None (Some "") true (Some []) [] []) in
  bot_message "msg-1" retry_apology
  ∈ log_of (run_events Report.handle
              [EvType "hi"; EvEnter; EvSettle 0 (FetchFailed "offline")] w).
Proof.
  intros w.
  assert (Hr : reachable (handle_of ReportClient) w).
  { apply (reachable_after ReportClient). apply page_ok_empty. by right. }
  apply (shown_messages_stay ReportClient w
           [EvType "hi"; EvEnter; EvSettle 0 (FetchFailed "offline")]).
  - exact Hr.
  - vm_compute. reflexivity.
  - apply (list_elem_of_lookup_2 _ 0). vm_compute. reflexivity.
  - by exists 1%N.
  - vm_compute. apply not_elem_of_nil.
Defined.

(** ** The order of the messages *)

Lemma ordered_msgs_delete k ids : ordered_msgs ids -> ordered_msgs (delete k ids).
Proof.
  intros O i j n m Hij Hi Hj.
  destruct (decide (i < k)) as [Hik|Hik], (decide (j < k)) as [Hjk|Hjk].
  - rewrite list_lookup_delete_lt in Hi by done. rewrite list_lookup_delete_lt in Hj by done.
    by apply (O i j).
  - rewrite list_lookup_delete_lt in Hi by done. rewrite list_lookup_delete_ge in Hj by lia.
    apply (O i (S j)); [lia|done|done].
  - lia.
  - rewrite list_lookup_delete_ge in Hi by lia. rewrite list_lookup_delete_ge in Hj by lia.
    apply (O (S i) (S j)); [lia|done|done].
Qed.

Lemma order_step_refl w : order_step w w.
Proof. split; [lia | done]. Qed.

Lemma order_step_trans w1 w2 w3 : order_step w1 w2 -> order_step w2 w3 -> order_step w1 w3.
Proof.
  intros [H1 I1] [H2 I2]. split; [lia|]. intros Hc Hw.
  apply I2; [done|]. apply I1; [lia | done].
Qed.

Lemma order_step_page w w' : same_page w w' -> order_step w w'.
Proof.
  intros (_ & _ & Hl & Hc & _). split; [lia|]. intros _ [O1 O2].
  unfold ordered_invariant, log_of in *. by rewrite Hl, Hc.
Qed.

Lemma order_step_append c sender text imageSrc :
  keeps order_step (appendMessage_of c sender text imageSrc).
Proof.
  intros w. fold (appended c sender text imageSrc w).
  split; [rewrite appended_counter; apply js_incr_le|].
  rewrite appended_counter. intros Hlt [O1 O2].
  pose proof (js_incr_below _ Hlt) as Hc.
  unfold ordered_invariant. rewrite appended_log_of, appended_counter, Hc.
  unfold log_of in *. destruct (chatLog w) as [l|]; simpl in *.
  - split.
    + intros n Hn. apply elem_of_app in Hn as [Hn|Hn].
      * apply O1 in Hn. lia.
      * apply list_elem_of_singleton in Hn. apply msg_id_inj in Hn. lia.
    + intros i j n m Hij Hi Hj.
      apply lookup_snoc_Some in Hi as [[Hi1 Hi2]|[Hi1 Hi2]];
        apply lookup_snoc_Some in Hj as [[Hj1 Hj2]|[Hj1 Hj2]].
      * by apply (O2 i j).
      * apply msg_id_inj in Hj2. subst m. apply O1.
        by eapply list_elem_of_lookup_2.
      * lia.
      * lia.
  - split; [intros n Hn; by apply elem_of_nil in Hn|].
    intros i j n m _ Hi. by rewrite lookup_nil in Hi.
Qed.

Lemma order_step_remove id : keeps order_step (removeMessage id).
Proof.
  intros w. rewrite removeMessage_world.
  destruct (getElementById id w) as [[i|i|i]|]; try apply order_step_refl.
  - split; [simpl; lia|]. by intros _ H.
  - split; [simpl; lia|]. intros _ [O1 O2]. unfold ordered_invariant, log_of in *. simpl.
    destruct (chatLog w) as [l|]; simpl in *; [|done].
    rewrite ids_of_delete. split.
    + intros n Hn. apply O1. by eapply list_elem_of_delete_inv.
    + by apply ordered_msgs_delete.
  - split; [simpl; lia|]. by intros _ H.
Qed.

Lemma reachable_ordered c w :
  reachable (handle_of c) w -> (messageIdCounter w < 2 ^ 53)%N -> ordered_invariant w.
Proof.
  intros Hr. induction Hr as [chatArea input button log pre post Hp | w e Hr IH]; intros Hc.
  - assert (Hno : forall s, s ∈ ids_of (default [] log) -> ~ is_msg_id s).
    { intros s Hs. apply Hp. unfold ids_of in *. rewrite !fmap_app.
      apply elem_of_app. right. apply elem_of_app. by left. }
    split; simpl; unfold log_of; simpl.
    + intros n Hn. exfalso. apply (Hno _ Hn). by exists n.
    + intros i j n m _ Hi _. exfalso. apply (Hno (msg_id n)); [|by exists n].
      by eapply list_elem_of_lookup_2.
  - destruct (keeps_handle order_step order_step_refl order_step_trans order_step_page
                order_step_append order_step_remove c e w) as [Hle Hinv].
    apply Hinv; [done|]. apply IH. lia.
Qed.

(** X28.  The messages of the log are in the order in which they were
    made: on every page the script can reach, of two message elements of
    the log the later one carries the larger number in its id, and both
    numbers are below the counter. *)
Theorem messages_are_in_order
    (c : Client) (w : World) (i j : nat) (n m : N) :
  reachable (handle_of c) w ->
  (messageIdCounter w < 2 ^ 53)%N ->
  i < j ->
  ids_of (log_of w) !! i = Some (msg_id n) ->
  ids_of (log_of w) !! j = Some (msg_id m) ->
  (n < m < messageIdCounter w)%N.
Proof.
  intros Hr Hlt Hij Hi Hj. destruct (reachable_ordered c w Hr Hlt) as [O1 O2].
  split; [by apply (O2 i j)|]. apply O1. by eapply list_elem_of_lookup_2.
Qed.

Lemma messages_are_in_order_witness :
  let w := run_events Report.handle
             [EvLoad; EvTimer 0; EvSettle 0 (FetchFailed "offline"); EvType "hi"; EvEnter]
             (script_start None (Some "") true (Some []) [] []) in
  (1 < 3 < messageIdCounter w)%N.
Proof.
  intros w.
  assert (Hr : reachable (handle_of ReportClient) w).
  { apply (reachable_after ReportClient). apply page_ok_empty. by right. }
  assert (Hlt : (messageIdCounter w < 2 ^ 53)%N) by (vm_compute; reflexivity).
  assert (Hi : ids_of (log_of w) !! 0 = Some (msg_id 1)) by (vm_compute; reflexivity).
  assert (Hj : ids_of (log_of w) !! 2 = Some (msg_id 3)) by (vm_compute; reflexivity).
  apply (messages_are_in_order ReportClient w 0 2 1 3 Hr Hlt); [lia | exact Hi | exact Hj].
Defined.
